(** * Berlin wastewater dashboard: the data-aggregation pipeline

    A shallow embedding of [processData.ts]: station listing, per-station
    aggregation, the global axis bound and the population-weighted composite
    series, together with the parts of the JavaScript platform and of d3
    they call; and of what surrounds it: the series [main.ts] prepares, the
    check of the data file ([validateForChart.js]), the incremental fetch
    ([fetchLiveData.js]) and the licence header ([insert-header.js]).

    - JavaScript numbers are IEEE 754 binary64 values: Rocq's primitive
      [float], whose operations round to nearest, ties to even, as
      JavaScript's do.
    - A JavaScript string is a Rocq [string], one character per code unit
      (code units above 255 are outside the model).
    - A [Date] is its time value, the number of milliseconds since the
      epoch, an integer.
    - [null] and [undefined] are [None]; where a value can be either, the
      two layers are nested. *)

From Stdlib Require Import ZArith List String Ascii Bool Lia PArith.
From Stdlib Require Import Sorted Permutation.
From Stdlib Require Import Floats.
From Stdlib Require Import DecimalString.
Import ListNotations.

#[local] Set Warnings "-inexact-float,-register-all".

Local Open Scope Z_scope.
Local Open Scope string_scope.

(* ================================================================== *)
(** * JavaScript strings *)

Module JsString.

(** [s.slice(n)]. *)
Fixpoint drop (n : nat) (s : string) : string :=
  match n, s with
  | O, _ => s
  | S _, EmptyString => EmptyString
  | S n', String _ s' => drop n' s'
  end.

(** [s.startsWith(p)]. *)
Definition startsWith (s p : string) : bool := String.prefix p s.

(** [s.includes(needle)]: [needle] occurs at some position of [s]. *)
Fixpoint includes (s needle : string) : bool :=
  if String.prefix needle s then true
  else match s with
       | EmptyString => false
       | String _ s' => includes s' needle
       end.

(** [s.replace(pat, rep)] with a string pattern: only the first
    occurrence is replaced. *)
Fixpoint replace (s pat rep : string) : string :=
  if String.prefix pat s then rep ++ drop (String.length pat) s
  else match s with
       | EmptyString => EmptyString
       | String c s' => String c (replace s' pat rep)
       end.

(** White space and line terminators, as [\s] and [trim] see them, among
    the code units below 256. *)
Definition isWhiteSpace (c : ascii) : bool :=
  let n := N_of_ascii c in
  ((9 <=? n) && (n <=? 13) || (n =? 32) || (n =? 160))%N.

Definition isDigit (c : ascii) : bool :=
  let n := N_of_ascii c in ((48 <=? n) && (n <=? 57))%N.

Definition digitValue (c : ascii) : Z := Z.of_N (N_of_ascii c) - 48.

Fixpoint trimStart (s : string) : string :=
  match s with
  | String c s' => if isWhiteSpace c then trimStart s' else s
  | EmptyString => EmptyString
  end.

(** The longest run of decimal digits at the start of [s], with the rest. *)
Fixpoint spanDigits (s : string) : list ascii * string :=
  match s with
  | String c s' =>
      if isDigit c then let (ds, r) := spanDigits s' in (c :: ds, r)
      else ([], s)
  | EmptyString => ([], EmptyString)
  end.

(** The value of a run of decimal digits. *)
Definition decimalValue (ds : list ascii) : Z :=
  fold_left (fun acc c => 10 * acc + digitValue c) ds 0.

End JsString.

(* ================================================================== *)
(** * JavaScript numbers *)

Module JsNumber.

Local Open Scope float_scope.

(** [isNaN(x)]. *)
Definition isNaN (x : float) : bool := PrimFloat.is_nan x.

(** [x === y] on numbers. *)
Definition strictEq (x y : float) : bool := (x =? y).

(** A number in a condition: [NaN], [0] and [-0] are falsy. *)
Definition truthy (x : float) : bool := negb (PrimFloat.is_nan x || PrimFloat.is_zero x).

(** An integer as a number; exact up to 2^53 in absolute value, which
    covers every use below. *)
Definition ofZ (n : Z) : float :=
  match n with
  | Z0 => 0
  | Zpos _ => PrimFloat.of_uint63 (Uint63.of_Z n)
  | Zneg p => - PrimFloat.of_uint63 (Uint63.of_Z (Zpos p))
  end.

(** The binary64 value nearest to the rational [num / den] (both
    positive), ties to even; it underflows to zero and overflows to
    infinity. *)
Definition nearest (num den : Z) : float :=
  let l := (Z.log2 num - Z.log2 den)%Z in
  let fl := (if (if 0 <=? l then den * 2 ^ l <=? num else den <=? num * 2 ^ (- l))
             then l else l - 1)%Z in
  let ex := Z.max (fl - 52) (-1074) in
  let n' := (if 0 <=? ex then num else num * 2 ^ (- ex))%Z in
  let d' := (if 0 <=? ex then den * 2 ^ ex else den)%Z in
  let q := (n' / d')%Z in
  let r := (n' mod d')%Z in
  let m := (if (d' <? 2 * r) || ((d' =? 2 * r) && Z.odd q) then q + 1 else q)%Z in
  Z.ldexp (ofZ m) ex.

(** The number denoted by the decimal [m * 10^e], [m >= 0], with the sign
    [neg]. *)
Definition ofDecimal (neg : bool) (m e : Z) : float :=
  let x := if (m =? 0)%Z then 0
           else if (0 <=? e)%Z then nearest (m * 10 ^ e) 1
           else nearest m (10 ^ (- e)) in
  if neg then - x else x.

(** The exponent part of a decimal literal: [e] or [E], an optional sign
    and at least one digit; absent or incomplete, it is not part of the
    literal. *)
Definition exponentPart (s : string) : Z :=
  match s with
  | String c s' =>
      if (Ascii.eqb c "e" || Ascii.eqb c "E")%bool then
        let '(neg, s'') :=
          match s' with
          | String "+" t => (false, t)
          | String "-" t => (true, t)
          | _ => (false, s')
          end in
        match fst (JsString.spanDigits s'') with
        | [] => 0%Z
        | ds => if neg then (- JsString.decimalValue ds)%Z else JsString.decimalValue ds
        end
      else 0%Z
  | EmptyString => 0%Z
  end.

(** [parseFloat(s)]: leading white space is skipped, the longest prefix
    that is a decimal literal ([Infinity], digits with an optional
    fraction and exponent, each with an optional sign) is converted, and
    [NaN] is returned when there is none. *)
Definition parseFloat (s : string) : float :=
  let t := JsString.trimStart s in
  let '(neg, u) :=
    match t with
    | String "+" r => (false, r)
    | String "-" r => (true, r)
    | _ => (false, t)
    end in
  if String.prefix "Infinity" u then (if neg then neg_infinity else infinity)
  else
    let '(ip, r1) := JsString.spanDigits u in
    let '(fp, r2) :=
      match r1 with
      | String "." r => JsString.spanDigits r
      | _ => ([], r1)
      end in
    match ip, fp with
    | [], [] => nan
    | _, _ =>
        ofDecimal neg (JsString.decimalValue (ip ++ fp))
                  (exponentPart r2 - Z.of_nat (List.length fp))
    end.

(** [parseFloat(x.toString().replace(",", "."))] for a number [x]:
    [toString] prints a decimal that reads back as [x] ([NaN] and the
    infinities by name) and holds no comma; the sign of a zero is not
    printed. *)
Definition reparse (x : float) : float :=
  if PrimFloat.is_zero x then 0 else x.

(** [Math.round(x)]: the nearest integer, a tie going to the greater
    one; [NaN] and the infinities are returned as they are, and a result
    of zero keeps the sign of [x]. *)
Definition Math_round (x : float) : float :=
  match Prim2SF x with
  | S754_finite s m e =>
      if (0 <=? e)%Z then x
      else
        let sm := (if s then Zneg m else Zpos m) in
        let n := ((2 * sm + 2 ^ (- e)) / 2 ^ (- e + 1))%Z in
        if (n =? 0)%Z then (if s then neg_zero else 0) else ofZ n
  | _ => x
  end.

End JsNumber.

(* ================================================================== *)
(** * d3-array: sum, mean, min and max of an array of numbers

    The functions skip what is not a number; [None] is the [undefined] the
    last three return when nothing is left. *)

Module d3.

Local Open Scope float_scope.

(** [d3.sum]: [if (value = +value) sum += value]. *)
Definition sum (values : list float) : float :=
  fold_left (fun sum value => if JsNumber.truthy value then sum + value else sum)
            values 0.

(** [d3.mean]: [if (value != null && (value = +value) >= value)
    ++count, sum += value], then [if (count) return sum / count]. *)
Definition mean (values : list float) : option float :=
  let '(count, sum) :=
    fold_left (fun (acc : Z * float) value =>
                 let '(count, sum) := acc in
                 if value <=? value then ((count + 1)%Z, sum + value)
                 else (count, sum))
              values (0%Z, 0) in
  if (count =? 0)%Z then None else Some (sum / JsNumber.ofZ count).

(** [d3.min]: [if (value != null && (min > value || (min === undefined
    && value >= value))) min = value]. *)
Definition min (values : list float) : option float :=
  fold_left (fun min value =>
               match min with
               | Some m => if value <? m then Some value else min
               | None => if value <=? value then Some value else None
               end)
            values None.

(** [d3.max], with [max < value]. *)
Definition max (values : list float) : option float :=
  fold_left (fun max value =>
               match max with
               | Some m => if m <? value then Some value else max
               | None => if value <=? value then Some value else None
               end)
            values None.

End d3.

(* ================================================================== *)
(** * JavaScript dates

    Time values, the calendar of ECMAScript (section "Time Values and
    Time Range"), [toISOString], the reading back of what it prints, and
    d3's parser for the format ["%d.%m.%Y"]. *)

Module JsDate.

Local Open Scope Z_scope.

(** A valid [Date]: its time value in milliseconds. *)
Definition Date : Type := Z.

Definition msPerDay : Z := 86400000.

Definition Day (t : Z) : Z := t / msPerDay.
Definition TimeWithinDay (t : Z) : Z := t mod msPerDay.

Definition DayFromYear (y : Z) : Z :=
  365 * (y - 1970) + (y - 1969) / 4 - (y - 1901) / 100 + (y - 1601) / 400.

Definition InLeapYear (y : Z) : bool :=
  (y mod 4 =? 0) && (negb (y mod 100 =? 0) || (y mod 400 =? 0)).

(** The year of a day number: the largest [y] with [DayFromYear y <= day],
    found next to the estimate that the 400-year cycle gives. *)
Definition YearFromDay (day : Z) : Z :=
  let y0 := 1970 + (day * 400) / 146097 in
  if day <? DayFromYear y0 then y0 - 1
  else if DayFromYear (y0 + 1) <=? day then y0 + 1
  else y0.

(** The day within the year on which month [m] (0 to 11) begins; 12
    gives the length of the year. *)
Definition monthStart (leap : bool) (m : Z) : Z :=
  let l := if leap then 1 else 0 in
  match m with
  | 0 => 0
  | 1 => 31
  | 2 => 59 + l
  | 3 => 90 + l
  | 4 => 120 + l
  | 5 => 151 + l
  | 6 => 181 + l
  | 7 => 212 + l
  | 8 => 243 + l
  | 9 => 273 + l
  | 10 => 304 + l
  | 11 => 334 + l
  | _ => 365 + l
  end.

(** The month (0 to 11) of a day within the year. *)
Definition MonthFromDayInYear (leap : bool) (d : Z) : Z :=
  if d <? monthStart leap 1 then 0
  else if d <? monthStart leap 2 then 1
  else if d <? monthStart leap 3 then 2
  else if d <? monthStart leap 4 then 3
  else if d <? monthStart leap 5 then 4
  else if d <? monthStart leap 6 then 5
  else if d <? monthStart leap 7 then 6
  else if d <? monthStart leap 8 then 7
  else if d <? monthStart leap 9 then 8
  else if d <? monthStart leap 10 then 9
  else if d <? monthStart leap 11 then 10
  else 11.

Definition YearFromTime (t : Z) : Z := YearFromDay (Day t).
Definition DayWithinYear (t : Z) : Z := Day t - DayFromYear (YearFromTime t).
Definition MonthFromTime (t : Z) : Z :=
  MonthFromDayInYear (InLeapYear (YearFromTime t)) (DayWithinYear t).
Definition DateFromTime (t : Z) : Z :=
  DayWithinYear t - monthStart (InLeapYear (YearFromTime t)) (MonthFromTime t) + 1.

(** [MakeDay], [MakeTime] and [MakeDate]; a month outside 0 to 11 carries
    into the year, a date outside the month into the neighbouring ones. *)
Definition MakeDay (year month date : Z) : Z :=
  let ym := year + month / 12 in
  let mn := month mod 12 in
  DayFromYear ym + monthStart (InLeapYear ym) mn + date - 1.

Definition MakeTime (hour min sec ms : Z) : Z :=
  hour * 3600000 + min * 60000 + sec * 1000 + ms.

Definition MakeDate (day time : Z) : Z := day * msPerDay + time.

(** ** Printing *)

Definition digitChar (d : Z) : ascii := ascii_of_N (48 + Z.to_N d).

(** The last [width] decimal digits of [n], the most significant
    first. *)
Fixpoint pad (width : nat) (n : Z) : string :=
  match width with
  | O => EmptyString
  | S w => String (digitChar ((n / 10 ^ Z.of_nat w) mod 10)) (pad w n)
  end.

(** Four digits for the years 0 to 9999, a sign and six digits for the
    others. *)
Definition yearString (y : Z) : string :=
  if (0 <=? y) && (y <=? 9999) then pad 4 y
  else if y <? 0 then String "-" (pad 6 (- y))
  else String "+" (pad 6 y).

(** [date.toISOString()]. *)
Definition toISOString (t : Date) : string :=
  let tw := TimeWithinDay t in
  yearString (YearFromTime t)
    ++ "-" ++ pad 2 (MonthFromTime t + 1)
    ++ "-" ++ pad 2 (DateFromTime t)
    ++ "T" ++ pad 2 (tw / 3600000)
    ++ ":" ++ pad 2 (tw / 60000 mod 60)
    ++ ":" ++ pad 2 (tw / 1000 mod 60)
    ++ "." ++ pad 3 (tw mod 1000)
    ++ "Z".

(** ** Reading *)

(** Exactly [width] decimal digits. *)
Fixpoint fixedDigits (width : nat) (acc : Z) (s : string) : option (Z * string) :=
  match width with
  | O => Some (acc, s)
  | S w =>
      match s with
      | String c s' =>
          if JsString.isDigit c
          then fixedDigits w (10 * acc + JsString.digitValue c) s'
          else None
      | EmptyString => None
      end
  end.

Definition expect (c : ascii) (s : string) : option string :=
  match s with
  | String c' s' => if Ascii.eqb c c' then Some s' else None
  | EmptyString => None
  end.

Definition bind {A B : Type} (o : option A) (k : A -> option B) : option B :=
  match o with Some a => k a | None => None end.

Notation "' p <- o ;; k" := (bind o (fun p => k))
  (at level 61, p pattern, o at next level, right associativity).
Notation "x <- o ;; k" := (bind o (fun x => k))
  (at level 61, o at next level, right associativity).

Definition daysInMonth (y m : Z) : Z :=
  monthStart (InLeapYear y) (m + 1) - monthStart (InLeapYear y) m.

Definition isoYear (s : string) : option (Z * string) :=
  match s with
  | String "+" r => fixedDigits 6 0 r
  | String "-" r =>
      '(y, r') <- fixedDigits 6 0 r ;;
      if y =? 0 then None else Some (- y, r')
  | _ => fixedDigits 4 0 s
  end.

(** [new Date(s)] for a string in the format [toISOString] prints, the
    only strings the pipeline passes it; [None] is an invalid date. *)
Definition ofISOString (s : string) : option Date :=
  '(y, s) <- isoYear s ;;
  s <- expect "-" s ;;
  '(mo, s) <- fixedDigits 2 0 s ;;
  s <- expect "-" s ;;
  '(d, s) <- fixedDigits 2 0 s ;;
  s <- expect "T" s ;;
  '(h, s) <- fixedDigits 2 0 s ;;
  s <- expect ":" s ;;
  '(mi, s) <- fixedDigits 2 0 s ;;
  s <- expect ":" s ;;
  '(sec, s) <- fixedDigits 2 0 s ;;
  s <- expect "." s ;;
  '(ms, s) <- fixedDigits 3 0 s ;;
  s <- expect "Z" s ;;
  match s with
  | EmptyString =>
      if (1 <=? mo) && (mo <=? 12) && (1 <=? d) && (d <=? daysInMonth y (mo - 1))
         && (h <? 24) && (mi <? 60) && (sec <? 60)
      then Some (MakeDate (MakeDay y (mo - 1) d) (MakeTime h mi sec ms))
      else None
  | _ => None
  end.

(** ** d3.timeParse("%d.%m.%Y") *)

(** d3's [numberRe], [/^\s*\d+/], applied to the next [width] code
    units: optional white space, then at least one digit. *)
Fixpoint skipWhiteSpace (width : nat) (s : string) : nat * string :=
  match width, s with
  | S w, String c s' => if JsString.isWhiteSpace c then skipWhiteSpace w s' else (width, s)
  | _, _ => (width, s)
  end.

Fixpoint takeDigits (width : nat) (s : string) : list ascii * string :=
  match width, s with
  | S w, String c s' =>
      if JsString.isDigit c then let (ds, r) := takeDigits w s' in (c :: ds, r)
      else ([], s)
  | _, _ => ([], s)
  end.

Definition parseNumber (width : nat) (s : string) : option (Z * string) :=
  let (w, s1) := skipWhiteSpace width s in
  match takeDigits w s1 with
  | ([], _) => None
  | (ds, s2) => Some (JsString.decimalValue ds, s2)
  end.

(** d3's [localDate]: [new Date(y, m, d, 0, 0, 0, 0)], and for the years
    0 to 99, which that constructor would move to the 1900s,
    [new Date(-1, m, d, ...)] followed by [setFullYear(y)]. [UTC] turns a
    local time into the time value. *)
Definition localDate (UTC : Z -> Z) (y m d : Z) : Date :=
  if (0 <=? y) && (y <? 100) then
    let t := MakeDate (MakeDay (-1) m d) 0 in
    UTC (MakeDate (MakeDay y (MonthFromTime t) (DateFromTime t)) (TimeWithinDay t))
  else UTC (MakeDate (MakeDay y m d) 0).

(** The parser: day, ["."], month, ["."], year, and nothing after it;
    [None] is the [null] d3 returns. *)
Definition timeParse_dmY (UTC : Z -> Z) (s : string) : option Date :=
  '(d, s) <- parseNumber 2 s ;;
  s <- expect "." s ;;
  '(m, s) <- parseNumber 2 s ;;
  s <- expect "." s ;;
  '(y, s) <- parseNumber 4 s ;;
  match s with
  | EmptyString => Some (localDate UTC y (m - 1) d)
  | _ => None
  end.

End JsDate.

Local Open Scope list_scope.

(* ================================================================== *)
(** * The data model ([types.ts]) *)

(** [TestParameter.result] is declared [string | number]; the code tests
    for both, so a third case stands for any other value met at run time. *)
Inductive ParameterResult : Type :=
| ResultString (s : string)
| ResultNumber (x : float)
| ResultOther.

(** [name?: string], [result: string | number]. *)
Record TestParameter : Type := {
  param_name : option string;
  param_result : ParameterResult
}.

(** [name?: string], [parameter?: TestParameter[]]; an element of
    [parameter] can be [null], which the code tests for. *)
Record TestResult : Type := {
  test_name : option string;
  parameter : option (list (option TestParameter))
}.

(** [measuring_point], [extraction_date], [results?]. *)
Record RawDataEntry : Type := {
  measuring_point : string;
  extraction_date : string;
  results : option (list TestResult)
}.

(** [{ date, value, min, max }]. The three numbers are declared [number];
    at run time they hold what [d3.mean], [d3.min] and [d3.max] returned,
    which is [undefined] ([None]) when the list held no number. *)
Record ProcessedEntry : Type := {
  date : JsDate.Date;
  value : option float;
  min : option float;
  max : option float
}.

(** [populationData], the JSON table imported from
    [data/populationByPlant.json], with the three keys the code reads. *)
Record PopulationData : Type := {
  Ruhleben : float;
  Schoenerlinde : float;
  Wassmannsdorf : float
}.

(** ** What a call can do besides returning *)

Inductive JsError : Type := TypeError.

Inductive Completion (A : Type) : Type :=
| Return (a : A)
| Throw (e : JsError).
Arguments Return {A} a.
Arguments Throw {A} e.

(** A value parsed from JSON. *)
Inductive Json : Type :=
| JNull
| JBool (b : bool)
| JNum (x : float)
| JStr (s : string)
| JArr (items : list Json)
| JObj (members : list (string * Json)).

(** What a caller can pass for [rawData] at run time: the array of entries
    the type announces, or something that is not an array. *)
Inductive NonArray : Type :=
| NaUndefined
| NaNull
| NaBoolean (b : bool)
| NaNumber (x : float)
| NaString (s : string)
| NaObject (members : list (string * Json)).

Inductive RawArgument : Type :=
| IsArray (entries : list RawDataEntry)
| NotArray (v : NonArray).

(** What [console.warn(message, detail)] prints. *)
Inductive Logged : Type :=
| LoggedString (s : string)
| LoggedValue (v : NonArray).

Inductive Diagnostic : Type :=
| warn (message : string) (detail : Logged).

(* ================================================================== *)
(** * [processData.ts], the revision with the weighted series *)

(** A [Set] of strings in insertion order: [dates.add(s)]. *)
Definition Set_add (dates : list string) (s : string) : list string :=
  if existsb (String.eqb s) dates then dates else dates ++ [s].

(** [[...new Set(xs)]]. *)
Definition Set_of (xs : list string) : list string := fold_left Set_add xs [].

(** [Array.prototype.sort()] with the default comparison, on strings: by
    code units, ascending. *)
Fixpoint sort_insert (s : string) (sorted : list string) : list string :=
  match sorted with
  | [] => [s]
  | x :: rest => if String.leb s x then s :: sorted else x :: sort_insert s rest
  end.

Definition Array_sort (xs : list string) : list string :=
  fold_right sort_insert [] xs.

(** The elements of an array that are not [null]. *)
Fixpoint nonNull {A : Type} (xs : list (option A)) : list A :=
  match xs with
  | [] => []
  | Some a :: rest => a :: nonNull rest
  | None :: rest => nonNull rest
  end.

(** [getStations(rawData)]. *)
Definition getStations (rawData : list RawDataEntry) : list string :=
  Set_of (map measuring_point rawData).

(** An entry whose [extraction_date] has been replaced by the parsed
    [Date]: [{ ...d, extraction_date: parsedDate }]. *)
Record ParsedEntry : Type := {
  parsed_measuring_point : string;
  parsed_extraction_date : JsDate.Date;
  parsed_results : option (list TestResult)
}.

(** The first [map] of [filterDataByStation]: the date is parsed, and an
    entry whose date does not parse becomes [null] with a warning. d3
    builds the date from bounded fields, so its time value is never
    [NaN]. *)
Definition normalizeDate (UTC : Z -> Z) (d : RawDataEntry)
  : option ParsedEntry * list Diagnostic :=
  match JsDate.timeParse_dmY UTC (extraction_date d) with
  | None => (None, [warn "Skipping entry with invalid date:"
                           (LoggedString (extraction_date d))])
  | Some parsedDate =>
      (Some {| parsed_measuring_point := measuring_point d;
               parsed_extraction_date := parsedDate;
               parsed_results := results d |}, [])
  end.

(** [rawData.map(...)] with its warnings, in order. *)
Fixpoint mapLogged {A B : Type} (f : A -> B * list Diagnostic) (xs : list A)
  : list B * list Diagnostic :=
  match xs with
  | [] => ([], [])
  | x :: rest =>
      let (y, w) := f x in
      let (ys, ws) := mapLogged f rest in
      (y :: ys, w ++ ws)
  end.

Definition parsedData (UTC : Z -> Z) (rawData : list RawDataEntry)
  : list ParsedEntry * list Diagnostic :=
  let (mapped, warnings) := mapLogged (normalizeDate UTC) rawData in
  (nonNull mapped, warnings).

(** The test on a result's name. *)
Definition nameIsRelevant (name : option string) : bool :=
  match name with
  | Some n => JsString.includes n "SARS-CoV-2" && negb (JsString.includes n "E-gene")
  | None => false
  end.

(** The filter of [relevantResults]. *)
Definition isRelevant (r : TestResult) : bool :=
  nameIsRelevant (test_name r)
  && match parameter r with Some _ => true | None => false end.

Definition relevantResults (rs : option (list TestResult)) : list TestResult :=
  filter isRelevant (match rs with Some l => l | None => [] end).

(** The body of [r.parameter?.forEach]: what one parameter pushes onto
    [resultValues]. *)
Definition pushParameter (resultValues : list float) (p : option TestParameter)
  : list float :=
  match p with
  | None => resultValues
  | Some p =>
      match param_name p with
      | None => resultValues
      | Some n =>
          if negb (JsString.startsWith n "copy_number_") then resultValues
          else
            match param_result p with
            | ResultOther => resultValues
            | ResultString s =>
                let v := JsNumber.parseFloat (JsString.replace s "," ".") in
                if negb (JsNumber.isNaN v) then resultValues ++ [v] else resultValues
            | ResultNumber x =>
                let v := JsNumber.reparse x in
                if negb (JsNumber.isNaN v) then resultValues ++ [v] else resultValues
            end
      end
  end.

Definition resultValues (r : TestResult) : list float :=
  fold_left pushParameter (match parameter r with Some ps => ps | None => [] end) [].

(** The body of [relevantResults.forEach]: what one result pushes onto
    [testMeans]. *)
Definition pushResult (testMeans : list float) (r : TestResult) : list float :=
  let values := resultValues r in
  match values with
  | [] => testMeans
  | _ =>
      match d3.mean values with
      | Some meanPerTest => testMeans ++ [meanPerTest]
      | None => testMeans
      end
  end.

Definition testMeans (rs : option (list TestResult)) : list float :=
  fold_left pushResult (relevantResults rs) [].

(** The object the second [map] returns; a field is [None] for [null]. *)
Record MappedEntry : Type := {
  mapped_date : JsDate.Date;
  mapped_value : option (option float);
  mapped_min : option (option float);
  mapped_max : option (option float)
}.

Definition aggregate (d : JsDate.Date) (rs : option (list TestResult)) : MappedEntry :=
  let means := testMeans rs in
  let nonEmpty := negb (Nat.eqb (List.length means) 0) in
  {| mapped_date := d;
     mapped_value := if nonEmpty then Some (d3.mean means) else None;
     mapped_min := if nonEmpty then Some (d3.min means) else None;
     mapped_max := if nonEmpty then Some (d3.max means) else None |}.

(** The last [filter]: [!!d.date && d.value !== null && d.min !== null &&
    d.max !== null]; a [Date] object is always truthy. *)
Definition keepMapped (m : MappedEntry) : option ProcessedEntry :=
  match mapped_value m, mapped_min m, mapped_max m with
  | Some v, Some lo, Some hi =>
      Some {| date := mapped_date m; value := v; min := lo; max := hi |}
  | _, _, _ => None
  end.

(** [filterDataByStation(rawData, station)], with the warnings it prints. *)
Definition filterDataByStation_logged (UTC : Z -> Z)
    (rawData : list RawDataEntry) (station : string)
  : list ProcessedEntry * list Diagnostic :=
  let (parsed, warnings) := parsedData UTC rawData in
  (nonNull
     (map (fun d => keepMapped (aggregate (parsed_extraction_date d) (parsed_results d)))
          (filter (fun d => String.eqb (parsed_measuring_point d) station) parsed)),
   warnings).

Definition filterDataByStation (UTC : Z -> Z)
    (rawData : list RawDataEntry) (station : string) : list ProcessedEntry :=
  fst (filterDataByStation_logged UTC rawData station).

(** The numbers among values that may be [undefined]; d3 skips the
    others. *)
Definition defined (values : list (option float)) : list float := nonNull values.

(** [getGlobalMaxFromProcessedDatasets(datasets)]. *)
Definition getGlobalMaxFromProcessedDatasets (datasets : list (list ProcessedEntry))
  : float :=
  let allValues := flat_map (fun data => map value data) datasets in
  match d3.max (defined allValues) with
  | Some max => if JsNumber.truthy max then JsNumber.Math_round (max * 1.1)%float
                else 0%float
  | None => 0%float
  end.

(** One [if (x !== null) { push; weightSum += ... }] of
    [computeWeightedAverage]. *)
Definition contribute (x : option float) (weight : float)
    (acc : list float * float) : list float * float :=
  match x with
  | Some v => (fst acc ++ [v * weight], snd acc + weight)%float
  | None => acc
  end.

(** [computeWeightedAverage(ruhleben, schoenerlinde, wassmannsdorf)]. *)
Definition computeWeightedAverage (populationData : PopulationData)
    (ruhleben schoenerlinde wassmannsdorf : option float) : option float :=
  let acc := ([], 0%float) in
  let acc := contribute ruhleben (Ruhleben populationData) acc in
  let acc := contribute schoenerlinde (Schoenerlinde populationData) acc in
  let acc := contribute wassmannsdorf (Wassmannsdorf populationData) acc in
  let (weightedContributions, weightSum) := acc in
  if JsNumber.strictEq weightSum 0 then None
  else Some (d3.sum weightedContributions / weightSum)%float.

(** [series.forEach(d => dates.add(d.date.toISOString()))]. *)
Definition addDates (dates : list string) (series : list ProcessedEntry) : list string :=
  fold_left (fun dates d => Set_add dates (JsDate.toISOString (date d))) series dates.

(** [series.find(d => +d.date === +date)?.value ?? null]. *)
Definition getValue (d : JsDate.Date) (series : list ProcessedEntry) : option float :=
  match find (fun e => Z.eqb (date e) d) series with
  | Some e => value e
  | None => None
  end.

(** The body of the loop over [sortedDates]: what one date pushes onto
    [result]. A string that is not a date would give an invalid [Date],
    equal to no date of a series, hence no value and nothing pushed. *)
Definition pushDate (populationData : PopulationData)
    (ruhlebenSeries schoenerlindeSeries wassmannsdorfSeries : list ProcessedEntry)
    (result : list ProcessedEntry) (isoDate : string) : list ProcessedEntry :=
  match JsDate.ofISOString isoDate with
  | None => result
  | Some d =>
      let v1 := getValue d ruhlebenSeries in
      let v2 := getValue d schoenerlindeSeries in
      let v3 := getValue d wassmannsdorfSeries in
      match computeWeightedAverage populationData v1 v2 v3 with
      | Some weighted =>
          result ++ [{| date := d; value := Some weighted;
                        min := Some weighted; max := Some weighted |}]
      | None => result
      end
  end.

Definition sortedDates
    (ruhlebenSeries schoenerlindeSeries wassmannsdorfSeries : list ProcessedEntry)
  : list string :=
  Array_sort (addDates (addDates (addDates [] ruhlebenSeries) schoenerlindeSeries)
                       wassmannsdorfSeries).

(** [computeWeightedSeries(ruhlebenSeries, schoenerlindeSeries,
    wassmannsdorfSeries)]. *)
Definition computeWeightedSeries (populationData : PopulationData)
    (ruhlebenSeries schoenerlindeSeries wassmannsdorfSeries : list ProcessedEntry)
  : list ProcessedEntry :=
  fold_left (pushDate populationData ruhlebenSeries schoenerlindeSeries wassmannsdorfSeries)
            (sortedDates ruhlebenSeries schoenerlindeSeries wassmannsdorfSeries) [].

(** ** Calls with an argument that may not be an array

    This revision calls [rawData.map] at once. On a value that is not an
    array the call raises a [TypeError]: [undefined] and [null] have no
    properties, and no other value parsed from JSON has a callable
    [map]. *)
Definition Array_map_receiver (rawData : RawArgument) : Completion (list RawDataEntry) :=
  match rawData with
  | IsArray entries => Return entries
  | NotArray _ => Throw TypeError
  end.

Definition getStations_call (rawData : RawArgument) : Completion (list string) :=
  match Array_map_receiver rawData with
  | Return entries => Return (getStations entries)
  | Throw e => Throw e
  end.

Definition filterDataByStation_call (UTC : Z -> Z) (rawData : RawArgument)
    (station : string) : Completion (list ProcessedEntry * list Diagnostic) :=
  match Array_map_receiver rawData with
  | Return entries => Return (filterDataByStation_logged UTC entries station)
  | Throw e => Throw e
  end.

(* ================================================================== *)
(** * [processData.ts], the earlier revision with [Array.isArray] guards *)

Module Guarded.

(** [getStations(rawData)]: a warning and [[]] for what is not an
    array. *)
Definition getStations (rawData : RawArgument)
  : Completion (list string * list Diagnostic) :=
  match rawData with
  | NotArray v =>
      Return ([], [warn "getStations called with invalid rawData:" (LoggedValue v)])
  | IsArray entries => Return (Set_of (map measuring_point entries), [])
  end.

(** The second [map] of that revision parses the date last and keeps
    the [null] of a failed parse in the object. *)
Definition aggregateEntry (UTC : Z -> Z) (d : RawDataEntry)
  : option ProcessedEntry :=
  let means := testMeans (results d) in
  let nonEmpty := negb (Nat.eqb (List.length means) 0) in
  match JsDate.timeParse_dmY UTC (extraction_date d) with
  | None => None
  | Some parsed =>
      keepMapped
        {| mapped_date := parsed;
           mapped_value := if nonEmpty then Some (d3.mean means) else None;
           mapped_min := if nonEmpty then Some (d3.min means) else None;
           mapped_max := if nonEmpty then Some (d3.max means) else None |}
  end.

(** [filterDataByStation(rawData, station)]: [[]] for what is not an
    array. *)
Definition filterDataByStation (UTC : Z -> Z) (rawData : RawArgument)
    (station : string) : Completion (list ProcessedEntry) :=
  match rawData with
  | NotArray _ => Return []
  | IsArray entries =>
      Return (nonNull (map (aggregateEntry UTC)
                 (filter (fun d => String.eqb (measuring_point d) station) entries)))
  end.

End Guarded.


(* ================================================================== *)
(** * The vocabulary of the specification *)

(** A value that is a number: anything but [NaN]. *)
Definition number (x : float) : Prop := PrimFloat.is_nan x = false.

(** The sum of a list taken from left to right, divided by its length. *)
Definition arithmeticMean (l : list float) : float :=
  (fold_left PrimFloat.add l 0 / JsNumber.ofZ (Z.of_nat (List.length l)))%float.

(** The numbers of a list: the elements that are not [NaN], in order. *)
Definition numbers (l : list float) : list float :=
  filter (fun x => negb (PrimFloat.is_nan x)) l.

(** [m] is a number of [l] that no number of [l] exceeds. *)
Definition isMaximum (m : float) (l : list float) : Prop :=
  In m l /\ number m /\ forall x, In x l -> number x -> (x <=? m)%float = true.

Definition isMinimum (m : float) (l : list float) : Prop :=
  In m l /\ number m /\ forall x, In x l -> number x -> (m <=? x)%float = true.



(** The valid values of a result, in the words of the specification (4.2,
    step 4): of each parameter whose name begins with ["copy_number_"] and
    whose result is a string or a number, the number read from the result
    once its comma is replaced with a period, unless the reading fails
    ([NaN]). *)
Definition readResult (result : ParameterResult) : option float :=
  match result with
  | ResultString s => Some (JsNumber.parseFloat (JsString.replace s "," "."))
  | ResultNumber x => Some (JsNumber.reparse x)
  | ResultOther => None
  end.

Definition validValue (p : option TestParameter) : option float :=
  match p with
  | Some p =>
      match param_name p with
      | Some n =>
          if JsString.startsWith n "copy_number_" then
            match readResult (param_result p) with
            | Some v => if PrimFloat.is_nan v then None else Some v
            | None => None
            end
          else None
      | None => None
      end
  | None => None
  end.

Definition validValues (r : TestResult) : list float :=
  nonNull (map validValue (match parameter r with Some ps => ps | None => [] end)).

(** What one result adds to the test-level means when it is aggregated:
    the mean of its valid values, if it has any. *)
Definition contribution (r : TestResult) : list float := pushResult [] r.

Definition resultsOf (rs : option (list TestResult)) : list TestResult :=
  match rs with Some l => l | None => [] end.

(** A sample has a valid relevant value: one of its relevant results
    holds a parameter whose value the code accepts. *)
Definition hasValidValue (s : RawDataEntry) : Prop :=
  exists r, In r (relevantResults (results s)) /\ resultValues r <> [].

(** The point a retained sample gives, when it gives one. *)
Definition pointOf (d : JsDate.Date) (means : list float) : ProcessedEntry :=
  {| date := d; value := d3.mean means; min := d3.min means; max := d3.max means |}.

(** The number of points of a sequence that bear a date. *)
Definition pointsAt (d : JsDate.Date) (points : list ProcessedEntry) : nat :=
  List.length (filter (fun p => Z.eqb (date p) d) points).

(** The values of all points of all sequences, for the global bound. *)
Definition allValues (datasets : list (list ProcessedEntry)) : list float :=
  defined (flat_map (fun data => map value data) datasets).

(** The time values a [Date] can hold (ECMAScript's time range), and those
    that [toISOString] prints with a four-digit year, 0000 to 9999. *)
Definition validTime (t : Z) : Prop :=
  -8640000000000000 <= t <= 8640000000000000.

Definition fourDigitYear (t : Z) : Prop :=
  -62167219200000 <= t <= 253402300799999.

(** The dates of the three series, in the order they enter the set. *)
Definition allDates (r s w : list ProcessedEntry) : list JsDate.Date :=
  map date (r ++ s ++ w).

(** The point the loop pushes for a date, if it pushes one. *)
Definition weightedPoint (d : JsDate.Date) (weighted : float) : ProcessedEntry :=
  {| date := d; value := Some weighted; min := Some weighted; max := Some weighted |}.

Definition entryFor (pop : PopulationData) (r s w : list ProcessedEntry)
    (d : JsDate.Date) : list ProcessedEntry :=
  match computeWeightedAverage pop (getValue d r) (getValue d s) (getValue d w) with
  | Some weighted => [weightedPoint d weighted]
  | None => []
  end.




(** ** Definitions for the proofs *)

(** The loop bodies of [d3.mean], [d3.max] and [d3.min], and what holds of
    the running maximum and minimum after the elements [seen]. *)
Definition meanStep (acc : Z * float) (value : float) : Z * float :=
  let '(count, sum) := acc in
  if (value <=? value)%float then ((count + 1)%Z, (sum + value)%float) else (count, sum).

Definition maxStep (max : option float) (value : float) : option float :=
  match max with
  | Some m => if (m <? value)%float then Some value else max
  | None => if (value <=? value)%float then Some value else None
  end.

Definition minStep (min : option float) (value : float) : option float :=
  match min with
  | Some m => if (value <? m)%float then Some value else min
  | None => if (value <=? value)%float then Some value else None
  end.

Definition maxInvariant (seen : list float) (acc : option float) : Prop :=
  match acc with
  | Some m => In m seen /\ number m /\ forall x, In x seen -> (m <? x)%float = false
  | None => forall x, In x seen -> PrimFloat.is_nan x = true
  end.

Definition minInvariant (seen : list float) (acc : option float) : Prop :=
  match acc with
  | Some m => In m seen /\ number m /\ forall x, In x seen -> (x <? m)%float = false
  | None => forall x, In x seen -> PrimFloat.is_nan x = true
  end.

Definition leapDay (leap : bool) : Z := if leap then 1 else 0.

(** Lexicographic combination of two comparisons. *)
Definition lexOrder (c rest : comparison) : comparison :=
  match c with Eq => rest | Lt => Lt | Gt => Gt end.

(** The fields [toISOString] prints, compared from the year down. *)
Definition fieldsCompare (t1 t2 : Z) : comparison :=
  let tw1 := JsDate.TimeWithinDay t1 in
  let tw2 := JsDate.TimeWithinDay t2 in
  (lexOrder (JsDate.YearFromTime t1 ?= JsDate.YearFromTime t2)
  (lexOrder (JsDate.MonthFromTime t1 + 1 ?= JsDate.MonthFromTime t2 + 1)
  (lexOrder (JsDate.DateFromTime t1 ?= JsDate.DateFromTime t2)
  (lexOrder (tw1 / 3600000 ?= tw2 / 3600000)
  (lexOrder (tw1 / 60000 mod 60 ?= tw2 / 60000 mod 60)
  (lexOrder (tw1 / 1000 mod 60 ?= tw2 / 1000 mod 60)
  (lexOrder (tw1 mod 1000 ?= tw2 mod 1000) Eq)))))))%Z.

(** The order [Array.prototype.sort] leaves strings in. *)
Definition stringLe (a b : string) : Prop := String.leb a b = true.

(* ================================================================== *)
(** * Example data *)

Definition copyNumber (n : string) (v : string) : option TestParameter :=
  Some {| param_name := Some n; param_result := ResultString v |}.

(** Scenario A of the specification. *)
Definition scenarioA : RawDataEntry :=
  {| measuring_point := "X";
     extraction_date := "01.02.2022";
     results := Some
       [ {| test_name := Some "SARS-CoV-2 N1";
            parameter := Some [ copyNumber "copy_number_1" "100,0";
                                copyNumber "copy_number_2" "200,0" ] |} ] |}.

(** Scenario B: two tests whose means are 150 and 250, and between them
    one that the name rule leaves out. *)
Definition excludedTest : TestResult :=
  {| test_name := Some "SARS-CoV-2 E-gene";
     parameter := Some [ copyNumber "copy_number_1" "9000,0" ] |}.

Definition testN2 : TestResult :=
  {| test_name := Some "SARS-CoV-2 N2";
     parameter := Some [ copyNumber "copy_number_1" "250,0" ] |}.

Definition scenarioB : RawDataEntry :=
  {| measuring_point := "X";
     extraction_date := "01.02.2022";
     results := Some (resultsOf (results scenarioA) ++ [excludedTest; testN2]) |}.

(** A sample whose date does not parse, and one taken a week later. *)
Definition badDate : RawDataEntry :=
  {| measuring_point := "X";
     extraction_date := "2022-02-01";
     results := results scenarioA |}.

Definition laterSample : RawDataEntry :=
  {| measuring_point := "X";
     extraction_date := "08.02.2022";
     results := results scenarioB |}.

(** The host's time zone in the examples: one hour east of Greenwich. *)
Definition UTC_plus1 (t : Z) : Z := t - 3600000.

(** The local midnights of 1 and 8 February 2022 there. *)
Definition feb1 : JsDate.Date := 1643670000000.
Definition feb8 : JsDate.Date := 1644274800000.

(** A point of a series, and a population table. *)
Definition point (d : JsDate.Date) (v : float) : ProcessedEntry :=
  {| date := d; value := Some v; min := Some v; max := Some v |}.

Definition examplePopulation : PopulationData :=
  {| Ruhleben := 1600000; Schoenerlinde := 750000; Wassmannsdorf := 1300000 |}.

(** Three series: the first holds the date [feb1] twice, the third is
    empty. *)
Definition ruhlebenExample : list ProcessedEntry :=
  [point feb8 20; point feb1 10; point feb1 99].

Definition schoenerlindeExample : list ProcessedEntry := [point feb1 40].

Definition wassmannsdorfExample : list ProcessedEntry := [].


(** The first instant of the year 10000, and a sample whose only test
    holds infinite readings of opposite sign. *)
Definition year10000 : JsDate.Date := 253402300800000.

Definition infiniteReadings : RawDataEntry :=
  {| measuring_point := "X";
     extraction_date := "01.02.2022";
     results := Some
       [ {| test_name := Some "SARS-CoV-2 N1";
            parameter := Some [ copyNumber "copy_number_1" "Infinity";
                                copyNumber "copy_number_2" "-Infinity" ] |} ] |}.

(** A sample with two tests: the first holds the infinite readings, the
    second is the N2 test of scenario B. *)
Definition mixedReadings : RawDataEntry :=
  {| measuring_point := "X";
     extraction_date := "01.02.2022";
     results := Some (resultsOf (results infiniteReadings) ++ [testN2]) |}.

(** A sample dated the second day of the thirteenth month of 9999, which
    the [Date] constructor carries into January of the year 10000, and the
    local midnight of that day. *)
Definition lateYear : RawDataEntry :=
  {| measuring_point := "X";
     extraction_date := "02.13.9999";
     results := results scenarioA |}.

Definition jan2_10000 : JsDate.Date := 253402383600000.

(* ================================================================== *)
(** * [main.ts]: the series the page prepares

    The values the handler of [loadData().then] binds before it draws:
    [stations], [allProcessed], the three series picked out of it by
    [indexOf], and [weightedCurve]. *)

Module Main.

(** The plants of the composite as [main.ts] names them; the code units
    above 127 (a-umlaut, o-umlaut, sharp s) are given by number. *)
Definition Klaerwerk_Ruhleben : string :=
  ("Kl" ++ String (ascii_of_nat 228) "rwerk Ruhleben")%string.

Definition Klaerwerk_Schoenerlinde : string :=
  ("Kl" ++ String (ascii_of_nat 228) ("rwerk Sch" ++ String (ascii_of_nat 246) "nerlinde"))%string.

Definition Klaerwerk_Wassmannsdorf : string :=
  ("Kl" ++ String (ascii_of_nat 228) ("rwerk Wa" ++ String (ascii_of_nat 223) "mannsdorf"))%string.

(** [xs.indexOf(x)]: the first index that holds [x], or [-1]. *)
Fixpoint Array_indexOf (xs : list string) (x : string) : Z :=
  match xs with
  | [] => -1
  | y :: rest =>
      if String.eqb y x then 0
      else let i := Array_indexOf rest x in
           if (i <? 0)%Z then -1 else i + 1
  end.

(** [xs[i]]: [undefined] outside the array, in particular at [-1]. *)
Definition Array_get {A : Type} (xs : list A) (i : Z) : option A :=
  if (i <? 0)%Z then None else nth_error xs (Z.to_nat i).

(** [stations.map((station) => filterDataByStation(rawData, station))],
    with the warnings the calls print, in order. *)
Definition allProcessed_logged (UTC : Z -> Z) (rawData : list RawDataEntry)
  : list (list ProcessedEntry) * list Diagnostic :=
  mapLogged (fun station => filterDataByStation_logged UTC rawData station)
            (getStations rawData).

Definition allProcessed (UTC : Z -> Z) (rawData : list RawDataEntry)
  : list (list ProcessedEntry) :=
  fst (allProcessed_logged UTC rawData).

(** [weightedCurve]: [computeWeightedSeries] applied to the three series
    found by name. A plant that is not among the stations has index [-1]
    and its series is [undefined]; [computeWeightedSeries] then calls
    [forEach] on [undefined], which raises a [TypeError]. *)
Definition weightedCurve (UTC : Z -> Z) (populationData : PopulationData)
    (rawData : list RawDataEntry) : Completion (list ProcessedEntry) :=
  let stations := getStations rawData in
  let allProcessed := allProcessed UTC rawData in
  let ruhleben := Array_get allProcessed (Array_indexOf stations Klaerwerk_Ruhleben) in
  let schoenerlinde :=
    Array_get allProcessed (Array_indexOf stations Klaerwerk_Schoenerlinde) in
  let wassmannsdorf :=
    Array_get allProcessed (Array_indexOf stations Klaerwerk_Wassmannsdorf) in
  match ruhleben, schoenerlinde, wassmannsdorf with
  | Some r, Some s, Some w => Return (computeWeightedSeries populationData r s w)
  | _, _, _ => Throw TypeError
  end.

End Main.

(* ================================================================== *)
(** * [validateForChart.js]: the check of the data file *)

Module Validate.

(** What the script prints: [console.warn], [console.log] and
    [console.error] with its two arguments. *)
Inductive Line : Type :=
| warned (message : string)
| logged (message : string)
| errored (message detail : string).

(** An index in a template literal: its decimal digits. *)
Definition decimal (n : nat) : string := NilZero.string_of_uint (Nat.to_uint n).

(** The double quote. *)
Definition quote : string := String (ascii_of_nat 34) EmptyString.

(** [parseNumber(value)]. *)
Definition parseNumber (value : string) : float :=
  JsNumber.parseFloat (JsString.replace value "," ".").

(** The filter of [copyValues]: a parameter that is not [null], whose name
    is a string that starts with ["copy_number_"] and whose result is a
    string; what is kept here is that result. *)
Definition copyValue (p : option TestParameter) : option string :=
  match p with
  | Some p =>
      match param_name p, param_result p with
      | Some n, ResultString s =>
          if JsString.startsWith n "copy_number_" then Some s else None
      | _, _ => None
      end
  | None => None
  end.

Definition copyValues (result : TestResult) : list string :=
  nonNull (map copyValue (match parameter result with Some ps => ps | None => [] end)).

(** [copyValues.forEach((p, pIdx) => ...)]: the message of the first
    value that is not a number, if there is one. *)
Fixpoint checkValues (index rIdx pIdx : nat) (values : list string) : option string :=
  match values with
  | [] => None
  | v :: rest =>
      if JsNumber.isNaN (parseNumber v)
      then Some ("sample[" ++ decimal index ++ "].results[" ++ decimal rIdx
                 ++ "].parameter[" ++ decimal pIdx ++ "]: invalid number "
                 ++ quote ++ v ++ quote)%string
      else checkValues index rIdx (S pIdx) rest
  end.

(** The body of the loop over [relevantResults.entries()]. *)
Definition checkResult (index rIdx : nat) (result : TestResult) : option string :=
  match copyValues result with
  | [] => Some ("sample[" ++ decimal index ++ "].results[" ++ decimal rIdx
                ++ "]: no valid copy_number_* results")%string
  | values => checkValues index rIdx 0 values
  end.

Fixpoint checkResults (index rIdx : nat) (results : list TestResult) : option string :=
  match results with
  | [] => None
  | r :: rest =>
      match checkResult index rIdx r with
      | Some message => Some message
      | None => checkResults index (S rIdx) rest
      end
  end.

(** [validateChartRelevant(sample, index)]: the lines it prints, and the
    message of the [Error] it throws, if it throws. *)
Definition validateChartRelevant (sample : RawDataEntry) (index : nat)
  : list Line * option string :=
  match relevantResults (results sample) with
  | [] => ([warned ("sample[" ++ decimal index ++ "]: no SARS-CoV-2 results found")%string],
           None)
  | relevant => ([], checkResults index 0 relevant)
  end.



End Validate.

(* ================================================================== *)
(** * [fetchLiveData.js]: the incremental fetch *)

Module Fetch.

Definition bind {A B : Type} (c : Completion A) (k : A -> Completion B) : Completion B :=
  match c with Return a => k a | Throw e => Throw e end.



(** [a === b] for a value of the file and a value of the response: two
    parses share no object, so an array or an object equals nothing. *)
Definition strictEq (a b : option Json) : bool :=
  match a, b with
  | None, None => true
  | Some JNull, Some JNull => true
  | Some (JBool x), Some (JBool y) => Bool.eqb x y
  | Some (JNum x), Some (JNum y) => JsNumber.strictEq x y
  | Some (JStr x), Some (JStr y) => String.eqb x y
  | _, _ => false
  end.





(** [s.split("T")[0]]: what precedes the first ["T"], or all of [s]. *)
Fixpoint beforeT (s : string) : string :=
  match s with
  | EmptyString => EmptyString
  | String c s' => if Ascii.eqb c "T" then EmptyString else String c (beforeT s')
  end.

(** [formatDate(date)], for a valid date. *)
Definition formatDate (date : JsDate.Date) : string :=
  beforeT (JsDate.toISOString date).

(** [TimeClip]: a time value outside the range makes the date invalid
    ([None]). *)
Definition TimeClip (t : Z) : option JsDate.Date :=
  if (Z.abs t <=? 8640000000000000)%Z then Some t else None.

(** [addOneDay(date)]: [next.setDate(next.getDate() + 1)] on a copy; the
    host's time zone is given by [LocalTime] and [UTC]. An invalid date
    stays invalid. *)
Definition addOneDay (LocalTime UTC : Z -> Z) (date : option JsDate.Date)
  : option JsDate.Date :=
  match date with
  | None => None
  | Some t =>
      let getDate := JsDate.DateFromTime (LocalTime t) in
      let dt := getDate + 1 in
      let lt := LocalTime t in
      let newDate :=
        JsDate.MakeDate
          (JsDate.MakeDay (JsDate.YearFromTime lt) (JsDate.MonthFromTime lt) dt)
          (JsDate.TimeWithinDay lt) in
      TimeClip (UTC newDate)
  end.

End Fetch.

(* ================================================================== *)
(** * [insert-header.js]: the licence header *)

Module InsertHeader.

Local Open Scope string_scope.














End InsertHeader.

(* ================================================================== *)
(** * Vocabulary of the further properties *)

(** The warning [filterDataByStation] prints for an entry: one if its date
    does not parse. *)
Definition dateWarning (UTC : Z -> Z) (d : RawDataEntry) : list Diagnostic :=
  match JsDate.timeParse_dmY UTC (extraction_date d) with
  | None => [warn "Skipping entry with invalid date:" (LoggedString (extraction_date d))]
  | Some _ => []
  end.

(** A host time zone whose local times differ from the time value by a
    day at most. *)
Definition boundedOffset (UTC : Z -> Z) : Prop :=
  forall t : Z, (t - JsDate.msPerDay <= UTC t <= t + JsDate.msPerDay)%Z.

(** A written number: decimal digits, at least one and at most [width]. *)
Definition digitsUpTo (width : nat) (ds : list ascii) : Prop :=
  Forall (fun c => JsString.isDigit c = true) ds
  /\ (1 <= List.length ds <= width)%nat.

(** What follows a written number is not a digit. *)
Definition endsNumber (s : string) : Prop :=
  match s with
  | EmptyString => True
  | String c _ => JsString.isDigit c = false
  end.

(** A plant has an entry in the data. *)
Definition present (rawData : list RawDataEntry) (plant : string) : Prop :=
  exists d, In d rawData /\ measuring_point d = plant.

(** The three plants of the composite, in the order of the arguments. *)
Definition plants : list string :=
  [Main.Klaerwerk_Ruhleben; Main.Klaerwerk_Schoenerlinde; Main.Klaerwerk_Wassmannsdorf].

(** A sample the check of the data file accepts: each of its relevant
    results holds at least one copy number given as text, and each such
    text reads as a number. *)
Definition acceptable (sample : RawDataEntry) : Prop :=
  forall r, In r (relevantResults (results sample)) ->
    Validate.copyValues r <> []
    /\ Forall (fun v => number (Validate.parseNumber v)) (Validate.copyValues r).






(* ================================================================== *)
(** * Example data for the further properties *)

(** A sample of a plant with one reading. *)
Definition plantSample (plant day reading : string) : RawDataEntry :=
  {| measuring_point := plant;
     extraction_date := day;
     results := Some [ {| test_name := Some "SARS-CoV-2 N1";
                          parameter := Some [ copyNumber "copy_number_1" reading ] |} ] |}.

(** Data with the three plants and a sample without a date. *)
Definition threePlants : list RawDataEntry :=
  [ plantSample Main.Klaerwerk_Ruhleben "01.02.2022" "10";
    plantSample Main.Klaerwerk_Schoenerlinde "01.02.2022" "40";
    badDate;
    plantSample Main.Klaerwerk_Wassmannsdorf "08.02.2022" "20";
    plantSample Main.Klaerwerk_Ruhleben "08.02.2022" "20" ].

(** The same data without the third plant. *)
Definition twoPlants : list RawDataEntry :=
  [ plantSample Main.Klaerwerk_Ruhleben "01.02.2022" "10";
    plantSample Main.Klaerwerk_Schoenerlinde "01.02.2022" "40" ].




(** Universal time as local time. *)
Definition UTC_host (t : Z) : Z := t.

(* ================================================================== *)
(** * The models of the platform, checked on known results *)

Example parseFloat_examples :
  map JsNumber.parseFloat
      ["100.0"; " 0.1"; "1e23"; "-.5e1x"; "5."; "abc"; "1.7976931348623159e308";
       "2.4703282292062327e-324"; "2.4703282292062328e-324"; "Infinity"; "-0"; ".";
       "12e"; "9007199254740993"]
  = [100; 0.1; 1e23; -5; 5; nan; infinity; 0; 5e-324; infinity; neg_zero; nan; 12;
     9007199254740992]%float.
Proof. vm_compute. reflexivity. Qed.

Example Math_round_examples :
  map JsNumber.Math_round
      [0.5; -0.5; 2.5; -2.5; 1.4; -1.6; 0.49999999999999994; 4503599627370497;
       165.00000000000003; -0.2; neg_zero; 1e300; 3.5; nan; neg_infinity]%float
  = [1; neg_zero; 3; -2; 1; -2; 0; 4503599627370497; 165; neg_zero; neg_zero; 1e300; 4;
     nan; neg_infinity]%float.
Proof. vm_compute. reflexivity. Qed.

Example d3_examples :
  (d3.sum [1; nan; 2], d3.mean [1; nan; 2], d3.min [3; nan; 1; 2], d3.max [nan; 1; 3; 2],
   d3.mean [nan], d3.mean [infinity; neg_infinity])%float
  = (3, Some 1.5, Some 1, Some 3, None, Some nan)%float.
Proof. vm_compute. reflexivity. Qed.

Example toISOString_examples :
  map JsDate.toISOString
      [0; 1643673600000; -1; 253402300800000; -62167219200001; 951782400000;
       1709251199999; 8640000000000000; -8640000000000000]
  = ["1970-01-01T00:00:00.000Z"; "2022-02-01T00:00:00.000Z"; "1969-12-31T23:59:59.999Z";
     "+010000-01-01T00:00:00.000Z"; "-000001-12-31T23:59:59.999Z";
     "2000-02-29T00:00:00.000Z"; "2024-02-29T23:59:59.999Z";
     "+275760-09-13T00:00:00.000Z"; "-271821-04-20T00:00:00.000Z"].
Proof. vm_compute. reflexivity. Qed.

Example timeParse_examples :
  map (JsDate.timeParse_dmY UTC_plus1)
      ["01.02.2022"; "1.2.2022"; " 1.02.2022"; "01-02-2022"; "01.02.2022 "; "2022-02-01";
       "01.02.20222"; ""; "31.12.1969"]
  = [Some feb1; Some feb1; Some feb1; None; None; None; None; None; Some (-90000000)].
Proof. vm_compute. reflexivity. Qed.

(* ================================================================== *)
(** * The order of binary64 numbers *)

Section FloatOrder.

Local Open Scope float_scope.

Lemma SFcompare_refl a : a <> S754_nan -> SFcompare a a = Some Eq.
Proof.
  destruct a as [s|s| |s m e]; simpl; intros H; try congruence.
  - now destruct s.
  - rewrite Z.compare_refl.
    change (Pos.compare_cont Eq m m) with (Pos.compare m m).
    rewrite Pos.compare_refl. now destruct s.
Qed.

Lemma SFcompare_nan_l a b : a = S754_nan -> SFcompare a b = None.
Proof. intros ->. reflexivity. Qed.

Lemma SFcompare_None a b :
  SFcompare a b = None <-> a = S754_nan \/ b = S754_nan.
Proof.
  destruct a as [sa|sa| |sa ma ea], b as [sb|sb| |sb mb eb]; simpl;
    intuition (try discriminate; auto).
Qed.

Lemma SFcompare_swap a b :
  SFcompare b a = option_map CompOpp (SFcompare a b).
Proof.
  destruct a as [sa|sa| |sa ma ea], b as [sb|sb| |sb mb eb]; simpl; try reflexivity;
    try (destruct sa; reflexivity); try (destruct sb; reflexivity);
    try (destruct sa, sb; reflexivity).
  change (Pos.compare_cont Eq ma mb) with (Pos.compare ma mb).
  change (Pos.compare_cont Eq mb ma) with (Pos.compare mb ma).
  rewrite (Z.compare_antisym ea eb), (Pos.compare_antisym ma mb).
  destruct sa, sb; simpl; try reflexivity;
    destruct (Z.compare ea eb); simpl; try reflexivity;
    destruct (Pos.compare ma mb); reflexivity.
Qed.

Lemma SFcompare_Lt_trans a b c :
  SFcompare a b = Some Lt -> SFcompare b c = Some Lt -> SFcompare a c = Some Lt.
Proof.
  destruct a as [sa|sa| |sa ma ea], b as [sb|sb| |sb mb eb], c as [sc|sc| |sc mc ec];
    simpl; try discriminate;
    try (destruct sa, sb; simpl; congruence);
    try (destruct sb, sc; simpl; congruence);
    try (destruct sa, sc; simpl; congruence);
    try (destruct sa, sb, sc; simpl; congruence).
  change (Pos.compare_cont Eq ma mb) with (Pos.compare ma mb).
  change (Pos.compare_cont Eq mb mc) with (Pos.compare mb mc).
  change (Pos.compare_cont Eq ma mc) with (Pos.compare ma mc).
  destruct sa, sb, sc; simpl; try congruence;
    destruct (Z.compare_spec ea eb), (Z.compare_spec eb ec), (Z.compare_spec ea ec);
    destruct (Pos.compare_spec ma mb), (Pos.compare_spec mb mc), (Pos.compare_spec ma mc);
    simpl; try congruence; try lia.
Qed.

Lemma is_nan_spec x : is_nan x = true <-> Prim2SF x = S754_nan.
Proof.
  unfold is_nan. rewrite eqb_spec. unfold SFeqb.
  destruct (SFcompare (Prim2SF x) (Prim2SF x)) as [c|] eqn:E.
  - assert (Prim2SF x <> S754_nan) as H.
    { intros H. rewrite (SFcompare_nan_l _ _ H) in E. discriminate. }
    rewrite (SFcompare_refl _ H) in E. injection E as <-. simpl.
    split; [discriminate | intros; contradiction].
  - apply SFcompare_None in E. simpl. split; [tauto | reflexivity].
Qed.

Lemma is_nan_false x : is_nan x = false <-> Prim2SF x <> S754_nan.
Proof.
  rewrite <- is_nan_spec. destruct (is_nan x); split; congruence.
Qed.

(** [x >= x] fails for [NaN] only. *)
Lemma float_leb_refl x : (x <=? x) = negb (is_nan x).
Proof.
  destruct (is_nan x) eqn:E; rewrite leb_spec; unfold SFleb.
  - apply is_nan_spec in E. now rewrite (SFcompare_nan_l _ _ E).
  - apply is_nan_false in E. now rewrite (SFcompare_refl _ E).
Qed.

Lemma float_ltb_irrefl x : (x <? x) = false.
Proof.
  rewrite ltb_spec. unfold SFltb.
  destruct (SFcompare (Prim2SF x) (Prim2SF x)) as [c|] eqn:E; [|reflexivity].
  assert (Prim2SF x <> S754_nan) as H.
  { intros H. rewrite (SFcompare_nan_l _ _ H) in E. discriminate. }
  rewrite (SFcompare_refl _ H) in E. now injection E as <-.
Qed.

Lemma float_ltb_trans x y z : (x <? y) = true -> (y <? z) = true -> (x <? z) = true.
Proof.
  rewrite !ltb_spec. unfold SFltb.
  destruct (SFcompare (Prim2SF x) (Prim2SF y)) as [[]|] eqn:E1; try discriminate.
  destruct (SFcompare (Prim2SF y) (Prim2SF z)) as [[]|] eqn:E2; try discriminate.
  now rewrite (SFcompare_Lt_trans _ _ _ E1 E2).
Qed.

Lemma ltb_is_nan_l x y : (x <? y) = true -> is_nan x = false.
Proof.
  rewrite ltb_spec. unfold SFltb. intros H. apply is_nan_false. intros N.
  rewrite (SFcompare_nan_l _ _ N) in H. discriminate.
Qed.

Lemma ltb_is_nan_r x y : (x <? y) = true -> is_nan y = false.
Proof.
  rewrite ltb_spec. unfold SFltb. intros H. apply is_nan_false. intros N.
  assert (SFcompare (Prim2SF x) (Prim2SF y) = None) as E
      by (apply SFcompare_None; now right).
  rewrite E in H. discriminate.
Qed.

(** On numbers the order is total: what is not below is above or equal. *)
Lemma not_ltb_leb x y :
  is_nan x = false -> is_nan y = false -> (x <? y) = false -> (y <=? x) = true.
Proof.
  rewrite ltb_spec, leb_spec. unfold SFltb, SFleb. intros Hx Hy.
  apply is_nan_false in Hx. apply is_nan_false in Hy.
  rewrite (SFcompare_swap (Prim2SF x) (Prim2SF y)).
  destruct (SFcompare (Prim2SF x) (Prim2SF y)) as [[]|] eqn:E; simpl; try congruence.
  apply SFcompare_None in E. tauto.
Qed.

End FloatOrder.


(* ================================================================== *)
(** * d3's mean, minimum and maximum *)

Section D3Facts.

Local Open Scope float_scope.

Lemma mean_unfold l :
  d3.mean l = let '(count, sum) := fold_left meanStep l (0%Z, 0) in
              if (count =? 0)%Z then None else Some (sum / JsNumber.ofZ count).
Proof. reflexivity. Qed.

Lemma meanStep_numbers l : forall c s,
  Forall number l ->
  fold_left meanStep l (c, s) = ((c + Z.of_nat (List.length l))%Z, fold_left PrimFloat.add l s).
Proof.
  induction l as [|x l IH]; intros c s H; simpl.
  - f_equal. lia.
  - inversion H as [|? ? Hx Hl]; subst.
    rewrite float_leb_refl, Hx. simpl. rewrite IH by assumption. f_equal. lia.
Qed.

(** On a non-empty list of numbers [d3.mean] is the arithmetic mean. *)
Lemma mean_numbers l :
  Forall number l -> l <> [] -> d3.mean l = Some (arithmeticMean l).
Proof.
  intros H Hne. rewrite mean_unfold, meanStep_numbers by assumption.
  destruct l as [|x l]; [congruence|].
  replace (0 + Z.of_nat (List.length (x :: l)) =? 0)%Z with false
    by (symmetry; apply Z.eqb_neq; simpl List.length; lia).
  reflexivity.
Qed.

(** [d3.mean] skips what is not a number. *)
Lemma meanStep_skips l : forall acc,
  fold_left meanStep l acc = fold_left meanStep (numbers l) acc.
Proof.
  induction l as [|x l IH]; intros [c s]; [reflexivity|].
  cbn [fold_left numbers filter]. destruct (is_nan x) eqn:N; cbn [negb].
  - unfold meanStep at 2. rewrite float_leb_refl, N. apply IH.
  - cbn [fold_left]. apply IH.
Qed.

Lemma numbers_number l : Forall number (numbers l).
Proof.
  apply Forall_forall. intros x Hx. apply filter_In in Hx.
  destruct Hx as [_ Hx]. unfold number. now destruct (is_nan x).
Qed.

Lemma numbers_all l : Forall number l -> numbers l = l.
Proof.
  induction 1 as [|x l Hx _ IH]; [reflexivity|].
  cbn [numbers filter]. unfold number in Hx. rewrite Hx. cbn [negb].
  f_equal. exact IH.
Qed.

Lemma numbers_In l x : In x (numbers l) <-> In x l /\ number x.
Proof.
  unfold numbers, number. rewrite filter_In.
  destruct (is_nan x); cbn [negb]; intuition congruence.
Qed.

(** On a list that holds a number [d3.mean] is the arithmetic mean of
    its numbers. *)
Lemma mean_of_numbers l :
  numbers l <> [] -> d3.mean l = Some (arithmeticMean (numbers l)).
Proof.
  intros H. rewrite <- (mean_numbers (numbers l) (numbers_number l) H).
  rewrite !mean_unfold, meanStep_skips. reflexivity.
Qed.

Lemma meanStep_count l : forall c s,
  (c <= fst (fold_left meanStep l (c, s)))%Z.
Proof.
  induction l as [|x l IH]; intros c s; simpl; [lia|].
  destruct (x <=? x).
  - specialize (IH (c + 1)%Z (s + x)). lia.
  - apply IH.
Qed.

(** [d3.mean] finds a mean as soon as one element is a number. *)
Lemma mean_Some l x : In x l -> number x -> exists m, d3.mean l = Some m.
Proof.
  intros Hin Hx. rewrite mean_unfold.
  assert (forall c s, (0 <= c)%Z -> (0 < fst (fold_left meanStep l (c, s)))%Z) as H.
  { clear -Hin Hx. induction l as [|y l IH]; intros c s Hc; [contradiction|].
    simpl. destruct Hin as [->|Hin].
    - rewrite float_leb_refl, Hx. simpl.
      pose proof (meanStep_count l (c + 1)%Z (s + x)). lia.
    - destruct (y <=? y); apply IH; auto; lia. }
  specialize (H 0%Z 0 (Z.le_refl 0)).
  destruct (fold_left meanStep l (0%Z, 0)) as [c s]. simpl in H.
  replace (c =? 0)%Z with false by (symmetry; apply Z.eqb_neq; lia).
  eauto.
Qed.

Lemma ltb_nan_r x y : is_nan y = true -> (x <? y) = false.
Proof.
  intros H. destruct (x <? y) eqn:E; [|reflexivity].
  apply ltb_is_nan_r in E. congruence.
Qed.

Lemma ltb_nan_l x y : is_nan x = true -> (x <? y) = false.
Proof.
  intros H. destruct (x <? y) eqn:E; [|reflexivity].
  apply ltb_is_nan_l in E. congruence.
Qed.

Lemma maxStep_invariant seen acc x :
  maxInvariant seen acc -> maxInvariant (seen ++ [x]) (maxStep acc x).
Proof.
  unfold maxInvariant, maxStep. destruct acc as [m|].
  - intros (Hin & Hm & Hall). destruct (m <? x) eqn:E.
    + split; [apply in_or_app; right; now left|].
      split; [exact (ltb_is_nan_r _ _ E)|].
      intros y Hy. apply in_app_or in Hy. destruct Hy as [Hy|[<-|[]]].
      * destruct (x <? y) eqn:E'; [|reflexivity].
        pose proof (Hall y Hy) as C. rewrite (float_ltb_trans _ _ _ E E') in C. discriminate C.
      * apply float_ltb_irrefl.
    + split; [apply in_or_app; now left|]. split; [assumption|].
      intros y Hy. apply in_app_or in Hy. destruct Hy as [Hy|[<-|[]]]; auto.
  - intros Hall. rewrite float_leb_refl. destruct (is_nan x) eqn:E; simpl.
    + intros y Hy. apply in_app_or in Hy. destruct Hy as [Hy|[<-|[]]]; auto.
    + split; [apply in_or_app; right; now left|]. split; [exact E|].
      intros y Hy. apply in_app_or in Hy. destruct Hy as [Hy|[<-|[]]].
      * apply ltb_nan_r. auto.
      * apply float_ltb_irrefl.
Qed.

Lemma minStep_invariant seen acc x :
  minInvariant seen acc -> minInvariant (seen ++ [x]) (minStep acc x).
Proof.
  unfold minInvariant, minStep. destruct acc as [m|].
  - intros (Hin & Hm & Hall). destruct (x <? m) eqn:E.
    + split; [apply in_or_app; right; now left|].
      split; [exact (ltb_is_nan_l _ _ E)|].
      intros y Hy. apply in_app_or in Hy. destruct Hy as [Hy|[<-|[]]].
      * destruct (y <? x) eqn:E'; [|reflexivity].
        pose proof (Hall y Hy) as C. rewrite (float_ltb_trans _ _ _ E' E) in C. discriminate C.
      * apply float_ltb_irrefl.
    + split; [apply in_or_app; now left|]. split; [assumption|].
      intros y Hy. apply in_app_or in Hy. destruct Hy as [Hy|[<-|[]]]; auto.
  - intros Hall. rewrite float_leb_refl. destruct (is_nan x) eqn:E; simpl.
    + intros y Hy. apply in_app_or in Hy. destruct Hy as [Hy|[<-|[]]]; auto.
    + split; [apply in_or_app; right; now left|]. split; [exact E|].
      intros y Hy. apply in_app_or in Hy. destruct Hy as [Hy|[<-|[]]].
      * apply ltb_nan_l. auto.
      * apply float_ltb_irrefl.
Qed.

Lemma max_invariant l : maxInvariant l (d3.max l).
Proof.
  induction l as [|x l IH] using rev_ind.
  - intros x [].
  - unfold d3.max. rewrite fold_left_app. simpl.
    apply (maxStep_invariant l _ x IH).
Qed.

Lemma min_invariant l : minInvariant l (d3.min l).
Proof.
  induction l as [|x l IH] using rev_ind.
  - intros x [].
  - unfold d3.min. rewrite fold_left_app. simpl.
    apply (minStep_invariant l _ x IH).
Qed.

(** What [d3.max] returns is a maximum of the list. *)
Lemma max_Some l m : d3.max l = Some m -> isMaximum m l.
Proof.
  intros E. pose proof (max_invariant l) as H. rewrite E in H.
  destruct H as (Hin & Hm & Hall). repeat split; auto.
  intros x Hx Nx. apply not_ltb_leb; auto.
Qed.

Lemma min_Some l m : d3.min l = Some m -> isMinimum m l.
Proof.
  intros E. pose proof (min_invariant l) as H. rewrite E in H.
  destruct H as (Hin & Hm & Hall). repeat split; auto.
  intros x Hx Nx. apply not_ltb_leb; auto.
Qed.

(** It returns [undefined] only when the list holds no number. *)
Lemma max_None l : d3.max l = None -> forall x, In x l -> is_nan x = true.
Proof. intros E. pose proof (max_invariant l) as H. now rewrite E in H. Qed.

Lemma min_None l : d3.min l = None -> forall x, In x l -> is_nan x = true.
Proof. intros E. pose proof (min_invariant l) as H. now rewrite E in H. Qed.

Lemma max_numbers l :
  Forall number l -> l <> [] -> exists m, d3.max l = Some m /\ isMaximum m l.
Proof.
  intros H Hne. destruct (d3.max l) as [m|] eqn:E.
  - exists m. split; [reflexivity | now apply max_Some].
  - destruct l as [|x l]; [congruence|].
    pose proof (max_None _ E x (or_introl eq_refl)) as N.
    inversion H; subst. unfold number in *. congruence.
Qed.

Lemma min_numbers l :
  Forall number l -> l <> [] -> exists m, d3.min l = Some m /\ isMinimum m l.
Proof.
  intros H Hne. destruct (d3.min l) as [m|] eqn:E.
  - exists m. split; [reflexivity | now apply min_Some].
  - destruct l as [|x l]; [congruence|].
    pose proof (min_None _ E x (or_introl eq_refl)) as N.
    inversion H; subst. unfold number in *. congruence.
Qed.

(** A list that holds a number has a maximum and a minimum, and d3 finds
    them. *)
Lemma max_of_numbers l :
  numbers l <> [] -> exists m, d3.max l = Some m /\ isMaximum m l.
Proof.
  intros H. destruct (d3.max l) as [m|] eqn:E.
  - exists m. split; [reflexivity | now apply max_Some].
  - exfalso. apply H. destruct (numbers l) as [|x xs] eqn:N; [reflexivity|].
    assert (In x (numbers l)) as Hx by (rewrite N; now left).
    apply numbers_In in Hx. destruct Hx as [Hx Nx].
    pose proof (max_None _ E x Hx). unfold number in Nx. congruence.
Qed.

Lemma min_of_numbers l :
  numbers l <> [] -> exists m, d3.min l = Some m /\ isMinimum m l.
Proof.
  intros H. destruct (d3.min l) as [m|] eqn:E.
  - exists m. split; [reflexivity | now apply min_Some].
  - exfalso. apply H. destruct (numbers l) as [|x xs] eqn:N; [reflexivity|].
    assert (In x (numbers l)) as Hx by (rewrite N; now left).
    apply numbers_In in Hx. destruct Hx as [Hx Nx].
    pose proof (min_None _ E x Hx). unfold number in Nx. congruence.
Qed.

End D3Facts.


(* ================================================================== *)
(** * Names, values and the structure of the aggregation *)

Section Strings.


Lemma includes_unfold s needle :
  JsString.includes s needle =
  if String.prefix needle s then true
  else match s with
       | EmptyString => false
       | String _ s' => JsString.includes s' needle
       end.
Proof. destruct s; reflexivity. Qed.



End Strings.

Section Aggregation.

Lemma pushParameter_app acc p : pushParameter acc p = acc ++ pushParameter [] p.
Proof.
  unfold pushParameter. destruct p as [p|]; [|now rewrite app_nil_r].
  destruct (param_name p); [|now rewrite app_nil_r].
  destruct (negb _); [now rewrite app_nil_r|].
  destruct (param_result p); try (now rewrite app_nil_r);
    destruct (negb _); try (now rewrite app_nil_r); reflexivity.
Qed.

Lemma fold_pushParameter ps : forall acc,
  fold_left pushParameter ps acc = acc ++ flat_map (pushParameter []) ps.
Proof.
  induction ps as [|p ps IH]; intros acc; simpl.
  - now rewrite app_nil_r.
  - rewrite IH, (pushParameter_app acc p), <- app_assoc. reflexivity.
Qed.

Lemma pushParameter_numbers p : Forall number (pushParameter [] p).
Proof.
  unfold pushParameter. destruct p as [p|]; [|constructor].
  destruct (param_name p); [|constructor].
  destruct (negb _); [constructor|].
  destruct (param_result p); try constructor.
  - destruct (JsNumber.isNaN _) eqn:E; simpl; constructor; [exact E | constructor].
  - destruct (JsNumber.isNaN _) eqn:E; simpl; constructor; [exact E | constructor].
Qed.

(** Every value kept for a result is a number. *)
Lemma resultValues_numbers r : Forall number (resultValues r).
Proof.
  unfold resultValues. rewrite fold_pushParameter. simpl.
  induction (match parameter r with Some ps => ps | None => [] end) as [|p ps IH];
    simpl; [constructor|].
  apply Forall_app. split; [apply pushParameter_numbers | exact IH].
Qed.

Lemma pushResult_app acc r : pushResult acc r = acc ++ pushResult [] r.
Proof.
  unfold pushResult. destruct (resultValues r); [now rewrite app_nil_r|].
  destruct (d3.mean _); [reflexivity | now rewrite app_nil_r].
Qed.

Lemma fold_pushResult rs : forall acc,
  fold_left pushResult rs acc = acc ++ flat_map contribution rs.
Proof.
  unfold contribution.
  induction rs as [|r rs IH]; intros acc; simpl.
  - now rewrite app_nil_r.
  - rewrite IH, (pushResult_app acc r), <- app_assoc. reflexivity.
Qed.

(** A result with valid values adds their arithmetic mean, and one
    without adds nothing. *)
Lemma contribution_spec r :
  contribution r = match resultValues r with
                   | [] => []
                   | vs => [arithmeticMean vs]
                   end.
Proof.
  unfold contribution, pushResult.
  pose proof (resultValues_numbers r) as H.
  destruct (resultValues r) as [|v vs] eqn:E; [reflexivity|].
  rewrite mean_numbers by (auto; discriminate). reflexivity.
Qed.

(** The values the loop over the parameters collects are the valid
    values of the specification. *)
Lemma pushParameter_validValue p :
  pushParameter [] p = match validValue p with Some v => [v] | None => [] end.
Proof.
  destruct p as [[[n|] res]|]; try reflexivity.
  unfold pushParameter, validValue. cbn [param_name param_result].
  destruct (JsString.startsWith n "copy_number_"); [|reflexivity]. cbn [negb].
  unfold JsNumber.isNaN.
  destruct res as [t|x|]; cbn [readResult]; try reflexivity;
    match goal with |- context [PrimFloat.is_nan ?v] => destruct (PrimFloat.is_nan v) end;
    reflexivity.
Qed.

Lemma resultValues_validValues r : resultValues r = validValues r.
Proof.
  unfold resultValues, validValues. rewrite fold_pushParameter. simpl.
  induction (match parameter r with Some ps => ps | None => [] end) as [|p ps IH];
    [reflexivity|].
  simpl. rewrite pushParameter_validValue, IH. now destruct (validValue p).
Qed.



Lemma mapLogged_app {A B} (f : A -> B * list Diagnostic) xs ys :
  mapLogged f (xs ++ ys) =
  (fst (mapLogged f xs) ++ fst (mapLogged f ys),
   snd (mapLogged f xs) ++ snd (mapLogged f ys)).
Proof.
  induction xs as [|x xs IH]; simpl.
  - now destruct (mapLogged f ys).
  - destruct (f x) as [y w]. rewrite IH.
    destruct (mapLogged f xs), (mapLogged f ys). simpl.
    now rewrite app_assoc.
Qed.

Lemma nonNull_app {A} (xs ys : list (option A)) :
  nonNull (xs ++ ys) = nonNull xs ++ nonNull ys.
Proof.
  induction xs as [|[a|] xs IH]; simpl; auto. now rewrite IH.
Qed.

Lemma parsedData_app UTC xs ys :
  parsedData UTC (xs ++ ys) =
  (fst (parsedData UTC xs) ++ fst (parsedData UTC ys),
   snd (parsedData UTC xs) ++ snd (parsedData UTC ys)).
Proof.
  unfold parsedData. rewrite mapLogged_app.
  destruct (mapLogged (normalizeDate UTC) xs), (mapLogged (normalizeDate UTC) ys).
  simpl. now rewrite nonNull_app.
Qed.

Lemma filterDataByStation_logged_app UTC xs ys station :
  filterDataByStation_logged UTC (xs ++ ys) station =
  (fst (filterDataByStation_logged UTC xs station)
     ++ fst (filterDataByStation_logged UTC ys station),
   snd (filterDataByStation_logged UTC xs station)
     ++ snd (filterDataByStation_logged UTC ys station)).
Proof.
  unfold filterDataByStation_logged. rewrite parsedData_app.
  destruct (parsedData UTC xs), (parsedData UTC ys). simpl.
  now rewrite filter_app, map_app, nonNull_app.
Qed.

Lemma filterDataByStation_app UTC xs ys station :
  filterDataByStation UTC (xs ++ ys) station =
  filterDataByStation UTC xs station ++ filterDataByStation UTC ys station.
Proof.
  unfold filterDataByStation. now rewrite filterDataByStation_logged_app.
Qed.

(** What the function does with a single sample. *)
Lemma filterDataByStation_logged_one UTC s station :
  filterDataByStation_logged UTC [s] station =
  match JsDate.timeParse_dmY UTC (extraction_date s) with
  | None => ([], [warn "Skipping entry with invalid date:" (LoggedString (extraction_date s))])
  | Some d =>
      (if String.eqb (measuring_point s) station
       then match testMeans (results s) with
            | [] => []
            | means => [pointOf d means]
            end
       else [], [])
  end.
Proof.
  unfold filterDataByStation_logged, parsedData. simpl. unfold normalizeDate.
  destruct (JsDate.timeParse_dmY UTC (extraction_date s)) as [d|]; simpl; [|reflexivity].
  destruct (String.eqb (measuring_point s) station); simpl; [|reflexivity].
  unfold keepMapped, aggregate. simpl.
  destruct (testMeans (results s)); reflexivity.
Qed.

Lemma filterDataByStation_one UTC s station :
  filterDataByStation UTC [s] station =
  match JsDate.timeParse_dmY UTC (extraction_date s) with
  | None => []
  | Some d =>
      if String.eqb (measuring_point s) station
      then match testMeans (results s) with
           | [] => []
           | means => [pointOf d means]
           end
      else []
  end.
Proof.
  unfold filterDataByStation. rewrite filterDataByStation_logged_one.
  destruct (JsDate.timeParse_dmY UTC (extraction_date s)); reflexivity.
Qed.

Lemma filterDataByStation_cons UTC s rest station :
  filterDataByStation UTC (s :: rest) station =
  filterDataByStation UTC [s] station ++ filterDataByStation UTC rest station.
Proof. exact (filterDataByStation_app UTC [s] rest station). Qed.

Lemma filterDataByStation_split UTC before s after station :
  filterDataByStation UTC (before ++ s :: after) station =
  filterDataByStation UTC before station
    ++ filterDataByStation UTC [s] station
    ++ filterDataByStation UTC after station.
Proof.
  now rewrite filterDataByStation_app, filterDataByStation_cons.
Qed.

(** Every emitted point comes from a sample of the station whose date
    parsed and whose test-level means are not empty. *)
Lemma filterDataByStation_origin UTC raw station p :
  In p (filterDataByStation UTC raw station) ->
  exists s, In s raw /\ measuring_point s = station
            /\ JsDate.timeParse_dmY UTC (extraction_date s) = Some (date p)
            /\ testMeans (results s) <> []
            /\ p = pointOf (date p) (testMeans (results s)).
Proof.
  induction raw as [|s raw IH]; [intros []|].
  rewrite filterDataByStation_cons, in_app_iff. intros [H|H].
  - rewrite filterDataByStation_one in H.
    destruct (JsDate.timeParse_dmY UTC (extraction_date s)) as [d|] eqn:E; [|destruct H].
    destruct (String.eqb (measuring_point s) station) eqn:Es; [|destruct H].
    apply String.eqb_eq in Es.
    destruct (testMeans (results s)) as [|m ms] eqn:Em; [destruct H|].
    destruct H as [<-|[]]. exists s. simpl.
    split; [now left|]. split; [exact Es|]. split; [exact E|].
    rewrite Em. split; [discriminate | reflexivity].
  - destruct (IH H) as (s' & Hin & Hs). exists s'. split; [now right | exact Hs].
Qed.

End Aggregation.


(* ================================================================== *)
(** * The calendar *)

Module CalendarFacts.
Import JsDate.
Local Open Scope Z_scope.

Ltac zdiv := Z.to_euclidean_division_equations; lia.

Lemma q4 y : (y + 1 - 1969) / 4 = (y - 1969) / 4 + (if y mod 4 =? 0 then 1 else 0).
Proof. destruct (Z.eqb_spec (y mod 4) 0); zdiv. Qed.

Lemma q100 y :
  (y + 1 - 1901) / 100 = (y - 1901) / 100 + (if y mod 100 =? 0 then 1 else 0).
Proof. destruct (Z.eqb_spec (y mod 100) 0); zdiv. Qed.

Lemma q400 y :
  (y + 1 - 1601) / 400 = (y - 1601) / 400 + (if y mod 400 =? 0 then 1 else 0).
Proof. destruct (Z.eqb_spec (y mod 400) 0); zdiv. Qed.

Lemma mod100_mod4 y : y mod 100 = 0 -> y mod 4 = 0.
Proof. zdiv. Qed.

Lemma mod400_mod100 y : y mod 400 = 0 -> y mod 100 = 0.
Proof. zdiv. Qed.

(** A year has 365 days, or 366 when it is a leap year. *)
Lemma DayFromYear_succ y :
  DayFromYear (y + 1) = DayFromYear y + 365 + (if InLeapYear y then 1 else 0).
Proof.
  unfold DayFromYear, InLeapYear. rewrite q4, q100, q400.
  destruct (Z.eqb_spec (y mod 4) 0);
    destruct (Z.eqb_spec (y mod 100) 0);
    destruct (Z.eqb_spec (y mod 400) 0); cbn [andb orb negb];
    pose proof (mod100_mod4 y); pose proof (mod400_mod100 y); lia.
Qed.

Lemma DayFromYear_mono y1 y2 : y1 <= y2 -> DayFromYear y1 <= DayFromYear y2.
Proof. unfold DayFromYear. zdiv. Qed.

(** [YearFromDay] finds the year that holds the day. *)
Lemma YearFromDay_spec day :
  DayFromYear (YearFromDay day) <= day < DayFromYear (YearFromDay day + 1).
Proof.
  unfold YearFromDay.
  set (y0 := 1970 + day * 400 / 146097).
  assert (DayFromYear (y0 - 1) <= day < DayFromYear (y0 + 2)) as H
      by (unfold DayFromYear, y0; zdiv).
  destruct (Z.ltb_spec day (DayFromYear y0)).
  - replace (y0 - 1 + 1) with y0 by lia. lia.
  - destruct (Z.leb_spec (DayFromYear (y0 + 1)) day).
    + replace (y0 + 1 + 1) with (y0 + 2) by lia. lia.
    + lia.
Qed.

Lemma YearFromDay_unique day y :
  DayFromYear y <= day < DayFromYear (y + 1) -> YearFromDay day = y.
Proof.
  intros H. pose proof (YearFromDay_spec day) as S.
  destruct (Z.lt_trichotomy (YearFromDay day) y) as [L|[E|L]]; [|exact E|].
  - pose proof (DayFromYear_mono (YearFromDay day + 1) y). lia.
  - pose proof (DayFromYear_mono (y + 1) (YearFromDay day)). lia.
Qed.

Lemma DayWithinYear_range t :
  0 <= DayWithinYear t < 365 + leapDay (InLeapYear (YearFromTime t)).
Proof.
  unfold DayWithinYear, YearFromTime, leapDay.
  pose proof (YearFromDay_spec (Day t)) as S.
  rewrite DayFromYear_succ in S. lia.
Qed.

Lemma monthStart_mono leap a b :
  0 <= a -> a <= b -> b <= 12 -> monthStart leap a <= monthStart leap b.
Proof.
  intros Ha Hab Hb.
  assert (a = 0 \/ a = 1 \/ a = 2 \/ a = 3 \/ a = 4 \/ a = 5 \/ a = 6 \/ a = 7
          \/ a = 8 \/ a = 9 \/ a = 10 \/ a = 11 \/ a = 12) as Ca by lia.
  assert (b = 0 \/ b = 1 \/ b = 2 \/ b = 3 \/ b = 4 \/ b = 5 \/ b = 6 \/ b = 7
          \/ b = 8 \/ b = 9 \/ b = 10 \/ b = 11 \/ b = 12) as Cb by lia.
  destruct leap; cbv [monthStart];
    repeat (destruct Ca as [->|Ca]); try subst a;
    repeat (destruct Cb as [->|Cb]); try subst b; lia.
Qed.

(** The month found holds the day. *)
Lemma MonthFromDayInYear_spec leap d :
  0 <= d < 365 + leapDay leap ->
  let m := MonthFromDayInYear leap d in
  0 <= m <= 11 /\ monthStart leap m <= d < monthStart leap (m + 1).
Proof.
  intros H. unfold MonthFromDayInYear.
  destruct leap; cbv [monthStart leapDay] in *;
    repeat match goal with
           | |- context [?a <? ?b] => destruct (Z.ltb_spec a b)
           end; cbv zeta; cbn [Z.add Pos.add Pos.succ Pos.add_carry]; lia.
Qed.

Lemma daysInMonth_range y m : 0 <= m <= 11 -> 28 <= daysInMonth y m <= 31.
Proof.
  intros H. unfold daysInMonth.
  assert (m = 0 \/ m = 1 \/ m = 2 \/ m = 3 \/ m = 4 \/ m = 5 \/ m = 6 \/ m = 7
          \/ m = 8 \/ m = 9 \/ m = 10 \/ m = 11) as C by lia.
  destruct (InLeapYear y); repeat (destruct C as [->|C]); try subst m;
    cbv [monthStart]; cbn [Z.add Pos.add Pos.succ Pos.add_carry]; lia.
Qed.

Lemma MonthFromTime_range t : 0 <= MonthFromTime t <= 11.
Proof.
  unfold MonthFromTime.
  apply (MonthFromDayInYear_spec _ _ (DayWithinYear_range t)).
Qed.

Lemma DateFromTime_range t :
  1 <= DateFromTime t <= daysInMonth (YearFromTime t) (MonthFromTime t).
Proof.
  unfold DateFromTime, daysInMonth, MonthFromTime.
  pose proof (MonthFromDayInYear_spec _ _ (DayWithinYear_range t)) as [_ H].
  cbv zeta in H. lia.
Qed.

(** [MakeDay] gives back the day of a time value from its year, month
    and date. *)
Lemma MakeDay_fields t :
  MakeDay (YearFromTime t) (MonthFromTime t) (DateFromTime t) = Day t.
Proof.
  pose proof (MonthFromTime_range t) as Hm.
  unfold MakeDay.
  replace (MonthFromTime t / 12) with 0 by zdiv.
  replace (MonthFromTime t mod 12) with (MonthFromTime t) by zdiv.
  rewrite Z.add_0_r. unfold DateFromTime, DayWithinYear. lia.
Qed.

Lemma TimeWithinDay_range t : 0 <= TimeWithinDay t < 86400000.
Proof. unfold TimeWithinDay, msPerDay. zdiv. Qed.

Lemma MakeTime_fields tw :
  0 <= tw < 86400000 ->
  MakeTime (tw / 3600000) (tw / 60000 mod 60) (tw / 1000 mod 60) (tw mod 1000) = tw.
Proof. intros H. unfold MakeTime. zdiv. Qed.

Lemma MakeDate_fields t : MakeDate (Day t) (TimeWithinDay t) = t.
Proof. unfold MakeDate, Day, TimeWithinDay, msPerDay. zdiv. Qed.

End CalendarFacts.


(* ================================================================== *)
(** * Printing and reading digits *)

Module IsoFacts.
Import JsDate CalendarFacts.
Local Open Scope Z_scope.

Ltac digit_cases k :=
  let C := fresh "C" in
  assert (k = 0 \/ k = 1 \/ k = 2 \/ k = 3 \/ k = 4 \/ k = 5 \/ k = 6 \/ k = 7
          \/ k = 8 \/ k = 9) as C by lia;
  repeat (destruct C as [->|C]); try subst k.

Lemma isDigit_digitChar k : 0 <= k <= 9 -> JsString.isDigit (digitChar k) = true.
Proof. intros H. digit_cases k; reflexivity. Qed.

Lemma digitValue_digitChar k : 0 <= k <= 9 -> JsString.digitValue (digitChar k) = k.
Proof. intros H. digit_cases k; reflexivity. Qed.

Lemma compare_digitChar a b :
  0 <= a <= 9 -> 0 <= b <= 9 -> Ascii.compare (digitChar a) (digitChar b) = (a ?= b).
Proof. intros Ha Hb. digit_cases a; digit_cases b; reflexivity. Qed.

Lemma digit_range n w : 0 <= (n / 10 ^ Z.of_nat w) mod 10 <= 9.
Proof. pose proof (Z.mod_pos_bound (n / 10 ^ Z.of_nat w) 10). lia. Qed.

Lemma pow10_pos w : 0 < 10 ^ Z.of_nat w.
Proof. apply Z.pow_pos_nonneg; lia. Qed.

Lemma mod_pow10_succ n w :
  n mod 10 ^ Z.of_nat (S w) =
  n mod 10 ^ Z.of_nat w + 10 ^ Z.of_nat w * ((n / 10 ^ Z.of_nat w) mod 10).
Proof.
  rewrite Nat2Z.inj_succ, Z.pow_succ_r by lia.
  rewrite (Z.mul_comm 10). apply Z.rem_mul_r; [pose proof (pow10_pos w)|]; lia.
Qed.

(** Reading back what [pad] printed. *)
Lemma fixedDigits_pad w : forall n acc rest,
  fixedDigits w acc (pad w n ++ rest)%string
  = Some (acc * 10 ^ Z.of_nat w + n mod 10 ^ Z.of_nat w, rest).
Proof.
  induction w as [|w IH]; intros n acc rest.
  - simpl. rewrite Z.mod_1_r. do 2 f_equal. lia.
  - cbn [pad append fixedDigits].
    rewrite isDigit_digitChar, digitValue_digitChar by apply digit_range.
    rewrite IH, mod_pow10_succ.
    rewrite Nat2Z.inj_succ, Z.pow_succ_r by lia. do 2 f_equal. ring.
Qed.

Lemma compare_high_low p a b c d :
  0 <= a < p -> 0 <= b < p ->
  (a + p * c ?= b + p * d) = lexOrder (c ?= d) (a ?= b).
Proof.
  intros Ha Hb.
  destruct (Z.compare_spec c d) as [E|L|G]; cbn [lexOrder].
  - subst d. destruct (Z.compare_spec a b) as [E|L|G].
    + subst b. apply Z.compare_refl.
    + apply Z.compare_lt_iff. lia.
    + apply Z.compare_gt_iff. lia.
  - apply Z.compare_lt_iff. nia.
  - apply Z.compare_gt_iff. nia.
Qed.

Lemma lexOrder_assoc c1 c2 c3 : lexOrder (lexOrder c1 c2) c3 = lexOrder c1 (lexOrder c2 c3).
Proof. now destruct c1. Qed.

(** Equal widths compare as the numbers printed. *)
Lemma compare_pad w : forall n m x y,
  String.compare (pad w n ++ x) (pad w m ++ y)
  = lexOrder (n mod 10 ^ Z.of_nat w ?= m mod 10 ^ Z.of_nat w) (String.compare x y).
Proof.
  induction w as [|w IH]; intros n m x y.
  - simpl. now rewrite !Z.mod_1_r.
  - cbn [pad append String.compare].
    rewrite compare_digitChar by apply digit_range.
    rewrite IH, !mod_pow10_succ.
    pose proof (pow10_pos w) as P.
    rewrite compare_high_low by (apply Z.mod_pos_bound; exact P).
    rewrite lexOrder_assoc.
    now destruct ((n / 10 ^ Z.of_nat w) mod 10 ?= (m / 10 ^ Z.of_nat w) mod 10).
Qed.

End IsoFacts.


(* ================================================================== *)
(** * [toISOString] read back *)

Module IsoTheory.
Import JsDate CalendarFacts IsoFacts.
Local Open Scope Z_scope.

Lemma fixedDigits_pad_small w n rest :
  0 <= n < 10 ^ Z.of_nat w ->
  fixedDigits w 0 (pad w n ++ rest)%string = Some (n, rest).
Proof.
  intros H. rewrite fixedDigits_pad, Z.mod_small by assumption. reflexivity.
Qed.

Lemma expect_head c s : expect c (String c s) = Some s.
Proof. unfold expect. now rewrite Ascii.eqb_refl. Qed.

Lemma isoYear_digit k s :
  0 <= k <= 9 ->
  isoYear (String (digitChar k) s) = fixedDigits 4 0 (String (digitChar k) s).
Proof. intros H. digit_cases k; reflexivity. Qed.

(** The year is read back as printed. *)
Lemma isoYear_yearString y rest :
  -999999 <= y <= 999999 ->
  isoYear (yearString y ++ rest)%string = Some (y, rest).
Proof.
  intros H. unfold yearString.
  destruct (Z.leb_spec 0 y); cbn [andb].
  - destruct (Z.leb_spec y 9999).
    + change (pad 4 y) with (String (digitChar ((y / 10 ^ Z.of_nat 3) mod 10)) (pad 3 y)).
      cbn [append]. rewrite isoYear_digit by apply digit_range.
      change (String (digitChar ((y / 10 ^ Z.of_nat 3) mod 10)) (pad 3 y ++ rest)%string)
        with (pad 4 y ++ rest)%string.
      apply fixedDigits_pad_small. change (10 ^ Z.of_nat 4) with 10000. lia.
    + destruct (Z.ltb_spec y 0); [lia|].
      cbn [append isoYear]. apply fixedDigits_pad_small.
      change (10 ^ Z.of_nat 6) with 1000000. lia.
  - destruct (Z.ltb_spec y 0); [|lia].
    cbn [append isoYear]. rewrite fixedDigits_pad_small
      by (change (10 ^ Z.of_nat 6) with 1000000; lia).
    cbn [bind]. destruct (Z.eqb_spec (- y) 0); [lia|].
    now rewrite Z.opp_involutive.
Qed.

Lemma DayFromYear_low : DayFromYear (-271821) = -100000109.
Proof. reflexivity. Qed.

Lemma DayFromYear_high : DayFromYear 275761 = 100000110.
Proof. reflexivity. Qed.

Lemma DayFromYear_0 : DayFromYear 0 = -719528.
Proof. reflexivity. Qed.

Lemma DayFromYear_10000 : DayFromYear 10000 = 2932897.
Proof. reflexivity. Qed.

Lemma YearFromTime_valid t :
  validTime t -> -271821 <= YearFromTime t <= 275760.
Proof.
  unfold validTime, YearFromTime. intros H.
  pose proof (YearFromDay_spec (Day t)) as S.
  assert (-100000000 <= Day t <= 100000000) as D by (unfold Day, msPerDay; zdiv).
  pose proof DayFromYear_low. pose proof DayFromYear_high.
  split.
  - destruct (Z.le_gt_cases (-271821) (YearFromDay (Day t))) as [L|L]; [exact L|].
    pose proof (DayFromYear_mono (YearFromDay (Day t) + 1) (-271821)). lia.
  - destruct (Z.le_gt_cases (YearFromDay (Day t)) 275760) as [L|L]; [exact L|].
    pose proof (DayFromYear_mono 275761 (YearFromDay (Day t))). lia.
Qed.

Lemma YearFromTime_fourDigit t :
  fourDigitYear t -> 0 <= YearFromTime t <= 9999.
Proof.
  unfold fourDigitYear, YearFromTime. intros H.
  pose proof (YearFromDay_spec (Day t)) as S.
  assert (-719528 <= Day t < 2932897) as D by (unfold Day, msPerDay; zdiv).
  pose proof DayFromYear_0. pose proof DayFromYear_10000.
  split.
  - destruct (Z.le_gt_cases 0 (YearFromDay (Day t))) as [L|L]; [exact L|].
    pose proof (DayFromYear_mono (YearFromDay (Day t) + 1) 0). lia.
  - destruct (Z.le_gt_cases (YearFromDay (Day t)) 9999) as [L|L]; [exact L|].
    pose proof (DayFromYear_mono 10000 (YearFromDay (Day t))). lia.
Qed.

Lemma fourDigitYear_valid t : fourDigitYear t -> validTime t.
Proof. unfold fourDigitYear, validTime. lia. Qed.

Lemma leb_true a b : a <= b -> (a <=? b) = true.
Proof. apply Z.leb_le. Qed.

Lemma ltb_true a b : a < b -> (a <? b) = true.
Proof. apply Z.ltb_lt. Qed.

(** [new Date(d.toISOString())] is [d] again. *)
Theorem ofISOString_toISOString t :
  validTime t -> ofISOString (toISOString t) = Some t.
Proof.
  intros V. unfold toISOString, ofISOString.
  pose proof (YearFromTime_valid t V) as HY.
  pose proof (MonthFromTime_range t) as HM.
  pose proof (DateFromTime_range t) as HD.
  pose proof (daysInMonth_range (YearFromTime t) (MonthFromTime t) HM) as HDM.
  pose proof (TimeWithinDay_range t) as HT.
  set (tw := TimeWithinDay t) in *.
  rewrite isoYear_yearString by lia. cbn [bind append].
  rewrite expect_head. cbn [bind].
  rewrite fixedDigits_pad_small by (change (10 ^ Z.of_nat 2) with 100; lia).
  cbn [bind]. rewrite expect_head. cbn [bind].
  rewrite fixedDigits_pad_small by (change (10 ^ Z.of_nat 2) with 100; lia).
  cbn [bind]. rewrite expect_head. cbn [bind].
  rewrite fixedDigits_pad_small by (change (10 ^ Z.of_nat 2) with 100; zdiv).
  cbn [bind]. rewrite expect_head. cbn [bind].
  rewrite fixedDigits_pad_small by (change (10 ^ Z.of_nat 2) with 100; zdiv).
  cbn [bind]. rewrite expect_head. cbn [bind].
  rewrite fixedDigits_pad_small by (change (10 ^ Z.of_nat 2) with 100; zdiv).
  cbn [bind]. rewrite expect_head. cbn [bind].
  rewrite fixedDigits_pad_small by (change (10 ^ Z.of_nat 3) with 1000; zdiv).
  cbn [bind]. rewrite expect_head. cbn [bind].
  replace (MonthFromTime t + 1 - 1) with (MonthFromTime t) by lia.
  rewrite (leb_true 1 (MonthFromTime t + 1)) by lia.
  rewrite (leb_true (MonthFromTime t + 1) 12) by lia.
  rewrite (leb_true 1 (DateFromTime t)) by lia.
  rewrite (leb_true (DateFromTime t) _) by lia.
  rewrite (ltb_true (tw / 3600000) 24) by zdiv.
  rewrite (ltb_true (tw / 60000 mod 60) 60) by zdiv.
  rewrite (ltb_true (tw / 1000 mod 60) 60) by zdiv.
  cbn [andb].
  rewrite MakeDay_fields, MakeTime_fields by exact HT.
  unfold tw. now rewrite MakeDate_fields.
Qed.

Lemma toISOString_inj a b :
  validTime a -> validTime b -> toISOString a = toISOString b -> a = b.
Proof.
  intros Va Vb E. apply (f_equal ofISOString) in E.
  rewrite !ofISOString_toISOString in E by assumption. congruence.
Qed.

End IsoTheory.


(* ================================================================== *)
(** * The order of the strings [toISOString] prints *)

Module IsoOrder.
Import JsDate CalendarFacts IsoFacts IsoTheory.
Local Open Scope Z_scope.

Lemma compare_head c x y :
  String.compare (String c x) (String c y) = String.compare x y.
Proof.
  cbn [String.compare]. unfold Ascii.compare. now rewrite N.compare_refl.
Qed.

Lemma compare_pad_small w n m x y :
  0 <= n < 10 ^ Z.of_nat w -> 0 <= m < 10 ^ Z.of_nat w ->
  String.compare (pad w n ++ x) (pad w m ++ y) = lexOrder (n ?= m) (String.compare x y).
Proof.
  intros Hn Hm. rewrite compare_pad, !Z.mod_small by assumption. reflexivity.
Qed.

(** With four-digit years the strings compare as their fields do. *)
Lemma compare_toISOString t1 t2 :
  fourDigitYear t1 -> fourDigitYear t2 ->
  String.compare (toISOString t1) (toISOString t2) = fieldsCompare t1 t2.
Proof.
  intros F1 F2. unfold toISOString, fieldsCompare, yearString.
  pose proof (YearFromTime_fourDigit t1 F1) as HY1.
  pose proof (YearFromTime_fourDigit t2 F2) as HY2.
  pose proof (MonthFromTime_range t1) as HM1.
  pose proof (MonthFromTime_range t2) as HM2.
  pose proof (DateFromTime_range t1) as HD1.
  pose proof (DateFromTime_range t2) as HD2.
  pose proof (daysInMonth_range (YearFromTime t1) (MonthFromTime t1) HM1).
  pose proof (daysInMonth_range (YearFromTime t2) (MonthFromTime t2) HM2).
  pose proof (TimeWithinDay_range t1) as HT1.
  pose proof (TimeWithinDay_range t2) as HT2.
  set (tw1 := TimeWithinDay t1) in *. set (tw2 := TimeWithinDay t2) in *.
  rewrite (leb_true 0 (YearFromTime t1)), (leb_true (YearFromTime t1) 9999) by lia.
  rewrite (leb_true 0 (YearFromTime t2)), (leb_true (YearFromTime t2) 9999) by lia.
  cbn [andb].
  rewrite compare_pad_small by (change (10 ^ Z.of_nat 4) with 10000; lia).
  f_equal. cbn [append]. rewrite compare_head.
  rewrite compare_pad_small by (change (10 ^ Z.of_nat 2) with 100; lia).
  f_equal. cbn [append]. rewrite compare_head.
  rewrite compare_pad_small by (change (10 ^ Z.of_nat 2) with 100; lia).
  f_equal. cbn [append]. rewrite compare_head.
  rewrite compare_pad_small by (change (10 ^ Z.of_nat 2) with 100; zdiv).
  f_equal. cbn [append]. rewrite compare_head.
  rewrite compare_pad_small by (change (10 ^ Z.of_nat 2) with 100; zdiv).
  f_equal. cbn [append]. rewrite compare_head.
  rewrite compare_pad_small by (change (10 ^ Z.of_nat 2) with 100; zdiv).
  f_equal. cbn [append]. rewrite compare_head.
  rewrite compare_pad_small by (change (10 ^ Z.of_nat 3) with 1000; zdiv).
  f_equal.
Qed.

Lemma time_fields_lt tw1 tw2 :
  0 <= tw1 < 86400000 -> 0 <= tw2 < 86400000 -> tw1 < tw2 ->
  lexOrder (tw1 / 3600000 ?= tw2 / 3600000)
  (lexOrder (tw1 / 60000 mod 60 ?= tw2 / 60000 mod 60)
  (lexOrder (tw1 / 1000 mod 60 ?= tw2 / 1000 mod 60)
  (lexOrder (tw1 mod 1000 ?= tw2 mod 1000) Eq))) = Lt.
Proof.
  intros H1 H2 L.
  pose proof (MakeTime_fields tw1 H1) as E1.
  pose proof (MakeTime_fields tw2 H2) as E2.
  unfold MakeTime in E1, E2.
  assert (0 <= tw1 / 60000 mod 60 < 60) by (apply Z.mod_pos_bound; lia).
  assert (0 <= tw2 / 60000 mod 60 < 60) by (apply Z.mod_pos_bound; lia).
  assert (0 <= tw1 / 1000 mod 60 < 60) by (apply Z.mod_pos_bound; lia).
  assert (0 <= tw2 / 1000 mod 60 < 60) by (apply Z.mod_pos_bound; lia).
  assert (0 <= tw1 mod 1000 < 1000) by (apply Z.mod_pos_bound; lia).
  assert (0 <= tw2 mod 1000 < 1000) by (apply Z.mod_pos_bound; lia).
  set (h1 := tw1 / 3600000) in *. set (h2 := tw2 / 3600000) in *.
  set (m1 := tw1 / 60000 mod 60) in *. set (m2 := tw2 / 60000 mod 60) in *.
  set (s1 := tw1 / 1000 mod 60) in *. set (s2 := tw2 / 1000 mod 60) in *.
  set (l1 := tw1 mod 1000) in *. set (l2 := tw2 mod 1000) in *.
  destruct (Z.compare_spec h1 h2); cbn [lexOrder]; [|reflexivity|exfalso; lia].
  destruct (Z.compare_spec m1 m2); cbn [lexOrder]; [|reflexivity|exfalso; lia].
  destruct (Z.compare_spec s1 s2); cbn [lexOrder]; [|reflexivity|exfalso; lia].
  destruct (Z.compare_spec l1 l2); cbn [lexOrder]; [exfalso; lia|reflexivity|exfalso; lia].
Qed.

(** An earlier time has smaller fields. *)
Lemma fieldsCompare_lt t1 t2 : t1 < t2 -> fieldsCompare t1 t2 = Lt.
Proof.
  intros L. unfold fieldsCompare.
  pose proof (MakeDate_fields t1) as E1. pose proof (MakeDate_fields t2) as E2.
  unfold MakeDate, msPerDay in E1, E2.
  pose proof (TimeWithinDay_range t1) as HT1.
  pose proof (TimeWithinDay_range t2) as HT2.
  pose proof (YearFromDay_spec (Day t1)) as S1.
  pose proof (YearFromDay_spec (Day t2)) as S2.
  fold (YearFromTime t1) in S1. fold (YearFromTime t2) in S2.
  destruct (Z.compare_spec (YearFromTime t1) (YearFromTime t2)) as [EY|LY|GY];
    cbn [lexOrder]; [|reflexivity|exfalso].
  2:{ pose proof (DayFromYear_mono (YearFromTime t2 + 1) (YearFromTime t1)). lia. }
  pose proof (MonthFromDayInYear_spec _ _ (DayWithinYear_range t1)) as [R1 B1].
  pose proof (MonthFromDayInYear_spec _ _ (DayWithinYear_range t2)) as [R2 B2].
  fold (MonthFromTime t1) in R1, B1. fold (MonthFromTime t2) in R2, B2.
  unfold DateFromTime. unfold DayWithinYear in *.
  rewrite <- EY in *.
  set (leap := InLeapYear (YearFromTime t1)) in *.
  destruct (Z.compare_spec (MonthFromTime t1 + 1) (MonthFromTime t2 + 1)) as [EM|LM|GM];
    cbn [lexOrder]; [|reflexivity|exfalso].
  2:{ pose proof (monthStart_mono leap (MonthFromTime t2 + 1) (MonthFromTime t1)). lia. }
  assert (MonthFromTime t2 = MonthFromTime t1) as EM' by lia. rewrite EM' in *.
  destruct (Z.compare_spec
              (Day t1 - DayFromYear (YearFromTime t1) - monthStart leap (MonthFromTime t1) + 1)
              (Day t2 - DayFromYear (YearFromTime t1) - monthStart leap (MonthFromTime t1) + 1))
    as [ED|LD|GD]; cbn [lexOrder]; [|reflexivity|exfalso; lia].
  apply time_fields_lt; lia.
Qed.

Lemma lexOrder_opp c1 c2 : CompOpp (lexOrder c1 c2) = lexOrder (CompOpp c1) (CompOpp c2).
Proof. now destruct c1. Qed.

Lemma fieldsCompare_swap t1 t2 : fieldsCompare t2 t1 = CompOpp (fieldsCompare t1 t2).
Proof.
  unfold fieldsCompare. rewrite !lexOrder_opp, <- !Z.compare_antisym. reflexivity.
Qed.

Lemma fieldsCompare_spec t1 t2 : fieldsCompare t1 t2 = (t1 ?= t2).
Proof.
  destruct (Z.compare_spec t1 t2) as [E|L|G].
  - subst. unfold fieldsCompare. now rewrite !Z.compare_refl.
  - now apply fieldsCompare_lt.
  - rewrite fieldsCompare_swap, (fieldsCompare_lt t2 t1 G). reflexivity.
Qed.

(** With four-digit years the strings are ordered as the dates. *)
Theorem compare_toISOString_spec t1 t2 :
  fourDigitYear t1 -> fourDigitYear t2 ->
  String.compare (toISOString t1) (toISOString t2) = (t1 ?= t2).
Proof.
  intros F1 F2. rewrite compare_toISOString by assumption. apply fieldsCompare_spec.
Qed.

Corollary leb_toISOString t1 t2 :
  fourDigitYear t1 -> fourDigitYear t2 ->
  String.leb (toISOString t1) (toISOString t2) = (t1 <=? t2).
Proof.
  intros F1 F2. unfold String.leb, Z.leb.
  now rewrite compare_toISOString_spec.
Qed.

End IsoOrder.


(* ================================================================== *)
(** * The set of dates, its sorting and the loop *)

Section SetsAndSorting.

Lemma existsb_eqb_In s l : existsb (String.eqb s) l = true <-> In s l.
Proof.
  rewrite existsb_exists. split.
  - intros (x & Hx & E). apply String.eqb_eq in E. now subst.
  - intros H. exists s. split; [assumption | apply String.eqb_refl].
Qed.

Lemma Set_add_In dates s x : In x (Set_add dates s) <-> In x dates \/ x = s.
Proof.
  unfold Set_add. destruct (existsb (String.eqb s) dates) eqn:E.
  - apply existsb_eqb_In in E. split; [auto|]. intros [H| ->]; assumption.
  - rewrite in_app_iff. simpl. intuition.
Qed.

Lemma Set_add_NoDup dates s : NoDup dates -> NoDup (Set_add dates s).
Proof.
  intros H. unfold Set_add. destruct (existsb (String.eqb s) dates) eqn:E; [assumption|].
  apply NoDup_app; [assumption | repeat constructor; intros [] | ].
  intros x Hx [<-|[]]. apply existsb_eqb_In in Hx. congruence.
Qed.


Lemma fold_Set_add_In xs : forall acc x,
  In x (fold_left Set_add xs acc) <-> In x acc \/ In x xs.
Proof.
  induction xs as [|y xs IH]; intros acc x; simpl; [tauto|].
  rewrite IH, Set_add_In. intuition.
Qed.

Lemma fold_Set_add_NoDup xs : forall acc,
  NoDup acc -> NoDup (fold_left Set_add xs acc).
Proof.
  induction xs as [|y xs IH]; intros acc H; simpl; [assumption|].
  apply IH, Set_add_NoDup, H.
Qed.


Lemma addDates_spec dates series :
  addDates dates series = fold_left Set_add (map JsDate.toISOString (map date series)) dates.
Proof.
  unfold addDates. revert dates.
  induction series as [|e series IH]; intros dates; simpl; [reflexivity | apply IH].
Qed.

Lemma sortedDates_spec r s w :
  sortedDates r s w = Array_sort (Set_of (map JsDate.toISOString (allDates r s w))).
Proof.
  unfold sortedDates, Set_of, allDates. rewrite !addDates_spec.
  now rewrite !map_app, !fold_left_app.
Qed.

Lemma sort_insert_perm s l : Permutation (sort_insert s l) (s :: l).
Proof.
  induction l as [|x l IH]; simpl; [reflexivity|].
  destruct (String.leb s x); [reflexivity|].
  rewrite IH. apply perm_swap.
Qed.

Lemma Array_sort_perm l : Permutation (Array_sort l) l.
Proof.
  induction l as [|x l IH]; simpl; [reflexivity|].
  rewrite sort_insert_perm. now constructor.
Qed.

Lemma sort_insert_sorted s l : Sorted stringLe l -> Sorted stringLe (sort_insert s l).
Proof.
  induction l as [|x l IH]; intros H; simpl.
  - repeat constructor.
  - destruct (String.leb s x) eqn:E.
    + constructor; [assumption | constructor; exact E].
    + inversion H as [|? ? Hl Hx]; subst. constructor; [apply IH, Hl|].
      assert (stringLe x s) as Hxs.
      { destruct (String.leb_total x s) as [T|T]; [exact T | congruence]. }
      destruct l as [|y l]; simpl.
      * constructor. exact Hxs.
      * destruct (String.leb s y); constructor; [exact Hxs|].
        now inversion Hx.
Qed.

Lemma Array_sort_sorted l : Sorted stringLe (Array_sort l).
Proof.
  induction l as [|x l IH]; simpl; [constructor | apply sort_insert_sorted, IH].
Qed.

(** The order of strings is transitive, so a sorted list stays sorted
    when elements are left out. *)
Lemma ascii_compare_trans a b c :
  Ascii.compare a b = Lt -> Ascii.compare b c = Lt -> Ascii.compare a c = Lt.
Proof.
  unfold Ascii.compare. rewrite !N.compare_lt_iff. apply N.lt_trans.
Qed.

Lemma string_compare_trans a : forall b c,
  String.compare a b = Lt -> String.compare b c = Lt -> String.compare a c = Lt.
Proof.
  induction a as [|x a IH]; intros [|y b] [|z c]; simpl; try discriminate; auto.
  destruct (Ascii.compare x y) eqn:Exy; try discriminate;
    destruct (Ascii.compare y z) eqn:Eyz; try discriminate; intros H1 H2.
  - apply Ascii.compare_eq_iff in Exy, Eyz. subst.
    assert (Ascii.compare z z = Eq) as -> by (unfold Ascii.compare; apply N.compare_refl).
    eapply IH; eauto.
  - apply Ascii.compare_eq_iff in Exy. subst. now rewrite Eyz.
  - apply Ascii.compare_eq_iff in Eyz. subst. now rewrite Exy.
  - now rewrite (ascii_compare_trans _ _ _ Exy Eyz).
Qed.

Lemma stringLe_trans a b c : stringLe a b -> stringLe b c -> stringLe a c.
Proof.
  unfold stringLe, String.leb. intros H1 H2.
  destruct (String.compare a b) eqn:Eab; try discriminate;
    destruct (String.compare b c) eqn:Ebc; try discriminate.
  - apply String.compare_eq_iff in Eab, Ebc. subst.
    destruct (String.compare c c) eqn:E; auto.
    pose proof (String.compare_antisym c c) as A. rewrite E in A. discriminate.
  - apply String.compare_eq_iff in Eab. subst. now rewrite Ebc.
  - apply String.compare_eq_iff in Ebc. subst. now rewrite Eab.
  - now rewrite (string_compare_trans _ _ _ Eab Ebc).
Qed.

Lemma Array_sort_strongly_sorted l : StronglySorted stringLe (Array_sort l).
Proof.
  apply Sorted_StronglySorted; [exact stringLe_trans | apply Array_sort_sorted].
Qed.

Lemma StronglySorted_map_filter {A} (g : A -> string) (f : A -> bool) T :
  StronglySorted stringLe (map g T) -> StronglySorted stringLe (map g (filter f T)).
Proof.
  induction T as [|a T IH]; simpl; intros H; [constructor|].
  inversion H as [|? ? H' Ha]; subst.
  destruct (f a); [|now apply IH]. simpl. constructor; [now apply IH|].
  rewrite Forall_forall in *. intros x Hx. apply Ha.
  apply in_map_iff in Hx. destruct Hx as (b & <- & Hb).
  apply filter_In in Hb. apply in_map. tauto.
Qed.

End SetsAndSorting.

Section WeightedSeries.

Variable pop : PopulationData.
Variables r s w : list ProcessedEntry.

Lemma pushDate_app result isoDate :
  pushDate pop r s w result isoDate = result ++ pushDate pop r s w [] isoDate.
Proof.
  unfold pushDate. destruct (JsDate.ofISOString isoDate); [|now rewrite app_nil_r].
  destruct (computeWeightedAverage _ _ _ _); [reflexivity | now rewrite app_nil_r].
Qed.

Lemma fold_pushDate isos : forall result,
  fold_left (pushDate pop r s w) isos result
  = result ++ flat_map (pushDate pop r s w []) isos.
Proof.
  induction isos as [|i isos IH]; intros result; simpl.
  - now rewrite app_nil_r.
  - rewrite IH, (pushDate_app result i), <- app_assoc. reflexivity.
Qed.

Lemma pushDate_toISOString t :
  validTime t -> pushDate pop r s w [] (JsDate.toISOString t) = entryFor pop r s w t.
Proof.
  intros V. unfold pushDate, entryFor.
  rewrite IsoTheory.ofISOString_toISOString by exact V.
  destruct (computeWeightedAverage _ _ _ _); reflexivity.
Qed.

Lemma flat_map_pushDate T :
  Forall validTime T ->
  flat_map (pushDate pop r s w []) (map JsDate.toISOString T)
  = flat_map (entryFor pop r s w) T.
Proof.
  induction 1 as [|t T V _ IH]; simpl; [reflexivity|].
  now rewrite pushDate_toISOString, IH.
Qed.

(** The strings of the sorted set are the dates of the series, each
    once. *)
Lemma sortedDates_dates :
  Forall validTime (allDates r s w) ->
  exists T, sortedDates r s w = map JsDate.toISOString T
            /\ NoDup T
            /\ (forall t, In t T <-> In t (allDates r s w)).
Proof.
  intros V. rewrite sortedDates_spec.
  set (D := allDates r s w) in *.
  set (keys := Set_of (map JsDate.toISOString D)).
  assert (NoDup keys) as ND by (apply fold_Set_add_NoDup; constructor).
  assert (forall x, In x keys <-> In x (map JsDate.toISOString D)) as Hk.
  { intros x. unfold keys, Set_of. rewrite fold_Set_add_In. simpl. tauto. }
  pose proof (Array_sort_perm keys) as P.
  assert (forall l, (forall x, In x l -> In x (map JsDate.toISOString D)) ->
                    exists T, l = map JsDate.toISOString T /\ forall t, In t T -> In t D) as Hex.
  { induction l as [|x l IHl]; intros Hl.
    - exists []. split; [reflexivity | intros t []].
    - destruct IHl as (T & -> & HT); [intros y Hy; apply Hl; now right|].
      destruct (proj1 (in_map_iff _ _ _) (Hl x (or_introl eq_refl))) as (t & <- & Ht).
      exists (t :: T). split; [reflexivity|]. intros t' [<-|H']; auto. }
  destruct (Hex (Array_sort keys)) as (T & ET & HT).
  { intros x Hx. apply Hk. eapply Permutation_in; [exact P | exact Hx]. }
  exists T. split; [exact ET|]. split.
  - apply (NoDup_map_inv JsDate.toISOString). rewrite <- ET.
    eapply Permutation_NoDup; [symmetry; exact P | exact ND].
  - intros t. split; [apply HT|]. intros Ht.
    assert (In (JsDate.toISOString t) (map JsDate.toISOString T)) as Hin.
    { rewrite <- ET. eapply Permutation_in; [symmetry; exact P|].
      apply Hk. now apply in_map. }
    apply in_map_iff in Hin. destruct Hin as (t' & E & Ht').
    rewrite Forall_forall in V.
    apply IsoTheory.toISOString_inj in E; auto. now subst.
Qed.

(** The composite series: the dates of the input, each once, in the
    order of their strings, and for each the point it yields. *)
Lemma computeWeightedSeries_spec :
  Forall validTime (allDates r s w) ->
  exists T, sortedDates r s w = map JsDate.toISOString T
            /\ NoDup T
            /\ (forall t, In t T <-> In t (allDates r s w))
            /\ computeWeightedSeries pop r s w = flat_map (entryFor pop r s w) T.
Proof.
  intros V. destruct (sortedDates_dates V) as (T & ET & ND & HT).
  exists T. repeat split; auto; try apply HT; auto.
  unfold computeWeightedSeries. rewrite fold_pushDate, ET. simpl.
  apply flat_map_pushDate. rewrite Forall_forall in *. intros t Ht. apply V, HT, Ht.
Qed.

Lemma entryFor_date t p : In p (entryFor pop r s w t) -> date p = t.
Proof.
  unfold entryFor. destruct (computeWeightedAverage _ _ _ _); [|intros []].
  intros [<-|[]]. reflexivity.
Qed.

Lemma map_date_entryFor T :
  map date (flat_map (entryFor pop r s w) T)
  = filter (fun t => match computeWeightedAverage pop (getValue t r) (getValue t s)
                             (getValue t w) with Some _ => true | None => false end) T.
Proof.
  induction T as [|t T IH]; simpl; [reflexivity|].
  rewrite map_app, IH. unfold entryFor at 1.
  destruct (computeWeightedAverage _ _ _ _); reflexivity.
Qed.

Lemma sorted_strings_dates T :
  Forall fourDigitYear T -> NoDup T ->
  Sorted stringLe (map JsDate.toISOString T) -> StronglySorted Z.lt T.
Proof.
  intros F ND S.
  assert (StronglySorted Z.le T) as SS.
  { apply Sorted_StronglySorted; [intros a b c; apply Z.le_trans|].
    induction T as [|a T IH]; [constructor|].
    inversion S as [|? ? S' H']; subst. inversion F; subst. inversion ND; subst.
    constructor; [auto|].
    destruct T as [|b T]; [constructor|]. constructor.
    inversion H' as [|? ? L]; subst. unfold stringLe in L.
    rewrite IsoOrder.leb_toISOString in L; auto.
    - now apply Z.leb_le.
    - match goal with H : Forall fourDigitYear (b :: T) |- _ => now inversion H end. }
  clear S F. induction T as [|a T IH]; [constructor|].
  inversion SS as [|? ? SS' Ha]; subst. inversion ND as [|? ? Hn ND']; subst.
  constructor; [auto|].
  rewrite Forall_forall in *. intros b Hb.
  specialize (Ha b Hb). assert (a <> b) by (intros ->; contradiction). lia.
Qed.

Lemma StronglySorted_filter (f : Z -> bool) T :
  StronglySorted Z.lt T -> StronglySorted Z.lt (filter f T).
Proof.
  induction 1 as [|a T _ IH Ha]; simpl; [constructor|].
  destruct (f a); [|exact IH]. constructor; [exact IH|].
  rewrite Forall_forall in *. intros b Hb. apply Ha. now apply filter_In in Hb.
Qed.

End WeightedSeries.


(* ================================================================== *)
(** * Zeros *)

Section FloatZero.

Local Open Scope float_scope.

Lemma SFcompare_Eq a b :
  SFcompare a b = Some Eq ->
  a = b \/ exists s1 s2, a = S754_zero s1 /\ b = S754_zero s2.
Proof.
  destruct a as [sa|sa| |sa ma ea], b as [sb|sb| |sb mb eb]; simpl;
    try discriminate; try (destruct sa; discriminate); try (destruct sb; discriminate).
  - intros _. right. eauto.
  - destruct sa, sb; try discriminate; auto.
  - change (Pos.compare_cont Eq ma mb) with (Pos.compare ma mb).
    destruct sa, sb; try discriminate;
      destruct (Z.compare_spec ea eb); try discriminate;
      destruct (Pos.compare_spec ma mb); try discriminate; intros _; subst; auto.
Qed.

Lemma is_zero_spec x : is_zero x = true <-> x = 0 \/ x = neg_zero.
Proof.
  unfold is_zero. rewrite eqb_spec. unfold SFeqb. split.
  - destruct (SFcompare (Prim2SF x) (Prim2SF zero)) as [[]|] eqn:E; try discriminate.
    intros _. apply SFcompare_Eq in E.
    assert (exists s, Prim2SF x = S754_zero s) as [s Hs].
    { destruct E as [E|(s1 & s2 & E & _)]; [|eauto]. rewrite E. now exists false. }
    rewrite <- (SF2Prim_Prim2SF x), Hs. destruct s; [right | left]; reflexivity.
  - intros [->| ->]; reflexivity.
Qed.

(** Two numbers that bound each other are equal, or are both zeros. *)
Lemma float_leb_antisym x y :
  (x <=? y) = true -> (y <=? x) = true -> x = y \/ (is_zero x = true /\ is_zero y = true).
Proof.
  rewrite !leb_spec. unfold SFleb. rewrite (SFcompare_swap (Prim2SF x) (Prim2SF y)).
  destruct (SFcompare (Prim2SF x) (Prim2SF y)) as [[]|] eqn:E; simpl; try discriminate.
  intros _ _. apply SFcompare_Eq in E. destruct E as [E|(s1 & s2 & E1 & E2)].
  - left. now apply Prim2SF_inj.
  - right. split; apply is_zero_spec.
    + rewrite <- (SF2Prim_Prim2SF x), E1. destruct s1; [right | left]; reflexivity.
    + rewrite <- (SF2Prim_Prim2SF y), E2. destruct s2; [right | left]; reflexivity.
Qed.

Lemma isMaximum_unique m m' l :
  isMaximum m l -> isMaximum m' l ->
  m = m' \/ (is_zero m = true /\ is_zero m' = true).
Proof.
  intros (I & N & H) (I' & N' & H'). apply float_leb_antisym; auto.
Qed.

Lemma truthy_number m : number m -> JsNumber.truthy m = negb (is_zero m).
Proof. unfold JsNumber.truthy, number. now intros ->. Qed.

End FloatZero.

(* ================================================================== *)
(** * The global upper bound *)

Section GlobalBound.

Local Open Scope float_scope.

Lemma getGlobalMax_unfold datasets :
  getGlobalMaxFromProcessedDatasets datasets =
  match d3.max (allValues datasets) with
  | Some max => if JsNumber.truthy max then JsNumber.Math_round (max * 1.1) else 0
  | None => 0
  end.
Proof. reflexivity. Qed.

Lemma allValues_empty datasets :
  (forall data, In data datasets -> data = []) -> allValues datasets = [].
Proof.
  intros H. unfold allValues.
  replace (flat_map (fun data => map value data) datasets) with (@nil (option float));
    [reflexivity|].
  induction datasets as [|d ds IH]; simpl; [reflexivity|].
  rewrite (H d) by now left. simpl. apply IH. intros; apply H; now right.
Qed.

(** C4. [getGlobalMaxFromProcessedDatasets] returns [Math.round] of the
    maximum value over all points of all sequences times 1.1, and 0
    when there is no value to take a maximum of, in particular when no
    sequence holds a point. A maximum of [-0] is falsy, and 0 is
    returned for it. *)
Theorem globalUpperBound_spec (datasets : list (list ProcessedEntry)) :
  ((forall data, In data datasets -> data = []) ->
     getGlobalMaxFromProcessedDatasets datasets = 0)
  /\ ((forall x, In x (allValues datasets) -> is_nan x = true) ->
     getGlobalMaxFromProcessedDatasets datasets = 0)
  /\ (forall m, isMaximum m (allValues datasets) -> m <> neg_zero ->
     getGlobalMaxFromProcessedDatasets datasets = JsNumber.Math_round (m * 1.1))
  /\ (isMaximum neg_zero (allValues datasets) ->
     getGlobalMaxFromProcessedDatasets datasets = 0).
Proof.
  rewrite getGlobalMax_unfold.
  assert (forall m, isMaximum m (allValues datasets) ->
            exists m', d3.max (allValues datasets) = Some m'
                       /\ (m' = m \/ (is_zero m' = true /\ is_zero m = true))) as Hmax.
  { intros m Hm. destruct (d3.max (allValues datasets)) as [m'|] eqn:E.
    - exists m'. split; [reflexivity|].
      apply (isMaximum_unique m' m (allValues datasets)); [now apply max_Some | exact Hm].
    - destruct Hm as (I & N & _). pose proof (max_None _ E m I). unfold number in N.
      congruence. }
  repeat split.
  - intros H. now rewrite (allValues_empty _ H).
  - intros H. destruct (d3.max (allValues datasets)) as [m|] eqn:E; [|reflexivity].
    apply max_Some in E. destruct E as (I & N & _). pose proof (H m I) as C.
    unfold number in N. congruence.
  - intros m Hm Hnz. destruct (Hmax m Hm) as (m' & -> & [->|[Z' Z]]).
    + destruct Hm as (_ & N & _). rewrite (truthy_number m N).
      destruct (is_zero m) eqn:Z; [|reflexivity].
      apply is_zero_spec in Z. destruct Z as [->| ->]; [reflexivity | congruence].
    + destruct Hm as (_ & N & _).
      apply is_zero_spec in Z. destruct Z as [->| ->]; [|congruence].
      unfold JsNumber.truthy. rewrite Z', orb_true_r. reflexivity.
  - intros Hm. destruct (Hmax _ Hm) as (m' & -> & [->|[Z' _]]); [reflexivity|].
    unfold JsNumber.truthy. rewrite Z', orb_true_r. reflexivity.
Qed.

End GlobalBound.


(* ================================================================== *)
(** * The aggregation of a station *)

Section Claims.

Local Open Scope float_scope.

Variable UTC : Z -> Z.

Lemma testMeans_relevant s :
  hasValidValue s <-> testMeans (results s) <> [].
Proof.
  unfold hasValidValue, testMeans. rewrite fold_pushResult. simpl.
  induction (relevantResults (results s)) as [|r rs IH]; simpl.
  - split; [intros (r & [] & _) | congruence].
  - rewrite contribution_spec. split.
    + intros (r' & [<-|Hin] & Hv).
      * destruct (resultValues r); [congruence | discriminate].
      * intros E. apply app_eq_nil in E. destruct E as [_ E].
        apply IH; [eauto | exact E].
    + intros H. destruct (resultValues r) as [|v vs] eqn:E.
      * simpl in H. apply IH in H. destruct H as (r' & Hin & Hv). eauto.
      * exists r. split; [now left | congruence].
Qed.

(** C2, as amended. A retained sample whose test-level means hold a
    number gives exactly one point: its value is the arithmetic mean of the
    numbers among them, its [min] and [max] their minimum and maximum; a
    mean that is [NaN] is skipped. When all the means are numbers, these are
    the mean, the minimum and the maximum of the list. A retained sample
    without any test-level mean gives no point. *)
Theorem aggregate_sample before s after station d :
  measuring_point s = station ->
  JsDate.timeParse_dmY UTC (extraction_date s) = Some d ->
  let means := testMeans (results s) in
  (means = [] ->
     filterDataByStation UTC (before ++ s :: after) station
     = filterDataByStation UTC before station ++ filterDataByStation UTC after station)
  /\ (numbers means <> [] ->
      exists lo hi,
        isMinimum lo means /\ isMaximum hi means
        /\ filterDataByStation UTC (before ++ s :: after) station
           = filterDataByStation UTC before station
               ++ [{| date := d; value := Some (arithmeticMean (numbers means));
                      min := Some lo; max := Some hi |}]
               ++ filterDataByStation UTC after station)
  /\ (means <> [] -> Forall number means ->
      exists lo hi,
        isMinimum lo means /\ isMaximum hi means
        /\ filterDataByStation UTC (before ++ s :: after) station
           = filterDataByStation UTC before station
               ++ [{| date := d; value := Some (arithmeticMean means);
                      min := Some lo; max := Some hi |}]
               ++ filterDataByStation UTC after station).
Proof.
  intros Hs Hd means. rewrite filterDataByStation_split, filterDataByStation_one, Hd.
  apply String.eqb_eq in Hs. rewrite Hs. fold means.
  assert (numbers means <> [] ->
          exists lo hi,
            isMinimum lo means /\ isMaximum hi means
            /\ filterDataByStation UTC before station
                 ++ match means with
                    | [] => []
                    | m :: ms => [pointOf d (m :: ms)]
                    end ++ filterDataByStation UTC after station
               = filterDataByStation UTC before station
                   ++ [{| date := d; value := Some (arithmeticMean (numbers means));
                          min := Some lo; max := Some hi |}]
                   ++ filterDataByStation UTC after station) as Hnum.
  { intros Hne.
    destruct (min_of_numbers means Hne) as (lo & Elo & Hlo).
    destruct (max_of_numbers means Hne) as (hi & Ehi & Hhi).
    exists lo, hi. split; [exact Hlo|]. split; [exact Hhi|].
    destruct means as [|m ms] eqn:E; [exfalso; now apply Hne|].
    unfold pointOf. rewrite Elo, Ehi, mean_of_numbers by assumption. reflexivity. }
  split; [|split].
  - intros ->. reflexivity.
  - exact Hnum.
  - intros Hne Hall.
    destruct Hnum as (lo & hi & Hlo & Hhi & E); [now rewrite numbers_all|].
    rewrite (numbers_all means Hall) in E. exists lo, hi. auto.
Qed.


(** C6. Scenario A: one point, dated at the local midnight of 1 February
    2022, with value, [min] and [max] 150; the commas are turned into
    periods before the numbers are read. *)
Theorem scenario_A :
  filterDataByStation UTC [scenarioA] "X"
  = [{| date := UTC 1643673600000%Z; value := Some 150; min := Some 150; max := Some 150 |}]
  /\ JsDate.toISOString 1643673600000%Z = "2022-02-01T00:00:00.000Z"
  /\ map (fun v => JsString.replace v "," ".") ["100,0"; "200,0"] = ["100.0"; "200.0"]
  /\ map JsNumber.parseFloat ["100.0"; "200.0"] = [100; 200]
  /\ testMeans (results scenarioA) = [150].
Proof. repeat split; vm_compute; reflexivity. Qed.

(** C7, as amended. A sample of the station whose date parses and that
    has a valid relevant value gives one point, dated by the parse, at
    its place in the output; it is the only point with that date when no
    other such sample of the station has the same date. *)
Theorem station_completeness before s after station d :
  measuring_point s = station ->
  hasValidValue s ->
  JsDate.timeParse_dmY UTC (extraction_date s) = Some d ->
  exists p,
    date p = d
    /\ filterDataByStation UTC (before ++ s :: after) station
       = filterDataByStation UTC before station ++ p :: filterDataByStation UTC after station
    /\ ((forall s', In s' (before ++ after) -> measuring_point s' = station ->
                    hasValidValue s' ->
                    JsDate.timeParse_dmY UTC (extraction_date s') <> Some d) ->
        pointsAt d (filterDataByStation UTC (before ++ s :: after) station) = 1%nat).
Proof.
  intros Hs Hv Hd. apply testMeans_relevant in Hv.
  exists (pointOf d (testMeans (results s))). split; [reflexivity|].
  assert (filterDataByStation UTC [s] station = [pointOf d (testMeans (results s))]) as E1.
  { rewrite filterDataByStation_one, Hd. apply String.eqb_eq in Hs. rewrite Hs.
    destruct (testMeans (results s)); [congruence | reflexivity]. }
  rewrite filterDataByStation_split, E1. split; [reflexivity|].
  intros Hother.
  assert (forall raw, (forall s', In s' raw -> In s' (before ++ after)) ->
            filter (fun p => Z.eqb (date p) d) (filterDataByStation UTC raw station) = []) as Hnone.
  { intros raw Hraw.
    destruct (filter (fun p => Z.eqb (date p) d) (filterDataByStation UTC raw station))
      as [|p l] eqn:E; [reflexivity|].
    assert (In p (filter (fun p => Z.eqb (date p) d) (filterDataByStation UTC raw station))) as Hp
        by (rewrite E; now left).
    apply filter_In in Hp. destruct Hp as [Hp Hpd]. apply Z.eqb_eq in Hpd.
    destruct (filterDataByStation_origin UTC raw station p Hp)
      as (s' & Hin & Hst & Hparse & Hmeans & _).
    exfalso. apply (Hother s'); auto.
    - now apply testMeans_relevant.
    - now rewrite Hparse, Hpd. }
  unfold pointsAt. rewrite !filter_app, Hnone.
  2:{ intros s' H'. apply in_or_app. now left. }
  cbn [filter app date pointOf]. rewrite Z.eqb_refl, Hnone.
  2:{ intros s' H'. apply in_or_app. now right. }
  reflexivity.
Qed.

(** The skipping of an entry without a date. A sample whose date does
    not parse is skipped with a warning, and the call returns, raising
    nothing, with the points and the warnings of the other samples; every
    point comes from a sample whose date parsed and whose [value], [min]
    and [max] passed the filter, none being [null]: they are what d3
    computed from test-level means that are not empty, numbers as soon as
    one of those means is a number. *)
Theorem malformed_date_skipped before s after station :
  JsDate.timeParse_dmY UTC (extraction_date s) = None ->
  filterDataByStation_call UTC (IsArray (before ++ s :: after)) station
  = Return (filterDataByStation UTC before station ++ filterDataByStation UTC after station,
            snd (filterDataByStation_logged UTC before station)
              ++ warn "Skipping entry with invalid date:" (LoggedString (extraction_date s))
              :: snd (filterDataByStation_logged UTC after station))
  /\ forall p, In p (filterDataByStation UTC (before ++ s :: after) station) ->
       exists s', In s' (before ++ after)
         /\ measuring_point s' = station
         /\ JsDate.timeParse_dmY UTC (extraction_date s') = Some (date p)
         /\ testMeans (results s') <> []
         /\ keepMapped (aggregate (date p) (results s')) = Some p
         /\ mapped_value (aggregate (date p) (results s')) <> None
         /\ mapped_min (aggregate (date p) (results s')) <> None
         /\ mapped_max (aggregate (date p) (results s')) <> None
         /\ value p = d3.mean (testMeans (results s'))
         /\ min p = d3.min (testMeans (results s'))
         /\ max p = d3.max (testMeans (results s'))
         /\ ((exists x, In x (testMeans (results s')) /\ number x) ->
             exists v lo hi, value p = Some v /\ min p = Some lo /\ max p = Some hi).
Proof.
  intros Hd.
  assert (filterDataByStation_logged UTC [s] station
          = ([], [warn "Skipping entry with invalid date:" (LoggedString (extraction_date s))])) as E1
      by (now rewrite filterDataByStation_logged_one, Hd).
  split.
  - unfold filterDataByStation_call, Array_map_receiver, filterDataByStation.
    rewrite filterDataByStation_logged_app.
    change (s :: after) with ([s] ++ after).
    rewrite (filterDataByStation_logged_app UTC [s] after), E1. reflexivity.
  - intros p Hp. rewrite filterDataByStation_split in Hp.
    unfold filterDataByStation at 2 in Hp. rewrite E1 in Hp. simpl in Hp.
    rewrite <- filterDataByStation_app in Hp.
    destruct (filterDataByStation_origin UTC _ station p Hp)
      as (s' & Hin & Hst & Hparse & Hmeans & Ep).
    assert (aggregate (date p) (results s')
            = {| mapped_date := date p;
                 mapped_value := Some (d3.mean (testMeans (results s')));
                 mapped_min := Some (d3.min (testMeans (results s')));
                 mapped_max := Some (d3.max (testMeans (results s'))) |}) as Ea.
    { unfold aggregate. destruct (testMeans (results s')); [congruence | reflexivity]. }
    exists s'. rewrite Ea. cbn [mapped_value mapped_min mapped_max].
    repeat split; auto; try discriminate; try (rewrite Ep; reflexivity).
    intros (x & Hx & Nx). rewrite Ep. cbn [value min max pointOf].
    destruct (mean_Some _ x Hx Nx) as (v & Ev).
    destruct (d3.min (testMeans (results s'))) as [lo|] eqn:Elo.
    2:{ pose proof (min_None _ Elo x Hx). unfold number in Nx. congruence. }
    destruct (d3.max (testMeans (results s'))) as [hi|] eqn:Ehi.
    2:{ pose proof (max_None _ Ehi x Hx). unfold number in Nx. congruence. }
    exists v, lo, hi. auto.
Qed.

(** C9, as amended. The revision with the [Array.isArray] guards returns
    an empty result for every argument that is not an array, and raises
    nothing; the revision with the weighted series has no guard and
    raises a [TypeError] for each of them. *)
Theorem non_array_argument (v : NonArray) (station : string) :
  Guarded.getStations (NotArray v)
  = Return ([], [warn "getStations called with invalid rawData:" (LoggedValue v)])
  /\ Guarded.filterDataByStation UTC (NotArray v) station = Return []
  /\ getStations_call (NotArray v) = Throw TypeError
  /\ filterDataByStation_call UTC (NotArray v) station = Throw TypeError.
Proof. repeat split. Qed.

End Claims.



(* ================================================================== *)
(** * The weighted composite *)

Section Composite.

Local Open Scope float_scope.

Variable pop : PopulationData.


Lemma filter_date_entryFor r s w t T :
  NoDup T ->
  filter (fun p => Z.eqb (date p) t) (flat_map (entryFor pop r s w) T)
  = if in_dec Z.eq_dec t T then entryFor pop r s w t else [].
Proof.
  induction 1 as [|a T Ha ND IH]; simpl; [reflexivity|].
  rewrite filter_app, IH.
  assert (filter (fun p => Z.eqb (date p) t) (entryFor pop r s w a)
          = if Z.eq_dec a t then entryFor pop r s w a else []) as E.
  { unfold entryFor. destruct (computeWeightedAverage _ _ _ _); simpl.
    - destruct (Z.eq_dec a t) as [->|N]; [now rewrite Z.eqb_refl|].
      now apply Z.eqb_neq in N as ->.
    - now destruct (Z.eq_dec a t). }
  rewrite E. destruct (Z.eq_dec a t) as [->|N].
  - destruct (in_dec Z.eq_dec t T); [contradiction | now rewrite app_nil_r].
  - simpl. destruct (in_dec Z.eq_dec t T); reflexivity.
Qed.

Lemma pointsAt_series r s w t :
  Forall validTime (allDates r s w) -> In t (allDates r s w) ->
  pointsAt t (computeWeightedSeries pop r s w)
  = List.length (entryFor pop r s w t)
  /\ forall p, In p (entryFor pop r s w t) -> In p (computeWeightedSeries pop r s w).
Proof.
  intros V Ht. destruct (computeWeightedSeries_spec pop r s w V) as (T & _ & ND & HT & E).
  unfold pointsAt. rewrite E, filter_date_entryFor by exact ND.
  apply HT in Ht. destruct (in_dec Z.eq_dec t T); [|contradiction].
  split; [reflexivity|]. intros p Hp. apply in_flat_map. eauto.
Qed.


(** C3, as amended. The composite series holds one point for each date
    of the input that produced a value and no other point, each with [min]
    and [max] equal to its value; the points stand in the ascending order of
    the texts [toISOString] gives their dates, which is the ascending order
    of the dates when their years have four digits. *)
Theorem weighted_series_points (r s w : list ProcessedEntry) :
  Forall validTime (allDates r s w) ->
  let out := computeWeightedSeries pop r s w in
  (forall t, In t (allDates r s w) ->
             computeWeightedAverage pop (getValue t r) (getValue t s) (getValue t w) <> None ->
             pointsAt t out = 1%nat)
  /\ (forall p, In p out ->
        In (date p) (allDates r s w)
        /\ value p = computeWeightedAverage pop (getValue (date p) r)
                       (getValue (date p) s) (getValue (date p) w)
        /\ value p <> None /\ min p = value p /\ max p = value p)
  /\ NoDup (map date out)
  /\ (Forall fourDigitYear (allDates r s w) -> StronglySorted Z.lt (map date out))
  /\ StronglySorted stringLe (map JsDate.toISOString (map date out)).
Proof.
  intros V out. subst out.
  destruct (computeWeightedSeries_spec pop r s w V) as (T & ET & ND & HT & E).
  repeat split.
  - intros t Ht Hv. destruct (pointsAt_series r s w t V Ht) as [-> _].
    unfold entryFor. destruct (computeWeightedAverage _ _ _ _); [reflexivity | congruence].
  - rewrite E in H. apply in_flat_map in H.
    destruct H as (t & Ht & Hp). rewrite (entryFor_date pop r s w t p Hp). now apply HT.
  - rewrite E in H. apply in_flat_map in H.
    destruct H as (t & Ht & Hp). unfold entryFor in Hp.
    destruct (computeWeightedAverage pop (getValue t r) (getValue t s) (getValue t w))
      as [v|] eqn:Ev; [|destruct Hp].
    destruct Hp as [<-|[]]. simpl. now rewrite Ev.
  - rewrite E in H. apply in_flat_map in H.
    destruct H as (t & Ht & Hp). unfold entryFor in Hp.
    destruct (computeWeightedAverage _ _ _ _); [|destruct Hp].
    destruct Hp as [<-|[]]. discriminate.
  - rewrite E in H. apply in_flat_map in H.
    destruct H as (t & Ht & Hp). unfold entryFor in Hp.
    destruct (computeWeightedAverage _ _ _ _); [|destruct Hp].
    destruct Hp as [<-|[]]. reflexivity.
  - rewrite E in H. apply in_flat_map in H.
    destruct H as (t & Ht & Hp). unfold entryFor in Hp.
    destruct (computeWeightedAverage _ _ _ _); [|destruct Hp].
    destruct Hp as [<-|[]]. reflexivity.
  - rewrite E, map_date_entryFor. now apply NoDup_filter.
  - intros F. rewrite E, map_date_entryFor.
    apply StronglySorted_filter. apply sorted_strings_dates; [|exact ND|].
    + rewrite Forall_forall in *. intros t Ht. apply F, HT, Ht.
    + rewrite <- ET. rewrite sortedDates_spec. apply Array_sort_sorted.
  - rewrite E, map_date_entryFor. apply StronglySorted_map_filter.
    rewrite <- ET, sortedDates_spec. apply Array_sort_strongly_sorted.
Qed.








End Composite.

(* ================================================================== *)
(** * The theorems at concrete inputs *)

Local Open Scope float_scope.

Lemma validTime_examples :
  Forall validTime (allDates ruhlebenExample schoenerlindeExample wassmannsdorfExample).
Proof. repeat constructor; unfold validTime, feb1, feb8; simpl; lia. Defined.

Lemma fourDigitYear_examples :
  Forall fourDigitYear (allDates ruhlebenExample schoenerlindeExample wassmannsdorfExample).
Proof. repeat constructor; unfold fourDigitYear, feb1, feb8; simpl; lia. Defined.



(** C2 as stated fails: when a test-level mean is [NaN], the value of
    the point is not the arithmetic mean of the list of means, which is
    [NaN], but the mean of the other means. *)
Lemma nan_mean_is_skipped :
  JsDate.timeParse_dmY UTC_plus1 (extraction_date mixedReadings) = Some feb1
  /\ testMeans (results mixedReadings) = [nan; 250]
  /\ PrimFloat.is_nan (arithmeticMean [nan; 250]) = true
  /\ filterDataByStation UTC_plus1 [mixedReadings] "X"
     = [{| date := feb1; value := Some 250; min := Some 250; max := Some 250 |}]
  /\ Some 250 <> Some (arithmeticMean [nan; 250]).
Proof.
  repeat split; try (vm_compute; reflexivity).
  intros E.
  apply (f_equal (fun o => match o with
                           | Some v => PrimFloat.is_nan v
                           | None => false
                           end)) in E.
  vm_compute in E. discriminate E.
Qed.

(** C2 as amended, at scenario B (value 200, [min] 150, [max] 250) and
    at the sample whose first test-level mean is [NaN] (value, [min] and
    [max] 250). *)
Lemma aggregate_sample_witness :
  testMeans (results scenarioB) = [150; 250]
  /\ (exists lo hi,
        isMinimum lo [150; 250] /\ isMaximum hi [150; 250]
        /\ filterDataByStation UTC_plus1 ([badDate] ++ scenarioB :: [laterSample]) "X"
           = filterDataByStation UTC_plus1 [badDate] "X"
               ++ [{| date := feb1; value := Some (arithmeticMean [150; 250]);
                      min := Some lo; max := Some hi |}]
               ++ filterDataByStation UTC_plus1 [laterSample] "X")
  /\ filterDataByStation UTC_plus1 [badDate; scenarioB] "X"
     = [{| date := feb1; value := Some 200; min := Some 150; max := Some 250 |}]
  /\ testMeans (results mixedReadings) = [nan; 250]
  /\ numbers [nan; 250] = [250]
  /\ (exists lo hi,
        isMinimum lo [nan; 250] /\ isMaximum hi [nan; 250]
        /\ filterDataByStation UTC_plus1 ([badDate] ++ mixedReadings :: [laterSample]) "X"
           = filterDataByStation UTC_plus1 [badDate] "X"
               ++ [{| date := feb1; value := Some (arithmeticMean (numbers [nan; 250]));
                      min := Some lo; max := Some hi |}]
               ++ filterDataByStation UTC_plus1 [laterSample] "X")
  /\ filterDataByStation UTC_plus1 [badDate; mixedReadings] "X"
     = [{| date := feb1; value := Some 250; min := Some 250; max := Some 250 |}].
Proof.
  assert (JsDate.timeParse_dmY UTC_plus1 (extraction_date scenarioB) = Some feb1) as D
      by (vm_compute; reflexivity).
  assert (JsDate.timeParse_dmY UTC_plus1 (extraction_date mixedReadings) = Some feb1) as D'
      by (vm_compute; reflexivity).
  assert (testMeans (results scenarioB) = [150; 250]) as M by (vm_compute; reflexivity).
  assert (testMeans (results mixedReadings) = [nan; 250]) as M'
      by (vm_compute; reflexivity).
  assert (numbers [nan; 250] = [250]) as N by (vm_compute; reflexivity).
  split; [exact M|]. split; [|split; [vm_compute; reflexivity|]].
  - rewrite <- M.
    apply (proj2 (proj2 (aggregate_sample UTC_plus1 [badDate] scenarioB [laterSample] "X"
                           feb1 eq_refl D)));
      rewrite M; [discriminate | repeat constructor].
  - split; [exact M'|]. split; [exact N|]. split; [|vm_compute; reflexivity].
    rewrite <- M'.
    apply (proj1 (proj2 (aggregate_sample UTC_plus1 [badDate] mixedReadings [laterSample]
                           "X" feb1 eq_refl D'))).
    rewrite M', N. discriminate.
Defined.

(** C3 as stated fails on the order: a date of the year 10000 is printed
    with a sign and sorts before the four-digit years, so the later date
    comes first in the output. The aggregation produces such a date from
    an entry dated the thirteenth month of 9999. *)
Lemma late_year_sorts_first :
  filterDataByStation UTC_plus1 [lateYear] "X"
  = [{| date := jan2_10000; value := Some 150; min := Some 150; max := Some 150 |}]
  /\ JsDate.toISOString jan2_10000 = "+010000-01-01T23:00:00.000Z"%string
  /\ map date (computeWeightedSeries examplePopulation
                 (filterDataByStation UTC_plus1 [scenarioA] "X")
                 (filterDataByStation UTC_plus1 [lateYear] "X") [])
     = [jan2_10000; feb1]
  /\ (feb1 < jan2_10000)%Z
  /\ ~ StronglySorted Z.lt
        (map date (computeWeightedSeries examplePopulation
                     (filterDataByStation UTC_plus1 [scenarioA] "X")
                     (filterDataByStation UTC_plus1 [lateYear] "X") [])).
Proof.
  assert (map date (computeWeightedSeries examplePopulation
                      (filterDataByStation UTC_plus1 [scenarioA] "X")
                      (filterDataByStation UTC_plus1 [lateYear] "X") [])
          = [jan2_10000; feb1]) as E by (vm_compute; reflexivity).
  split; [vm_compute; reflexivity|]. split; [vm_compute; reflexivity|].
  split; [exact E|]. split; [reflexivity|].
  rewrite E. intros S. inversion S as [|? ? _ F]; subst.
  inversion F as [|? ? L _]; subst. vm_compute in L. discriminate L.
Qed.

(** C3 as amended, at the example series: two dates, two points, in
    order, and at the series with the date of the year 10000, where the
    order is that of the texts. *)
Lemma weighted_series_points_witness :
  computeWeightedSeries examplePopulation
    ruhlebenExample schoenerlindeExample wassmannsdorfExample
  = [weightedPoint feb1 ((0 + 10 * 1600000 + 40 * 750000) / (0 + 1600000 + 750000));
     weightedPoint feb8 20]
  /\ NoDup (map date (computeWeightedSeries examplePopulation
                        ruhlebenExample schoenerlindeExample wassmannsdorfExample))
  /\ StronglySorted Z.lt
       (map date (computeWeightedSeries examplePopulation
                    ruhlebenExample schoenerlindeExample wassmannsdorfExample))
  /\ StronglySorted stringLe
       (map JsDate.toISOString
          (map date (computeWeightedSeries examplePopulation
                       [point feb1 10; point year10000 20] [] [])))
  /\ map JsDate.toISOString
       (map date (computeWeightedSeries examplePopulation
                    [point feb1 10; point year10000 20] [] []))
     = ["+010000-01-01T00:00:00.000Z"; "2022-01-31T23:00:00.000Z"]%string.
Proof.
  split; [vm_compute; reflexivity|].
  destruct (weighted_series_points examplePopulation
              ruhlebenExample schoenerlindeExample wassmannsdorfExample
              validTime_examples) as (_ & _ & ND & S & _).
  split; [exact ND|]. split; [exact (S fourDigitYear_examples)|].
  split; [|vm_compute; reflexivity].
  apply (weighted_series_points examplePopulation [point feb1 10; point year10000 20] [] []).
  repeat constructor; unfold validTime, feb1, year10000; simpl; lia.
Defined.

(** C4, at the example series: the maximum is 99, the bound 109. *)
Lemma globalUpperBound_witness :
  isMaximum 99 (allValues [ruhlebenExample; []; schoenerlindeExample])
  /\ getGlobalMaxFromProcessedDatasets [ruhlebenExample; []; schoenerlindeExample]
     = JsNumber.Math_round (99 * 1.1)
  /\ JsNumber.Math_round (99 * 1.1) = 109
  /\ getGlobalMaxFromProcessedDatasets [[]; []] = 0.
Proof.
  assert (isMaximum 99 (allValues [ruhlebenExample; []; schoenerlindeExample])) as M.
  { split; [simpl; auto|]. split; [reflexivity|].
    intros x [<-|[<-|[<-|[<-|[]]]]] _; vm_compute; reflexivity. }
  destruct (globalUpperBound_spec [ruhlebenExample; []; schoenerlindeExample])
    as (_ & _ & H & _).
  destruct (globalUpperBound_spec [[]; []]) as (H0 & _).
  split; [exact M|]. split; [|split; [vm_compute; reflexivity|]].
  - apply (H 99 M). intros E. apply (f_equal PrimFloat.is_zero) in E.
    vm_compute in E. discriminate E.
  - apply H0. intros data [<-|[<-|[]]]; reflexivity.
Defined.


(** C7 as stated fails: a sample met twice gives two points with its
    date, not exactly one. *)
Lemma repeated_sample_two_points :
  In scenarioA [scenarioA; scenarioA]
  /\ measuring_point scenarioA = "X"
  /\ hasValidValue scenarioA
  /\ JsDate.timeParse_dmY UTC_plus1 (extraction_date scenarioA) = Some feb1
  /\ pointsAt feb1 (filterDataByStation UTC_plus1 [scenarioA; scenarioA] "X") = 2%nat.
Proof.
  assert (testMeans (results scenarioA) = [150]) as M by (vm_compute; reflexivity).
  split; [now left|]. split; [reflexivity|].
  split; [|split; vm_compute; reflexivity].
  apply testMeans_relevant. rewrite M. discriminate.
Qed.

(** C7 as amended, at scenario A between a sample without a date and one
    of another day. *)
Lemma station_completeness_witness :
  exists p,
    date p = feb1
    /\ filterDataByStation UTC_plus1 ([badDate] ++ scenarioA :: [laterSample]) "X"
       = filterDataByStation UTC_plus1 [badDate] "X"
           ++ p :: filterDataByStation UTC_plus1 [laterSample] "X"
    /\ pointsAt feb1
         (filterDataByStation UTC_plus1 ([badDate] ++ scenarioA :: [laterSample]) "X")
       = 1%nat.
Proof.
  assert (testMeans (results scenarioA) = [150]) as M by (vm_compute; reflexivity).
  assert (hasValidValue scenarioA) as V
      by (apply testMeans_relevant; rewrite M; discriminate).
  assert (JsDate.timeParse_dmY UTC_plus1 (extraction_date scenarioA) = Some feb1) as D
      by (vm_compute; reflexivity).
  destruct (station_completeness UTC_plus1 [badDate] scenarioA [laterSample] "X" feb1
              eq_refl V D) as (p & Hd & Hout & Hone).
  exists p. split; [exact Hd|]. split; [exact Hout|].
  apply Hone. intros s' [<-|[<-|[]]] _ _; vm_compute; discriminate.
Defined.

(** The skipping, at a sample without a date between scenarios A and
    B. *)
Lemma malformed_date_skipped_witness :
  JsDate.timeParse_dmY UTC_plus1 (extraction_date badDate) = None
  /\ filterDataByStation_call UTC_plus1 (IsArray ([scenarioA] ++ badDate :: [scenarioB])) "X"
     = Return ([ {| date := feb1; value := Some 150; min := Some 150; max := Some 150 |};
                 {| date := feb1; value := Some 200; min := Some 150; max := Some 250 |} ],
               [ warn "Skipping entry with invalid date:" (LoggedString "2022-02-01") ]).
Proof.
  assert (JsDate.timeParse_dmY UTC_plus1 (extraction_date badDate) = None) as D
      by (vm_compute; reflexivity).
  split; [exact D|].
  rewrite (proj1 (malformed_date_skipped UTC_plus1 [scenarioA] badDate [scenarioB] "X" D)).
  vm_compute. reflexivity.
Defined.

(** C9 as stated fails on the revision with the weighted series: [null]
    for [rawData] raises a [TypeError] in both functions. *)
Lemma non_array_raises :
  getStations_call (NotArray NaNull) = Throw TypeError
  /\ getStations_call (NotArray NaNull) <> Return []
  /\ filterDataByStation_call UTC_plus1 (NotArray NaNull) "X" = Throw TypeError.
Proof. repeat split. discriminate. Qed.


(* ================================================================== *)
(** * A point without values *)

(** C8. The last clause of the claim does not hold of the code. The
    sample [infiniteReadings] has a date that parses and one test, whose
    readings are [Infinity] and [-Infinity]; their mean is [NaN], which
    [d3.mean] returns and the loop pushes as a test-level mean. Of a list
    that holds only [NaN], [d3.mean], [d3.min] and [d3.max] return
    [undefined], and the final filter, which tests for [null], lets the
    object through: the point is emitted with [value], [min] and [max]
    undefined. The sample without a date before it is skipped with its
    warning, and nothing is raised. *)
Theorem undefined_values_emitted :
  JsDate.timeParse_dmY UTC_plus1 (extraction_date infiniteReadings) = Some feb1
  /\ map validValues (resultsOf (results infiniteReadings)) = [[infinity; neg_infinity]]
  /\ d3.mean [infinity; neg_infinity] = Some nan
  /\ testMeans (results infiniteReadings) = [nan]
  /\ (d3.mean [nan], d3.min [nan], d3.max [nan]) = (None, None, None)
  /\ aggregate feb1 (results infiniteReadings)
     = {| mapped_date := feb1; mapped_value := Some None;
          mapped_min := Some None; mapped_max := Some None |}
  /\ filterDataByStation_call UTC_plus1 (IsArray [badDate; infiniteReadings]) "X"
     = Return ([{| date := feb1; value := None; min := None; max := None |}],
               [warn "Skipping entry with invalid date:" (LoggedString "2022-02-01")]).
Proof. repeat split; vm_compute; reflexivity. Qed.

(* ================================================================== *)
(** * Further properties of [processData.ts] *)

Section StationList.

Lemma filter_filter {A} (f g : A -> bool) l :
  filter f (filter g l) = filter (fun x => g x && f x) l.
Proof.
  induction l as [|a l IH]; simpl; [reflexivity|].
  destruct (g a); simpl; [destruct (f a); now rewrite IH | exact IH].
Qed.

(** The stations of a list, the first occurrence of each kept. *)
Lemma fold_Set_add_firsts xs : forall acc,
  fold_left Set_add xs acc
  = acc ++ filter (fun y => negb (existsb (String.eqb y) acc)) (Set_of xs).
Proof.
  unfold Set_of.
  induction xs as [|x xs IH] using rev_ind; intros acc.
  - simpl. now rewrite app_nil_r.
  - rewrite !fold_left_app. simpl. rewrite (IH acc). clear IH.
    set (S0 := fold_left Set_add xs []).
    set (F := filter (fun y => negb (existsb (String.eqb y) acc)) S0).
    unfold Set_add.
    destruct (existsb (String.eqb x) S0) eqn:E0.
    + apply existsb_eqb_In in E0.
      destruct (existsb (String.eqb x) (acc ++ F)) eqn:E1; [reflexivity|].
      exfalso. destruct (existsb (String.eqb x) acc) eqn:Ea.
      * apply existsb_eqb_In in Ea.
        assert (In x (acc ++ F)) as H by (apply in_or_app; now left).
        apply existsb_eqb_In in H. congruence.
      * assert (In x (acc ++ F)) as H.
        { apply in_or_app. right. apply filter_In. split; [exact E0 | now rewrite Ea]. }
        apply existsb_eqb_In in H. congruence.
    + rewrite filter_app. fold F. simpl.
      destruct (existsb (String.eqb x) acc) eqn:Ea; simpl.
      * rewrite app_nil_r.
        assert (In x (acc ++ F)) as H.
        { apply in_or_app. left. now apply existsb_eqb_In. }
        apply existsb_eqb_In in H. now rewrite H.
      * destruct (existsb (String.eqb x) (acc ++ F)) eqn:E1.
        -- exfalso. apply existsb_eqb_In in E1. apply in_app_or in E1.
           destruct E1 as [H|H].
           ++ apply existsb_eqb_In in H. congruence.
           ++ apply filter_In in H. destruct H as [H _].
              apply existsb_eqb_In in H. congruence.
        -- now rewrite app_assoc.
Qed.

Lemma Set_of_cons x xs :
  Set_of (x :: xs) = x :: filter (fun y => negb (String.eqb y x)) (Set_of xs).
Proof.
  unfold Set_of at 1. simpl. unfold Set_add at 1. simpl.
  rewrite fold_Set_add_firsts. simpl. f_equal.
  apply filter_ext. intros y. now rewrite orb_false_r.
Qed.

(** X1. [getStations] lists every station of the data once, and no other
    string; the station of the first entry comes first, followed by the
    stations of the other entries without it: the stations stand in the
    order of their first occurrence. *)
Theorem stations_once_in_order (rawData : list RawDataEntry) :
  NoDup (getStations rawData)
  /\ (forall station, In station (getStations rawData)
        <-> exists d, In d rawData /\ measuring_point d = station)
  /\ getStations [] = []
  /\ (forall d rest,
        getStations (d :: rest)
        = measuring_point d
            :: filter (fun station => negb (String.eqb station (measuring_point d)))
                      (getStations rest)).
Proof.
  unfold getStations. repeat split.
  - apply fold_Set_add_NoDup. constructor.
  - intros H. apply fold_Set_add_In in H. destruct H as [[]|H].
    apply in_map_iff in H. destruct H as (d & E & Hd). eauto.
  - intros (d & Hd & <-). apply fold_Set_add_In. right. now apply in_map.
  - intros d rest. simpl map. apply Set_of_cons.
Qed.

End StationList.

Section StationSeries.

Variable UTC : Z -> Z.

Lemma snd_mapLogged_normalizeDate rawData :
  snd (mapLogged (normalizeDate UTC) rawData) = flat_map (dateWarning UTC) rawData.
Proof.
  induction rawData as [|d rest IH]; simpl; [reflexivity|].
  unfold normalizeDate at 1, dateWarning at 1.
  destruct (JsDate.timeParse_dmY UTC (extraction_date d));
    destruct (mapLogged (normalizeDate UTC) rest); simpl in *; now rewrite IH.
Qed.

Lemma snd_filterDataByStation_logged rawData station :
  snd (filterDataByStation_logged UTC rawData station) = flat_map (dateWarning UTC) rawData.
Proof.
  unfold filterDataByStation_logged, parsedData.
  rewrite <- snd_mapLogged_normalizeDate.
  destruct (mapLogged (normalizeDate UTC) rawData). reflexivity.
Qed.

(** X2. The warnings of a call do not depend on the station asked for:
    every entry whose date does not parse is reported, in the order of the
    data, whatever its own station, because the dates are parsed before the
    entries are filtered by station; and an entry whose date parses is
    never reported. *)
Theorem warnings_for_every_station (rawData : list RawDataEntry) (station : string) :
  snd (filterDataByStation_logged UTC rawData station)
  = flat_map (dateWarning UTC) rawData
  /\ (forall station',
        snd (filterDataByStation_logged UTC rawData station')
        = snd (filterDataByStation_logged UTC rawData station))
  /\ List.length (snd (filterDataByStation_logged UTC rawData station))
     = List.length (filter (fun d => match JsDate.timeParse_dmY UTC (extraction_date d) with
                                     | None => true | Some _ => false end) rawData).
Proof.
  rewrite snd_filterDataByStation_logged. repeat split.
  - intros station'. now rewrite snd_filterDataByStation_logged.
  - induction rawData as [|d rest IH]; simpl; [reflexivity|].
    rewrite length_app, IH. unfold dateWarning.
    destruct (JsDate.timeParse_dmY UTC (extraction_date d)); reflexivity.
Qed.

(** X3. Each entry is processed on its own: the points and the warnings
    for data given in two parts are those of the first part followed by
    those of the second. *)
Theorem series_of_concatenated_data (xs ys : list RawDataEntry) (station : string) :
  filterDataByStation_logged UTC (xs ++ ys) station
  = (filterDataByStation UTC xs station ++ filterDataByStation UTC ys station,
     snd (filterDataByStation_logged UTC xs station)
       ++ snd (filterDataByStation_logged UTC ys station)).
Proof. apply filterDataByStation_logged_app. Qed.

(** X4. A station that [getStations] does not list has an empty series,
    and so has any station when the data are empty; the series of a
    station never holds more points than the data hold entries of that
    station. *)
Theorem series_of_unknown_station (rawData : list RawDataEntry) (station : string) :
  (~ In station (getStations rawData) -> filterDataByStation UTC rawData station = [])
  /\ filterDataByStation UTC [] station = []
  /\ (List.length (filterDataByStation UTC rawData station)
      <= List.length (filter (fun d => String.eqb (measuring_point d) station) rawData))%nat.
Proof.
  repeat split.
  - intros H.
    destruct (filterDataByStation UTC rawData station) as [|p l] eqn:E; [reflexivity|].
    exfalso. apply H.
    destruct (filterDataByStation_origin UTC rawData station p) as (s & Hs & Hst & _).
    { rewrite E. now left. }
    unfold getStations, Set_of. apply fold_Set_add_In. right.
    rewrite <- Hst. now apply in_map.
  - induction rawData as [|d rest IH]; simpl; [apply Nat.le_refl|].
    rewrite filterDataByStation_cons, length_app, filterDataByStation_one.
    destruct (String.eqb (measuring_point d) station);
      destruct (JsDate.timeParse_dmY UTC (extraction_date d));
      try destruct (testMeans (results d)); simpl; lia.
Qed.

(** X5. In every point of a series, [min] and [max] are test-level means
    of the sample the point comes from, and [min] does not exceed
    [max]. *)
Theorem min_not_above_max (rawData : list RawDataEntry) (station : string)
    (p : ProcessedEntry) (lo hi : float) :
  In p (filterDataByStation UTC rawData station) ->
  min p = Some lo -> max p = Some hi ->
  (lo <=? hi)%float = true
  /\ exists s, In s rawData /\ measuring_point s = station
               /\ In lo (testMeans (results s)) /\ In hi (testMeans (results s)).
Proof.
  intros Hp Hlo Hhi.
  destruct (filterDataByStation_origin UTC rawData station p Hp)
    as (s & Hs & Hst & _ & _ & Ep).
  rewrite Ep in Hlo, Hhi. cbn [min max pointOf] in Hlo, Hhi.
  apply min_Some in Hlo. apply max_Some in Hhi.
  destruct Hlo as (Ilo & Nlo & Hmin). destruct Hhi as (Ihi & Nhi & _).
  split; [now apply Hmin | exists s; auto].
Qed.

(** X6. On an array, the earlier revision, which parses the date last
    and prints nothing, returns the points of the later one. *)
Theorem revisions_agree_on_arrays (rawData : list RawDataEntry) (station : string) :
  Guarded.filterDataByStation UTC (IsArray rawData) station
  = Return (filterDataByStation UTC rawData station)
  /\ Guarded.getStations (IsArray rawData) = Return (getStations rawData, []).
Proof.
  split; [|reflexivity].
  unfold Guarded.filterDataByStation. f_equal.
  induction rawData as [|d rest IH]; [reflexivity|].
  rewrite filterDataByStation_cons, filterDataByStation_one, <- IH. simpl.
  unfold Guarded.aggregateEntry.
  destruct (String.eqb (measuring_point d) station); simpl;
    destruct (JsDate.timeParse_dmY UTC (extraction_date d)); simpl; try reflexivity.
  destruct (testMeans (results d)); reflexivity.
Qed.

End StationSeries.
(* ================================================================== *)
(** * Reading numbers and dates *)

Section Reading.

Local Open Scope string_scope.

Lemma prefix_comma c s :
  String.prefix "," (String c s) = if ascii_dec "," c then true else false.
Proof.
  cbn [String.prefix]. destruct (ascii_dec "," c); [destruct s|]; reflexivity.
Qed.

Lemma replace_first_comma a : forall b,
  JsString.includes a "," = false ->
  JsString.replace (a ++ "," ++ b) "," "." = a ++ "." ++ b.
Proof.
  induction a as [|c a IH]; intros b H.
  - cbn [append JsString.replace]. rewrite prefix_comma.
    destruct (ascii_dec "," ","); [reflexivity | congruence].
  - rewrite includes_unfold, prefix_comma in H.
    cbn [append JsString.replace]. rewrite prefix_comma.
    destruct (ascii_dec "," c); [discriminate|].
    f_equal. apply IH, H.
Qed.

Lemma replace_no_comma s :
  JsString.includes s "," = false -> JsString.replace s "," "." = s.
Proof.
  induction s as [|c s IH]; intros H; [reflexivity|].
  rewrite includes_unfold, prefix_comma in H.
  cbn [JsString.replace]. rewrite prefix_comma.
  destruct (ascii_dec "," c); [discriminate|].
  f_equal. apply IH, H.
Qed.

(** X7. A copy number written with a decimal comma is read as the number
    written with a point in its place: the first comma of the text is the
    decimal sign. A text without a comma is read as it stands. The value is
    kept unless it is [NaN]. *)
Theorem decimal_comma_read_as_point (values : list float) (name a b : string) :
  JsString.startsWith name "copy_number_" = true ->
  JsString.includes a "," = false ->
  let read (text : string) :=
    pushParameter values (Some {| param_name := Some name; param_result := ResultString text |}) in
  let kept (v : float) := if PrimFloat.is_nan v then values else (values ++ [v])%list in
  read (a ++ "," ++ b) = kept (JsNumber.parseFloat (a ++ "." ++ b))
  /\ read a = kept (JsNumber.parseFloat a).
Proof.
  intros Hn Ha read kept. unfold read, kept, pushParameter. cbn [param_name param_result].
  rewrite Hn. cbn [negb]. rewrite replace_first_comma, replace_no_comma by exact Ha.
  unfold JsNumber.isNaN.
  split; [destruct (PrimFloat.is_nan (JsNumber.parseFloat (a ++ "." ++ b)))
         | destruct (PrimFloat.is_nan (JsNumber.parseFloat a))]; reflexivity.
Qed.

Lemma digit_not_space c : JsString.isDigit c = true -> JsString.isWhiteSpace c = false.
Proof.
  unfold JsString.isDigit, JsString.isWhiteSpace. intros H.
  apply andb_true_iff in H. destruct H as [H1 H2].
  apply N.leb_le in H1. apply N.leb_le in H2.
  repeat match goal with
         | |- context [(?a <=? ?b)%N] => destruct (N.leb_spec a b)
         | |- context [(?a =? ?b)%N] => destruct (N.eqb_spec a b)
         end; simpl; try reflexivity; lia.
Qed.

Lemma takeDigits_digits ds : forall w rest,
  Forall (fun c => JsString.isDigit c = true) ds ->
  (List.length ds <= w)%nat ->
  List.length ds = w \/ endsNumber rest ->
  JsDate.takeDigits w (string_of_list_ascii ds ++ rest) = (ds, rest).
Proof.
  induction ds as [|c ds IH]; intros w rest F L E.
  - simpl. destruct w; [reflexivity|].
    destruct E as [E|E]; [discriminate|].
    destruct rest; [reflexivity|]. simpl in *. now rewrite E.
  - inversion F; subst. destruct w; [simpl in L; lia|].
    simpl. match goal with H : JsString.isDigit c = true |- _ => rewrite H end.
    rewrite IH; auto; simpl in *; [lia|]. destruct E; [left; lia | now right].
Qed.

Lemma parseNumber_digits w ds rest :
  digitsUpTo w ds ->
  List.length ds = w \/ endsNumber rest ->
  JsDate.parseNumber w (string_of_list_ascii ds ++ rest)
  = Some (JsString.decimalValue ds, rest).
Proof.
  intros (F & L1 & L2) E. unfold JsDate.parseNumber.
  destruct ds as [|c ds]; [simpl in L1; lia|].
  destruct w; [lia|]. inversion F; subst.
  assert (JsDate.skipWhiteSpace (S w) (string_of_list_ascii (c :: ds) ++ rest)
          = (S w, string_of_list_ascii (c :: ds) ++ rest)) as ->.
  { simpl. now rewrite digit_not_space. }
  rewrite takeDigits_digits; auto.
Qed.

(** X8. Every text of the shape day, point, month, point, year (one or
    two digits, one or two digits, one to four digits) parses, whatever the
    numbers: a day or a month outside the calendar is not rejected but
    carried over by the [Date] constructor, so such an entry is never
    skipped. *)
Theorem written_date_always_parses (UTC : Z -> Z) (dd mm yyyy : list ascii) :
  digitsUpTo 2 dd -> digitsUpTo 2 mm -> digitsUpTo 4 yyyy ->
  JsDate.timeParse_dmY UTC
    (string_of_list_ascii dd ++ "." ++ string_of_list_ascii mm ++ "."
       ++ string_of_list_ascii yyyy)
  = Some (JsDate.localDate UTC (JsString.decimalValue yyyy)
            (JsString.decimalValue mm - 1) (JsString.decimalValue dd)).
Proof.
  intros Hd Hm Hy. unfold JsDate.timeParse_dmY.
  rewrite parseNumber_digits; [|exact Hd | right; reflexivity].
  cbn [JsDate.bind append JsDate.expect Ascii.eqb Bool.eqb].
  rewrite parseNumber_digits; [|exact Hm | right; reflexivity].
  cbn [JsDate.bind append JsDate.expect Ascii.eqb Bool.eqb].
  replace (string_of_list_ascii yyyy) with (string_of_list_ascii yyyy ++ "").
  2:{ clear. induction (string_of_list_ascii yyyy); simpl; congruence. }
  rewrite parseNumber_digits; [|exact Hy | right; exact I].
  reflexivity.
Qed.

End Reading.

(* ================================================================== *)
(** * The range of the dates of a series *)

Module DateRange.
Import JsDate.
Local Open Scope Z_scope.

Lemma digitValue_range c : JsString.isDigit c = true -> 0 <= JsString.digitValue c <= 9.
Proof.
  unfold JsString.isDigit, JsString.digitValue. intros H.
  apply andb_true_iff in H. destruct H as [H1 H2].
  apply N.leb_le in H1. apply N.leb_le in H2. lia.
Qed.

Lemma fold_decimal_range ds : forall acc,
  Forall (fun c => JsString.isDigit c = true) ds -> 0 <= acc ->
  0 <= fold_left (fun acc c => 10 * acc + JsString.digitValue c) ds acc
    < (acc + 1) * 10 ^ Z.of_nat (List.length ds).
Proof.
  induction ds as [|c ds IH]; intros acc F Hacc.
  - simpl. lia.
  - inversion F as [|? ? Hc F']; subst. apply digitValue_range in Hc.
    cbn [fold_left]. specialize (IH (10 * acc + JsString.digitValue c) F').
    change (List.length (c :: ds)) with (S (List.length ds)).
    rewrite Nat2Z.inj_succ, Z.pow_succ_r by lia.
    pose proof (IsoFacts.pow10_pos (List.length ds)). nia.
Qed.

Lemma decimalValue_range ds w :
  Forall (fun c => JsString.isDigit c = true) ds -> (List.length ds <= w)%nat ->
  0 <= JsString.decimalValue ds < 10 ^ Z.of_nat w.
Proof.
  intros F L. pose proof (fold_decimal_range ds 0 F (Z.le_refl 0)) as H.
  unfold JsString.decimalValue. split; [lia|].
  apply Z.lt_le_trans with (10 ^ Z.of_nat (List.length ds)); [lia|].
  apply Z.pow_le_mono_r; lia.
Qed.

Lemma takeDigits_range w : forall s ds r,
  takeDigits w s = (ds, r) ->
  Forall (fun c => JsString.isDigit c = true) ds /\ (List.length ds <= w)%nat.
Proof.
  induction w as [|w IH]; intros s ds r H.
  - destruct s; inversion H; subst; split; simpl; auto.
  - destruct s as [|c s]; [inversion H; subst; split; simpl; auto; lia|].
    simpl in H. destruct (JsString.isDigit c) eqn:Ec.
    + destruct (takeDigits w s) as [ds' r'] eqn:E. inversion H; subst.
      destruct (IH _ _ _ E) as [F L]. split; [constructor; auto | simpl; lia].
    + inversion H; subst. split; simpl; auto; lia.
Qed.

Lemma skipWhiteSpace_width w : forall s w' s',
  skipWhiteSpace w s = (w', s') -> (w' <= w)%nat.
Proof.
  induction w as [|w IH]; intros s w' s' H.
  - destruct s; inversion H; lia.
  - destruct s as [|c s]; [inversion H; lia|].
    simpl in H. destruct (JsString.isWhiteSpace c).
    + apply IH in H. lia.
    + inversion H; lia.
Qed.

Lemma parseNumber_range w s v r :
  parseNumber w s = Some (v, r) -> 0 <= v < 10 ^ Z.of_nat w.
Proof.
  unfold parseNumber. destruct (skipWhiteSpace w s) as [w' s1] eqn:E1.
  destruct (takeDigits w' s1) as [ds s2] eqn:E2.
  apply skipWhiteSpace_width in E1. apply takeDigits_range in E2. destruct E2 as [F L].
  destruct ds as [|c ds]; [discriminate|]. intros H. inversion H; subst.
  apply decimalValue_range; [exact F | lia].
Qed.

Lemma timeParse_fields UTC s t :
  timeParse_dmY UTC s = Some t ->
  exists y m d, 0 <= y < 10000 /\ 0 <= m < 100 /\ 0 <= d < 100
                /\ t = localDate UTC y (m - 1) d.
Proof.
  unfold timeParse_dmY, bind.
  destruct (parseNumber 2 s) as [[d s1]|] eqn:Ed; [|discriminate].
  destruct (expect "." s1) as [s2|]; [|discriminate].
  destruct (parseNumber 2 s2) as [[m s3]|] eqn:Em; [|discriminate].
  destruct (expect "." s3) as [s4|]; [|discriminate].
  destruct (parseNumber 4 s4) as [[y s5]|] eqn:Ey; [|discriminate].
  destruct s5; [|discriminate]. intros H. inversion H; subst.
  apply parseNumber_range in Ed, Em, Ey.
  exists y, m, d. repeat split; try (simpl in *; lia).
Qed.

Lemma monthStart_range leap m : 0 <= m <= 11 -> 0 <= monthStart leap m <= 335.
Proof.
  intros H.
  assert (m = 0 \/ m = 1 \/ m = 2 \/ m = 3 \/ m = 4 \/ m = 5 \/ m = 6 \/ m = 7
          \/ m = 8 \/ m = 9 \/ m = 10 \/ m = 11) as C by lia.
  destruct leap; repeat (destruct C as [->|C]; [simpl; lia|]); subst; simpl; lia.
Qed.

Lemma MakeDay_range y m d :
  -1 <= y <= 9999 -> -1 <= m <= 98 -> 0 <= d <= 99 ->
  -720259 <= MakeDay y m d <= 2936253.
Proof.
  intros Hy Hm Hd. unfold MakeDay.
  assert (-2 <= y + m / 12 <= 10008) as Hym by CalendarFacts.zdiv.
  assert (0 <= m mod 12 <= 11) as Hmn by CalendarFacts.zdiv.
  pose proof (monthStart_range (InLeapYear (y + m / 12)) (m mod 12) Hmn).
  pose proof (CalendarFacts.DayFromYear_mono (-2) (y + m / 12) (proj1 Hym)) as L.
  pose proof (CalendarFacts.DayFromYear_mono (y + m / 12) 10008 (proj2 Hym)) as U.
  change (DayFromYear (-2)) with (-720258) in L.
  change (DayFromYear 10008) with 2935819 in U. lia.
Qed.

Lemma localDate_range UTC y m d :
  boundedOffset UTC ->
  0 <= y < 10000 -> -1 <= m <= 98 -> 0 <= d <= 99 ->
  -62300000000000 <= localDate UTC y m d <= 253800000000000.
Proof.
  intros B Hy Hm Hd. unfold localDate.
  destruct ((0 <=? y) && (y <? 100)) eqn:E.
  - set (t := MakeDate (MakeDay (-1) m d) 0).
    pose proof (CalendarFacts.MonthFromTime_range t) as Hmo.
    pose proof (CalendarFacts.DateFromTime_range t) as Hda.
    pose proof (CalendarFacts.daysInMonth_range (YearFromTime t) (MonthFromTime t) Hmo).
    pose proof (CalendarFacts.TimeWithinDay_range t) as Htw.
    pose proof (MakeDay_range y (MonthFromTime t) (DateFromTime t)) as R.
    specialize (B (MakeDate (MakeDay y (MonthFromTime t) (DateFromTime t)) (TimeWithinDay t))).
    unfold MakeDate, msPerDay in *. lia.
  - pose proof (MakeDay_range y m d) as R.
    specialize (B (MakeDate (MakeDay y m d) 0)).
    unfold MakeDate, msPerDay in *. lia.
Qed.

Lemma timeParse_valid UTC s t :
  boundedOffset UTC -> timeParse_dmY UTC s = Some t -> validTime t.
Proof.
  intros B H. apply timeParse_fields in H.
  destruct H as (y & m & d & Hy & Hm & Hd & ->).
  pose proof (localDate_range UTC y (m - 1) d B). unfold validTime. lia.
Qed.

End DateRange.

Lemma filterDataByStation_valid UTC rawData station :
  boundedOffset UTC -> Forall validTime (map date (filterDataByStation UTC rawData station)).
Proof.
  intros B. apply Forall_forall. intros t Ht. apply in_map_iff in Ht.
  destruct Ht as (p & <- & Hp).
  destruct (filterDataByStation_origin UTC rawData station p Hp) as (s & _ & _ & Hd & _).
  exact (DateRange.timeParse_valid UTC _ _ B Hd).
Qed.

(** X9. Whatever the data, the dates of a series are valid time values:
    the parser reads a day and a month below 100 and a year below 10000,
    so every date lies between the years -5 and 10013, well inside the
    range of [Date] (the host's local time differing from the time value by
    a day at most). What the composite series assumes of its input holds of
    every series the aggregation produces. *)
Theorem series_dates_are_valid (UTC : Z -> Z) (rawData : list RawDataEntry)
    (station : string) :
  boundedOffset UTC ->
  Forall (fun p => validTime (date p)
                   /\ (-62300000000000 <= date p <= 253800000000000)%Z)
         (filterDataByStation UTC rawData station).
Proof.
  intros B. apply Forall_forall. intros p Hp.
  destruct (filterDataByStation_origin UTC rawData station p Hp) as (s & _ & _ & Hd & _).
  split; [exact (DateRange.timeParse_valid UTC _ _ B Hd)|].
  apply DateRange.timeParse_fields in Hd.
  destruct Hd as (y & m & d & Hy & Hm & Hd & ->).
  apply DateRange.localDate_range; auto; lia.
Qed.

(* ================================================================== *)
(** * The bound and the composite under reordering *)

Section Regrouping.

Local Open Scope float_scope.

Lemma nonNull_perm {A} (xs ys : list (option A)) :
  Permutation xs ys -> Permutation (nonNull xs) (nonNull ys).
Proof.
  induction 1 as [|x xs ys _ IH|x y xs|xs ys zs _ IH1 _ IH2]; simpl.
  - constructor.
  - destruct x; [now constructor | exact IH].
  - destruct x, y; try reflexivity; try apply perm_swap.
  - now transitivity (nonNull ys).
Qed.

Lemma allValues_concat datasets :
  allValues datasets = nonNull (map value (List.concat datasets)).
Proof.
  unfold allValues, defined. f_equal.
  induction datasets as [|d ds IH]; simpl; [reflexivity|].
  now rewrite map_app, IH.
Qed.

Lemma isMaximum_perm m l l' : Permutation l l' -> isMaximum m l -> isMaximum m l'.
Proof.
  intros P (I & N & H). split; [|split]; auto.
  - eapply Permutation_in; eauto.
  - intros x Hx. apply H. eapply Permutation_in; [symmetry|]; eauto.
Qed.

Lemma max_perm_bound l l' :
  Permutation l l' ->
  match d3.max l with
  | Some max => if JsNumber.truthy max then JsNumber.Math_round (max * 1.1) else 0
  | None => 0
  end
  = match d3.max l' with
    | Some max => if JsNumber.truthy max then JsNumber.Math_round (max * 1.1) else 0
    | None => 0
    end.
Proof.
  intros P.
  destruct (d3.max l) as [m|] eqn:E, (d3.max l') as [m'|] eqn:E'.
  - apply max_Some in E, E'. apply (isMaximum_perm _ _ _ P) in E.
    destruct (isMaximum_unique _ _ _ E E') as [->|[Z Z']]; [reflexivity|].
    unfold JsNumber.truthy. now rewrite Z, Z', !orb_true_r.
  - apply max_Some in E. destruct E as (I & N & _).
    pose proof (max_None _ E' m (Permutation_in _ P I)). unfold number in N. congruence.
  - apply max_Some in E'. destruct E' as (I & N & _).
    pose proof (max_None _ E m' (Permutation_in _ (Permutation_sym P) I)).
    unfold number in N. congruence.
  - reflexivity.
Qed.

(** X10. The bound depends only on the points, not on how they are
    grouped into datasets nor on their order: two collections of datasets
    that hold the same points give the same bound. In particular the
    datasets can be joined into one. *)
Theorem bound_of_regrouped_points (datasets datasets' : list (list ProcessedEntry)) :
  (Permutation (List.concat datasets) (List.concat datasets') ->
   getGlobalMaxFromProcessedDatasets datasets
   = getGlobalMaxFromProcessedDatasets datasets')
  /\ getGlobalMaxFromProcessedDatasets datasets
     = getGlobalMaxFromProcessedDatasets [List.concat datasets].
Proof.
  assert (forall ds ds', Permutation (List.concat ds) (List.concat ds') ->
            getGlobalMaxFromProcessedDatasets ds = getGlobalMaxFromProcessedDatasets ds') as H.
  { intros ds ds' P. rewrite !getGlobalMax_unfold. apply max_perm_bound.
    rewrite !allValues_concat. apply nonNull_perm. now apply Permutation_map. }
  split; [apply H|]. apply H. simpl. now rewrite app_nil_r.
Qed.

End Regrouping.

Section StringOrder.

Lemma stringLe_antisym a b : stringLe a b -> stringLe b a -> a = b.
Proof. unfold stringLe. apply String.leb_antisym. Qed.

(** A list has one sorted arrangement. *)
Lemma sorted_perm_unique l : forall l',
  Sorted stringLe l -> Sorted stringLe l' -> Permutation l l' -> l = l'.
Proof.
  intros l' S S'.
  apply Sorted_StronglySorted in S; [|exact stringLe_trans].
  apply Sorted_StronglySorted in S'; [|exact stringLe_trans].
  revert l' S'. induction S as [|a l S IH Ha]; intros l' S' P.
  - apply Permutation_nil in P. now subst.
  - destruct S' as [|b l' S' Hb].
    + apply Permutation_sym, Permutation_nil in P. discriminate.
    + assert (a = b) as ->.
      { rewrite Forall_forall in Ha, Hb.
        assert (In a (b :: l')) as Ia by (eapply Permutation_in; [exact P | now left]).
        assert (In b (a :: l)) as Ib
            by (eapply Permutation_in; [symmetry; exact P | now left]).
        destruct Ia as [->|Ia]; [reflexivity|].
        destruct Ib as [->|Ib]; [reflexivity|].
        apply stringLe_antisym; auto. }
      f_equal. apply IH; [exact S'|]. eapply Permutation_cons_inv; eauto.
Qed.

Lemma Array_sort_perm_eq l l' : Permutation l l' -> Array_sort l = Array_sort l'.
Proof.
  intros P. apply sorted_perm_unique; try apply Array_sort_sorted.
  rewrite !Array_sort_perm. exact P.
Qed.

End StringOrder.

Section ReorderedSeries.

Variable pop : PopulationData.

Lemma getValue_perm t r r' :
  Permutation r r' -> NoDup (map date r) -> getValue t r = getValue t r'.
Proof.
  intros P ND.
  assert (NoDup (map date r')) as ND'
      by (eapply Permutation_NoDup; [apply Permutation_map; exact P | exact ND]).
  assert (forall l, NoDup (map date l) ->
            forall e, In e l -> date e = t ->
                      find (fun e => Z.eqb (date e) t) l = Some e) as F.
  { induction l as [|x l IH]; intros N e He Et; [destruct He|].
    simpl in *. inversion N as [|? ? Hx N']; subst.
    destruct (Z.eqb_spec (date x) (date e)) as [E|E].
    - destruct He as [->|He]; [reflexivity|].
      exfalso. apply Hx. rewrite E. now apply in_map.
    - destruct He as [->|He]; [congruence|]. now apply IH. }
  unfold getValue.
  destruct (find (fun e => Z.eqb (date e) t) r) as [e|] eqn:E.
  - apply find_some in E. destruct E as [He Et]. apply Z.eqb_eq in Et.
    rewrite (F r' ND' e); auto. eapply Permutation_in; eauto.
  - destruct (find (fun e => Z.eqb (date e) t) r') as [e'|] eqn:E'; [|reflexivity].
    apply find_some in E'. destruct E' as [He Et].
    pose proof (find_none _ _ E e' (Permutation_in _ (Permutation_sym P) He)) as C.
    cbv beta in C. congruence.
Qed.

Lemma Set_of_perm xs ys : Permutation xs ys -> Permutation (Set_of xs) (Set_of ys).
Proof.
  intros P. apply NoDup_Permutation.
  - apply fold_Set_add_NoDup. constructor.
  - apply fold_Set_add_NoDup. constructor.
  - intros x. unfold Set_of. rewrite !fold_Set_add_In. simpl.
    split; intros [[]|H]; right;
      [exact (Permutation_in _ P H) | exact (Permutation_in _ (Permutation_sym P) H)].
Qed.

(** X11. The composite series does not depend on the order of the points
    within the three series, as long as no series holds a date twice: the
    dates are sorted anew and each value is looked up by its date. *)
Theorem composite_of_reordered_series (r r' s s' w w' : list ProcessedEntry) :
  Permutation r r' -> Permutation s s' -> Permutation w w' ->
  NoDup (map date r) -> NoDup (map date s) -> NoDup (map date w) ->
  computeWeightedSeries pop r s w = computeWeightedSeries pop r' s' w'.
Proof.
  intros Pr Ps Pw Nr Ns Nw.
  assert (Permutation (allDates r s w) (allDates r' s' w')) as PD.
  { unfold allDates. apply Permutation_map. repeat apply Permutation_app; assumption. }
  assert (sortedDates r s w = sortedDates r' s' w') as ES.
  { rewrite !sortedDates_spec. apply Array_sort_perm_eq, Set_of_perm.
    now apply Permutation_map. }
  assert (forall iso res,
            pushDate pop r s w res iso = pushDate pop r' s' w' res iso) as EP.
  { intros iso res. unfold pushDate. destruct (JsDate.ofISOString iso) as [t|]; [|reflexivity].
    now rewrite (getValue_perm t r r' Pr Nr), (getValue_perm t s s' Ps Ns),
      (getValue_perm t w w' Pw Nw). }
  unfold computeWeightedSeries. rewrite <- ES. clear ES.
  generalize (@nil ProcessedEntry).
  induction (sortedDates r s w) as [|iso isos IH]; intros res; simpl; [reflexivity|].
  rewrite EP. apply IH.
Qed.

(** X12. The text under which a date enters the set of dates identifies
    it: read back by [new Date], the text of a valid date gives that date
    again, so two dates have the same text only if they are the same
    instant, and every text of the sorted set becomes a date of the
    input. *)
Theorem date_key_round_trip (t t' : JsDate.Date) :
  validTime t ->
  JsDate.ofISOString (JsDate.toISOString t) = Some t
  /\ (validTime t' -> JsDate.toISOString t = JsDate.toISOString t' -> t = t').
Proof.
  intros V. split; [now apply IsoTheory.ofISOString_toISOString|].
  intros V' E. now apply IsoTheory.toISOString_inj.
Qed.

End ReorderedSeries.

(* ================================================================== *)
(** * [main.ts] *)

Section MainPage.

Variable UTC : Z -> Z.

Lemma fst_mapLogged {A B} (f : A -> B * list Diagnostic) xs :
  fst (mapLogged f xs) = map (fun x => fst (f x)) xs.
Proof.
  induction xs as [|x xs IH]; simpl; [reflexivity|].
  destruct (f x), (mapLogged f xs). simpl in *. now rewrite IH.
Qed.

Lemma snd_mapLogged {A B} (f : A -> B * list Diagnostic) xs :
  snd (mapLogged f xs) = flat_map (fun x => snd (f x)) xs.
Proof.
  induction xs as [|x xs IH]; simpl; [reflexivity|].
  destruct (f x), (mapLogged f xs). simpl in *. now rewrite IH.
Qed.

Lemma allProcessed_map rawData :
  Main.allProcessed UTC rawData
  = map (filterDataByStation UTC rawData) (getStations rawData).
Proof. unfold Main.allProcessed, Main.allProcessed_logged. now rewrite fst_mapLogged. Qed.

Lemma Array_indexOf_range xs x : (-1 <= Main.Array_indexOf xs x)%Z.
Proof.
  induction xs as [|y xs IH]; simpl; [lia|].
  destruct (String.eqb y x); [lia|].
  destruct (Z.ltb_spec (Main.Array_indexOf xs x) 0); lia.
Qed.

Lemma Array_indexOf_absent xs x : ~ In x xs -> Main.Array_indexOf xs x = (-1)%Z.
Proof.
  induction xs as [|y xs IH]; intros H; simpl; [reflexivity|].
  destruct (String.eqb_spec y x) as [E|E]; [exfalso; apply H; now left|].
  rewrite IH by (intros C; apply H; now right). reflexivity.
Qed.

Lemma Array_get_indexOf {A} (f : string -> A) xs x :
  In x xs -> Main.Array_get (map f xs) (Main.Array_indexOf xs x) = Some (f x).
Proof.
  induction xs as [|y xs IH]; intros H; [destruct H|]. simpl.
  destruct (String.eqb_spec y x) as [E|E]; [subst; reflexivity|].
  destruct H as [H|H]; [congruence|]. specialize (IH H).
  unfold Main.Array_get in *.
  pose proof (Array_indexOf_range xs x).
  destruct (Z.ltb_spec (Main.Array_indexOf xs x) 0) as [L|L]; [discriminate|].
  destruct (Z.ltb_spec (Main.Array_indexOf xs x + 1) 0) as [L'|L']; [lia|].
  replace (Z.to_nat (Main.Array_indexOf xs x + 1))
    with (S (Z.to_nat (Main.Array_indexOf xs x))) by lia.
  exact IH.
Qed.

Lemma Array_get_absent {A} (f : string -> A) xs x :
  ~ In x xs -> Main.Array_get (map f xs) (Main.Array_indexOf xs x) = None.
Proof. intros H. now rewrite Array_indexOf_absent. Qed.

Lemma present_station rawData plant :
  present rawData plant <-> In plant (getStations rawData).
Proof.
  unfold present, getStations, Set_of. rewrite fold_Set_add_In, in_map_iff.
  split.
  - intros (d & Hd & E). right. eauto.
  - intros [[]|(d & E & Hd)]. eauto.
Qed.

Lemma series_lookup rawData plant :
  Main.Array_get (Main.allProcessed UTC rawData)
                 (Main.Array_indexOf (getStations rawData) plant)
  = if in_dec string_dec plant (getStations rawData)
    then Some (filterDataByStation UTC rawData plant) else None.
Proof.
  rewrite allProcessed_map.
  destruct (in_dec string_dec plant (getStations rawData)) as [H|H].
  - now apply Array_get_indexOf.
  - now apply Array_get_absent.
Qed.

Lemma weightedCurve_unfold pop rawData :
  Main.weightedCurve UTC pop rawData
  = if in_dec string_dec Main.Klaerwerk_Ruhleben (getStations rawData) then
      if in_dec string_dec Main.Klaerwerk_Schoenerlinde (getStations rawData) then
        if in_dec string_dec Main.Klaerwerk_Wassmannsdorf (getStations rawData) then
          Return (computeWeightedSeries pop
                    (filterDataByStation UTC rawData Main.Klaerwerk_Ruhleben)
                    (filterDataByStation UTC rawData Main.Klaerwerk_Schoenerlinde)
                    (filterDataByStation UTC rawData Main.Klaerwerk_Wassmannsdorf))
        else Throw TypeError
      else Throw TypeError
    else Throw TypeError.
Proof.
  unfold Main.weightedCurve. cbv zeta. rewrite !series_lookup.
  repeat destruct (in_dec string_dec _ _); reflexivity.
Qed.

(** X13. The page draws the composite of the series of the three plants,
    found by their names among the stations, when each of them has an
    entry in the data; when one has none, its series is [undefined] and
    the preparation of the curve raises a [TypeError], which the handler of
    the page reports as a failure to load the data. *)
Theorem curve_needs_the_three_plants (pop : PopulationData)
    (rawData : list RawDataEntry) :
  ((forall plant, In plant plants -> present rawData plant) ->
   Main.weightedCurve UTC pop rawData
   = Return (computeWeightedSeries pop
               (filterDataByStation UTC rawData Main.Klaerwerk_Ruhleben)
               (filterDataByStation UTC rawData Main.Klaerwerk_Schoenerlinde)
               (filterDataByStation UTC rawData Main.Klaerwerk_Wassmannsdorf)))
  /\ (forall plant, In plant plants -> ~ present rawData plant ->
      Main.weightedCurve UTC pop rawData = Throw TypeError).
Proof.
  rewrite weightedCurve_unfold. split.
  - intros H.
    repeat match goal with
           | |- context [in_dec string_dec ?p ?l] =>
               destruct (in_dec string_dec p l) as [?|N];
               [|exfalso; apply N, present_station, H; simpl; auto]
           end.
    reflexivity.
  - intros plant Hp Hn. rewrite present_station in Hn.
    destruct Hp as [<-|[<-|[<-|[]]]];
      repeat match goal with
             | |- context [in_dec string_dec ?p ?l] =>
                 destruct (in_dec string_dec p l); try contradiction; try reflexivity
             end.
Qed.

(** X14. While the page prepares the series of all stations, an entry
    whose date does not parse is reported once for each station of the
    data: every call of [filterDataByStation] parses all the dates
    again. *)
Theorem warnings_once_per_station (rawData : list RawDataEntry) :
  Main.allProcessed UTC rawData
  = map (filterDataByStation UTC rawData) (getStations rawData)
  /\ snd (Main.allProcessed_logged UTC rawData)
     = List.concat (map (fun _ => flat_map (dateWarning UTC) rawData) (getStations rawData))
  /\ List.length (snd (Main.allProcessed_logged UTC rawData))
     = (List.length (getStations rawData)
        * List.length (flat_map (dateWarning UTC) rawData))%nat.
Proof.
  split; [apply allProcessed_map|].
  unfold Main.allProcessed_logged. rewrite snd_mapLogged.
  assert (forall l : list string,
            flat_map (fun x => snd (filterDataByStation_logged UTC rawData x)) l
            = List.concat (map (fun _ => flat_map (dateWarning UTC) rawData) l)) as E.
  { induction l as [|x l IH]; simpl; [reflexivity|].
    now rewrite IH, snd_filterDataByStation_logged. }
  rewrite E. split; [reflexivity|].
  induction (getStations rawData) as [|x l IH]; simpl; [reflexivity|].
  now rewrite length_app, IH.
Qed.

(** X15. Whatever the data, the curve the page draws holds no date
    twice, every point of it bears a date of the series of one of the three
    plants and has [min] and [max] equal to its value, which is a number or
    an infinity the weighted average produced; the dates are in ascending
    order when the years of the three series have four digits. *)
Theorem curve_of_any_data (pop : PopulationData) (rawData : list RawDataEntry)
    (curve : list ProcessedEntry) :
  boundedOffset UTC ->
  Main.weightedCurve UTC pop rawData = Return curve ->
  NoDup (map date curve)
  /\ (forall p, In p curve ->
        value p <> None /\ min p = value p /\ max p = value p
        /\ exists plant, In plant plants
                         /\ In (date p) (map date (filterDataByStation UTC rawData plant)))
  /\ ((forall plant, In plant plants ->
         Forall fourDigitYear (map date (filterDataByStation UTC rawData plant))) ->
      StronglySorted Z.lt (map date curve)).
Proof.
  intros B. rewrite weightedCurve_unfold.
  repeat match goal with
         | |- context [in_dec string_dec ?p ?l] =>
             destruct (in_dec string_dec p l); [|discriminate]
         end.
  intros H. inversion H as [E]. clear H E.
  set (r := filterDataByStation UTC rawData Main.Klaerwerk_Ruhleben).
  set (s := filterDataByStation UTC rawData Main.Klaerwerk_Schoenerlinde).
  set (w := filterDataByStation UTC rawData Main.Klaerwerk_Wassmannsdorf).
  assert (Forall validTime (allDates r s w)) as V.
  { unfold allDates. rewrite !map_app.
    apply Forall_app; split; [|apply Forall_app; split];
      apply filterDataByStation_valid; exact B. }
  destruct (computeWeightedSeries_spec pop r s w V) as (T & ET & ND & HT & E).
  rewrite E. repeat split.
  - rewrite map_date_entryFor. now apply NoDup_filter.
  - apply in_flat_map in H. destruct H as (t & Ht & Hp). unfold entryFor in Hp.
    destruct (computeWeightedAverage _ _ _ _); [|destruct Hp].
    destruct Hp as [<-|[]]. discriminate.
  - apply in_flat_map in H. destruct H as (t & Ht & Hp). unfold entryFor in Hp.
    destruct (computeWeightedAverage _ _ _ _); [|destruct Hp].
    destruct Hp as [<-|[]]. reflexivity.
  - apply in_flat_map in H. destruct H as (t & Ht & Hp). unfold entryFor in Hp.
    destruct (computeWeightedAverage _ _ _ _); [|destruct Hp].
    destruct Hp as [<-|[]]. reflexivity.
  - apply in_flat_map in H. destruct H as (t & Ht & Hp).
    rewrite (entryFor_date pop r s w t p Hp).
    apply HT in Ht. unfold allDates in Ht. rewrite !map_app in Ht.
    apply in_app_or in Ht. destruct Ht as [Ht|Ht].
    + exists Main.Klaerwerk_Ruhleben. split; [simpl; auto | exact Ht].
    + apply in_app_or in Ht. destruct Ht as [Ht|Ht].
      * exists Main.Klaerwerk_Schoenerlinde. split; [simpl; auto | exact Ht].
      * exists Main.Klaerwerk_Wassmannsdorf. split; [simpl; auto | exact Ht].
  - intros F. rewrite map_date_entryFor.
    apply StronglySorted_filter. apply sorted_strings_dates; [|exact ND|].
    + apply Forall_forall. intros t Ht. apply HT in Ht.
      unfold allDates in Ht. rewrite !map_app in Ht.
      pose proof (F Main.Klaerwerk_Ruhleben) as F1.
      pose proof (F Main.Klaerwerk_Schoenerlinde) as F2.
      pose proof (F Main.Klaerwerk_Wassmannsdorf) as F3.
      rewrite Forall_forall in F1, F2, F3.
      apply in_app_or in Ht. destruct Ht as [Ht|Ht]; [apply F1; simpl; auto|].
      apply in_app_or in Ht. destruct Ht as [Ht|Ht]; [apply F2 | apply F3]; simpl; auto.
    + rewrite <- ET. rewrite sortedDates_spec. apply Array_sort_sorted.
Qed.

End MainPage.

(* ================================================================== *)
(** * [validateForChart.js] *)

Section Validation.

Lemma checkValues_None index rIdx values : forall pIdx,
  Validate.checkValues index rIdx pIdx values = None
  <-> Forall (fun v => number (Validate.parseNumber v)) values.
Proof.
  induction values as [|v rest IH]; intros pIdx; simpl.
  - split; [constructor | reflexivity].
  - unfold JsNumber.isNaN.
    destruct (PrimFloat.is_nan (Validate.parseNumber v)) eqn:E.
    + split; [discriminate|]. intros H. inversion H; subst. unfold number in *. congruence.
    + rewrite IH. split; [now constructor | intros H; now inversion H].
Qed.

Lemma checkResult_None index rIdx r :
  Validate.checkResult index rIdx r = None
  <-> Validate.copyValues r <> []
      /\ Forall (fun v => number (Validate.parseNumber v)) (Validate.copyValues r).
Proof.
  unfold Validate.checkResult. destruct (Validate.copyValues r) as [|v vs] eqn:E.
  - split; [discriminate | intros [H _]; congruence].
  - rewrite checkValues_None. split; [intros H; split; [discriminate | exact H] | tauto].
Qed.

Lemma checkResults_None index rs : forall rIdx,
  Validate.checkResults index rIdx rs = None
  <-> forall r, In r rs ->
        Validate.copyValues r <> []
        /\ Forall (fun v => number (Validate.parseNumber v)) (Validate.copyValues r).
Proof.
  induction rs as [|r rs IH]; intros rIdx; simpl.
  - split; [intros _ r [] | reflexivity].
  - destruct (Validate.checkResult index rIdx r) eqn:E.
    + split; [discriminate|]. intros H.
      assert (Validate.checkResult index rIdx r = None) as C
          by (apply checkResult_None, H; now left).
      congruence.
    + rewrite IH. apply checkResult_None in E.
      split; [intros H r' [<-|Hr]; auto | intros H r' Hr; apply H; now right].
Qed.

Lemma validateChartRelevant_None sample index :
  snd (Validate.validateChartRelevant sample index) = None <-> acceptable sample.
Proof.
  unfold Validate.validateChartRelevant, acceptable.
  destruct (relevantResults (results sample)) as [|r rs] eqn:E.
  - simpl. split; [intros _ r [] | reflexivity].
  - cbn [snd]. apply checkResults_None.
Qed.



Lemma copyValue_valid p v :
  Validate.copyValue p = Some v -> number (Validate.parseNumber v) ->
  validValue p = Some (Validate.parseNumber v).
Proof.
  destruct p as [[[n|] res]|]; try discriminate.
  unfold Validate.copyValue, validValue. cbn [param_name param_result].
  destruct res as [t|x|]; try discriminate.
  destruct (JsString.startsWith n "copy_number_"); [|discriminate].
  intros E N. inversion E; subst. cbn [readResult].
  unfold Validate.parseNumber, number in *. now rewrite N.
Qed.

Lemma accepted_result_has_values r :
  Validate.copyValues r <> [] ->
  Forall (fun v => number (Validate.parseNumber v)) (Validate.copyValues r) ->
  validValues r <> [].
Proof.
  unfold Validate.copyValues, validValues.
  induction (match parameter r with Some ps => ps | None => [] end) as [|p ps IH];
    simpl; [congruence|].
  destruct (Validate.copyValue p) as [v|] eqn:E.
  - intros _ F. simpl in F. inversion F; subst.
    rewrite (copyValue_valid p v E) by assumption. discriminate.
  - intros N F. destruct (validValue p); [discriminate | now apply IH].
Qed.

Lemma one_mean_each rs :
  (forall r, In r rs ->
     Validate.copyValues r <> []
     /\ Forall (fun v => number (Validate.parseNumber v)) (Validate.copyValues r)) ->
  List.length (flat_map contribution rs) = List.length rs.
Proof.
  induction rs as [|r rs IH]; intros V; [reflexivity|].
  simpl. rewrite length_app, IH by (intros r' Hr; apply V; now right).
  destruct (V r (or_introl eq_refl)) as [N F].
  pose proof (accepted_result_has_values r N F) as Hv.
  rewrite contribution_spec, resultValues_validValues.
  destruct (validValues r); [congruence | reflexivity].
Qed.

(** X17. What the check accepts, the chart shows: a sample that passes
    [validateChartRelevant], has a relevant result and a date that parses
    gives exactly one point in the series of its station, and each of its
    relevant results gives one test-level mean. *)
Theorem validated_sample_is_charted (UTC : Z -> Z) (sample : RawDataEntry)
    (index : nat) (d : JsDate.Date) :
  snd (Validate.validateChartRelevant sample index) = None ->
  relevantResults (results sample) <> [] ->
  JsDate.timeParse_dmY UTC (extraction_date sample) = Some d ->
  List.length (testMeans (results sample))
  = List.length (relevantResults (results sample))
  /\ exists p, date p = d
               /\ filterDataByStation UTC [sample] (measuring_point sample) = [p].
Proof.
  intros V R D. apply validateChartRelevant_None in V.
  assert (List.length (testMeans (results sample))
          = List.length (relevantResults (results sample))) as L.
  { unfold testMeans. rewrite fold_pushResult. simpl. apply one_mean_each. exact V. }
  split; [exact L|].
  exists (pointOf d (testMeans (results sample))). split; [reflexivity|].
  rewrite filterDataByStation_one, D, String.eqb_refl.
  destruct (testMeans (results sample)); [|reflexivity].
  destruct (relevantResults (results sample)); [congruence | discriminate].
Qed.

End Validation.

(* ================================================================== *)
(** * [fetchLiveData.js] *)

Section FetchedRecords.

Local Open Scope float_scope.













End FetchedRecords.

Module FetchDates.
Import JsDate.
Local Open Scope Z_scope.
Local Open Scope string_scope.

Lemma digitChar_not_T k : (0 <= k <= 9)%Z -> Ascii.eqb (digitChar k) "T" = false.
Proof.
  intros H.
  assert (k = 0 \/ k = 1 \/ k = 2 \/ k = 3 \/ k = 4 \/ k = 5 \/ k = 6 \/ k = 7
          \/ k = 8 \/ k = 9)%Z as C by lia.
  repeat (destruct C as [->|C]; [reflexivity|]). subst. reflexivity.
Qed.

Lemma beforeT_pad w : forall n rest,
  Fetch.beforeT (pad w n ++ rest) = pad w n ++ Fetch.beforeT rest.
Proof.
  induction w as [|w IH]; intros n rest; [reflexivity|].
  cbn [pad append Fetch.beforeT].
  rewrite digitChar_not_T by apply IsoFacts.digit_range. now rewrite IH.
Qed.

Lemma beforeT_yearString y rest :
  Fetch.beforeT (yearString y ++ rest) = yearString y ++ Fetch.beforeT rest.
Proof.
  unfold yearString.
  destruct ((0 <=? y) && (y <=? 9999))%Z; [apply beforeT_pad|].
  destruct (y <? 0)%Z; cbn [append Fetch.beforeT Ascii.eqb Bool.eqb];
    now rewrite beforeT_pad.
Qed.

Lemma formatDate_fields t :
  Fetch.formatDate t
  = yearString (YearFromTime t) ++ "-" ++ pad 2 (MonthFromTime t + 1)
      ++ "-" ++ pad 2 (DateFromTime t).
Proof.
  unfold Fetch.formatDate, toISOString.
  rewrite beforeT_yearString. cbn [append Fetch.beforeT Ascii.eqb Bool.eqb].
  rewrite beforeT_pad. cbn [append Fetch.beforeT Ascii.eqb Bool.eqb].
  rewrite beforeT_pad. cbn [append Fetch.beforeT Ascii.eqb Bool.eqb].
  replace (pad 2 (DateFromTime t) ++ "") with (pad 2 (DateFromTime t)); [reflexivity|].
  induction (pad 2 (DateFromTime t)) as [|c s IH]; simpl; congruence.
Qed.

Lemma length_pad w n : String.length (pad w n) = w.
Proof. induction w as [|w IH]; simpl; congruence. Qed.

Lemma length_append (a b : string) :
  String.length (a ++ b) = (String.length a + String.length b)%nat.
Proof. induction a as [|c a IH]; simpl; congruence. Qed.

Lemma MakeDay_next y m d : MakeDay y m (d + 1) = MakeDay y m d + 1.
Proof. unfold MakeDay. lia. Qed.

Lemma addOneDay_local LocalTime UTC t :
  Fetch.addOneDay LocalTime UTC (Some t)
  = Fetch.TimeClip (UTC (LocalTime t + msPerDay)).
Proof.
  unfold Fetch.addOneDay. cbv zeta. f_equal. f_equal.
  rewrite MakeDay_next, CalendarFacts.MakeDay_fields.
  pose proof (CalendarFacts.MakeDate_fields (LocalTime t)) as H.
  unfold MakeDate in *. lia.
Qed.

End FetchDates.

(** X20. [formatDate] gives the calendar date of the instant in universal
    time: the year, the month and the day as [toISOString] prints them,
    whatever the time of day, so two instants of one day of universal time
    give the same text; the text has ten characters when the year has four
    digits. *)
Theorem formatDate_is_the_utc_day (t t' : JsDate.Date) :
  Fetch.formatDate t
  = (JsDate.yearString (JsDate.YearFromTime t) ++ "-"
       ++ JsDate.pad 2 (JsDate.MonthFromTime t + 1) ++ "-"
       ++ JsDate.pad 2 (JsDate.DateFromTime t))%string
  /\ (JsDate.Day t = JsDate.Day t' -> Fetch.formatDate t = Fetch.formatDate t')
  /\ (fourDigitYear t -> String.length (Fetch.formatDate t) = 10%nat).
Proof.
  split; [apply FetchDates.formatDate_fields|]. split.
  - intros E. rewrite !FetchDates.formatDate_fields.
    cbv [JsDate.YearFromTime JsDate.MonthFromTime JsDate.DateFromTime
         JsDate.DayWithinYear]. now rewrite E.
  - intros F. rewrite FetchDates.formatDate_fields.
    pose proof (IsoTheory.YearFromTime_fourDigit t F) as Y.
    unfold JsDate.yearString.
    destruct (Z.leb_spec 0 (JsDate.YearFromTime t)); [|lia].
    destruct (Z.leb_spec (JsDate.YearFromTime t) 9999); [|lia].
    cbn [andb]. rewrite !FetchDates.length_append, !FetchDates.length_pad. reflexivity.
Qed.

(** X21. [addOneDay] moves a valid date to the same local time of the
    next calendar day, over the ends of months and years as well: the
    local time is advanced by the length of a day. On a host whose local
    time is universal time plus a fixed offset, the date moves by exactly
    24 hours, unless that leaves the range of [Date]; an invalid date stays
    invalid. *)
Theorem addOneDay_is_the_next_day (LocalTime UTC : Z -> Z) (t offset : Z) :
  Fetch.addOneDay LocalTime UTC (Some t)
  = Fetch.TimeClip (UTC (LocalTime t + JsDate.msPerDay)%Z)
  /\ Fetch.addOneDay LocalTime UTC None = None
  /\ ((forall x, LocalTime x = x + offset)%Z -> (forall x, UTC x = x - offset)%Z ->
      validTime (t + JsDate.msPerDay)%Z ->
      Fetch.addOneDay LocalTime UTC (Some t) = Some (t + JsDate.msPerDay)%Z).
Proof.
  split; [apply FetchDates.addOneDay_local|]. split; [reflexivity|].
  intros HL HU V. rewrite FetchDates.addOneDay_local, HL, HU.
  replace (t + offset + JsDate.msPerDay - offset)%Z with (t + JsDate.msPerDay)%Z by lia.
  unfold Fetch.TimeClip, validTime in *.
  destruct (Z.leb_spec (Z.abs (t + JsDate.msPerDay)) 8640000000000000); [reflexivity | lia].
Qed.

(* ================================================================== *)
(** * [insert-header.js] *)

Section LicenceHeader.

Local Open Scope string_scope.

Variable extname : string -> string.




End LicenceHeader.

(* ================================================================== *)
(** * The further properties at concrete inputs *)

Lemma boundedOffset_plus1 : boundedOffset UTC_plus1.
Proof. intros t. unfold UTC_plus1, JsDate.msPerDay. lia. Defined.

(** X1, at the data with the three plants: four stations, in the order
    of their first entries. *)
Lemma stations_once_in_order_witness :
  getStations threePlants
  = [Main.Klaerwerk_Ruhleben; Main.Klaerwerk_Schoenerlinde; "X";
     Main.Klaerwerk_Wassmannsdorf]%string
  /\ NoDup (getStations threePlants)
  /\ In "X"%string (getStations threePlants).
Proof.
  destruct (stations_once_in_order threePlants) as (ND & HI & _ & _).
  split; [vm_compute; reflexivity|]. split; [exact ND|].
  apply HI. exists badDate. split; [|reflexivity]. simpl. auto.
Defined.

(** X4, at a station the data do not hold. *)
Lemma series_of_unknown_station_witness :
  ~ In "Y"%string (getStations threePlants)
  /\ filterDataByStation UTC_plus1 threePlants "Y" = [].
Proof.
  assert (~ In "Y"%string (getStations threePlants)) as N.
  { vm_compute. intros [H|[H|[H|[H|[]]]]]; discriminate H. }
  split; [exact N|].
  exact (proj1 (series_of_unknown_station UTC_plus1 threePlants "Y") N).
Defined.

(** X5, at scenario B: [min] 150, [max] 250. *)
Lemma min_not_above_max_witness :
  In {| date := feb1; value := Some 200; min := Some 150; max := Some 250 |}
     (filterDataByStation UTC_plus1 [badDate; scenarioB] "X")
  /\ (150 <=? 250) = true.
Proof.
  assert (In {| date := feb1; value := Some 200; min := Some 150; max := Some 250 |}
             (filterDataByStation UTC_plus1 [badDate; scenarioB] "X")) as H
      by (vm_compute; auto).
  split; [exact H|].
  exact (proj1 (min_not_above_max UTC_plus1 [badDate; scenarioB] "X" _ 150 250 H
                  eq_refl eq_refl)).
Defined.

(** X7, at a reading of scenario A. *)
Lemma decimal_comma_read_as_point_witness :
  pushParameter [] (copyNumber "copy_number_1" "100,5")
  = (if PrimFloat.is_nan (JsNumber.parseFloat "100.5") then []
     else [] ++ [JsNumber.parseFloat "100.5"])
  /\ JsNumber.parseFloat "100.5" = 100.5.
Proof.
  split; [|vm_compute; reflexivity].
  exact (proj1 (decimal_comma_read_as_point [] "copy_number_1" "100" "5"
                  eq_refl eq_refl)).
Defined.

(** X8, at 31 February 2022, which is read as 3 March 2022. *)
Lemma written_date_always_parses_witness :
  JsDate.timeParse_dmY UTC_plus1 "31.02.2022"
  = Some (JsDate.localDate UTC_plus1 2022 (2 - 1) 31)
  /\ JsDate.toISOString (JsDate.localDate UTC_plus1 2022 (2 - 1) 31)
     = "2022-03-02T23:00:00.000Z"%string.
Proof.
  split; [|vm_compute; reflexivity].
  apply (written_date_always_parses UTC_plus1 ["3"; "1"] ["0"; "2"] ["2"; "0"; "2"; "2"])%char;
    (split; [repeat constructor | simpl; lia]).
Defined.

(** X9, at the sample dated the thirteenth month of 9999. *)
Lemma series_dates_are_valid_witness :
  Forall (fun p => validTime (date p)
                   /\ (-62300000000000 <= date p <= 253800000000000)%Z)
         (filterDataByStation UTC_plus1 [lateYear] "X")
  /\ map date (filterDataByStation UTC_plus1 [lateYear] "X") = [jan2_10000].
Proof.
  split; [|vm_compute; reflexivity].
  exact (series_dates_are_valid UTC_plus1 [lateYear] "X" boundedOffset_plus1).
Defined.

(** X10, at the example series in two groupings. *)
Lemma bound_of_regrouped_points_witness :
  getGlobalMaxFromProcessedDatasets [ruhlebenExample; schoenerlindeExample]
  = getGlobalMaxFromProcessedDatasets [schoenerlindeExample ++ ruhlebenExample]
  /\ getGlobalMaxFromProcessedDatasets [ruhlebenExample; schoenerlindeExample] = 109.
Proof.
  split; [|vm_compute; reflexivity].
  apply (proj1 (bound_of_regrouped_points [ruhlebenExample; schoenerlindeExample]
                  [schoenerlindeExample ++ ruhlebenExample])).
  exact (Permutation_app_comm ruhlebenExample schoenerlindeExample).
Defined.

(** X11, at two points in the two orders. *)
Lemma composite_of_reordered_series_witness :
  computeWeightedSeries examplePopulation [point feb8 20; point feb1 10] [point feb1 40] []
  = computeWeightedSeries examplePopulation [point feb1 10; point feb8 20] [point feb1 40] [].
Proof.
  apply composite_of_reordered_series; try reflexivity; try apply perm_swap;
    repeat constructor; simpl; try (intros [H|[]]; discriminate H); tauto.
Defined.

(** X12, at the local midnight of 1 February 2022. *)
Lemma date_key_round_trip_witness :
  JsDate.ofISOString (JsDate.toISOString feb1) = Some feb1
  /\ JsDate.toISOString feb1 = "2022-01-31T23:00:00.000Z"%string.
Proof.
  split; [|vm_compute; reflexivity].
  apply (proj1 (date_key_round_trip feb1 feb1 ltac:(unfold validTime, feb1; lia))).
Defined.

(** X13, with the three plants, and without the third. *)
Lemma curve_needs_the_three_plants_witness :
  Main.weightedCurve UTC_plus1 examplePopulation threePlants
  = Return (computeWeightedSeries examplePopulation
              (filterDataByStation UTC_plus1 threePlants Main.Klaerwerk_Ruhleben)
              (filterDataByStation UTC_plus1 threePlants Main.Klaerwerk_Schoenerlinde)
              (filterDataByStation UTC_plus1 threePlants Main.Klaerwerk_Wassmannsdorf))
  /\ Main.weightedCurve UTC_plus1 examplePopulation twoPlants = Throw TypeError.
Proof.
  split.
  - apply (proj1 (curve_needs_the_three_plants UTC_plus1 examplePopulation threePlants)).
    intros plant [<-|[<-|[<-|[]]]]; unfold present, threePlants;
      [ exists (plantSample Main.Klaerwerk_Ruhleben "01.02.2022" "10")
      | exists (plantSample Main.Klaerwerk_Schoenerlinde "01.02.2022" "40")
      | exists (plantSample Main.Klaerwerk_Wassmannsdorf "08.02.2022" "20") ];
      (split; [simpl; tauto | reflexivity]).
  - apply (proj2 (curve_needs_the_three_plants UTC_plus1 examplePopulation twoPlants)
             Main.Klaerwerk_Wassmannsdorf); [simpl; tauto|].
    intros (d & [<-|[<-|[]]] & E); vm_compute in E; discriminate E.
Defined.

(** X15, at the data with the three plants: two dates, in order. *)
Lemma curve_of_any_data_witness :
  Main.weightedCurve UTC_plus1 examplePopulation threePlants
  = Return [weightedPoint feb1 ((0 + 10 * 1600000 + 40 * 750000) / (0 + 1600000 + 750000));
            weightedPoint feb8 ((0 + 20 * 1600000 + 20 * 1300000) / (0 + 1600000 + 1300000))]
  /\ NoDup [feb1; feb8].
Proof.
  assert (Main.weightedCurve UTC_plus1 examplePopulation threePlants
          = Return [weightedPoint feb1
                      ((0 + 10 * 1600000 + 40 * 750000) / (0 + 1600000 + 750000));
                    weightedPoint feb8
                      ((0 + 20 * 1600000 + 20 * 1300000) / (0 + 1600000 + 1300000))]) as E
      by (vm_compute; reflexivity).
  split; [exact E|].
  exact (proj1 (curve_of_any_data UTC_plus1 examplePopulation threePlants _
                  boundedOffset_plus1 E)).
Defined.


(** X17, at scenario A. *)
Lemma validated_sample_is_charted_witness :
  List.length (testMeans (results scenarioA)) = 1%nat
  /\ exists p, date p = feb1 /\ filterDataByStation UTC_plus1 [scenarioA] "X" = [p].
Proof.
  apply (validated_sample_is_charted UTC_plus1 scenarioA 0 feb1);
    [vm_compute; reflexivity | vm_compute; discriminate | vm_compute; reflexivity].
Defined.



(** X20, at two instants of 1 February 2022. *)
Lemma formatDate_is_the_utc_day_witness :
  Fetch.formatDate 1643673600000%Z = Fetch.formatDate 1643759999999%Z
  /\ Fetch.formatDate 1643673600000%Z = "2022-02-01"%string
  /\ String.length (Fetch.formatDate 1643673600000%Z) = 10%nat.
Proof.
  destruct (formatDate_is_the_utc_day 1643673600000%Z 1643759999999%Z) as (_ & Hd & Hl).
  split; [apply Hd; reflexivity|]. split; [vm_compute; reflexivity|].
  apply Hl. unfold fourDigitYear. lia.
Defined.

(** X21, at the last day of February 2024 on a host one hour east of
    Greenwich. *)
Lemma addOneDay_is_the_next_day_witness :
  Fetch.addOneDay (fun t => t + 3600000)%Z (fun t => t - 3600000)%Z (Some 1709251199999%Z)
  = Some (1709251199999 + JsDate.msPerDay)%Z
  /\ JsDate.toISOString (1709251199999 + JsDate.msPerDay)%Z
     = "2024-03-01T23:59:59.999Z"%string.
Proof.
  split; [|vm_compute; reflexivity].
  apply (proj2 (proj2 (addOneDay_is_the_next_day (fun t => t + 3600000)%Z
                         (fun t => t - 3600000)%Z 1709251199999%Z 3600000%Z)));
    try reflexivity.
  unfold validTime, JsDate.msPerDay. lia.
Defined.

